(** * kidsCalendar: task scheduling, rewards and migration core

    A shallow embedding of the TypeScript sources of the kidsCalendar
    application and the properties of its specification:

    - [Js]: the ECMAScript primitives the program calls ([Number],
      [parseInt], [String.prototype.trim], [split], ...);
    - [Types]: the records of [types.ts];
    - [ParentDashboard], [ChildPortal]: the time parser / formatter, the
      "currently due" projection and the guardian edit form;
    - [App]: the state container of [App.tsx] and its mutation handlers;
    - [ParentSettings]: the child editor;
    - [Migration]: [services/migrationService.ts] over a model of the
      browser's [localStorage] and of the remote tables;
    - [Recurrence]: the recurrence expander of the specification. *)

From Stdlib Require Import ZArith QArith Qround String Ascii List Lia Bool DecimalString
  DecimalZ Sorted.
From stdpp Require Import gmap strings list.

Open Scope string_scope.
Open Scope Z_scope.

(* ===================================================================== *)
(** * ECMAScript primitives *)
(* ===================================================================== *)

Module Js.

(** ** Numbers

    A JS number is an IEEE-754 binary64 value.  Finite values are kept as
    reduced rationals (every finite double is one); each arithmetic
    operation computes the exact result and rounds it to the nearest double,
    ties to even, which is the IEEE rule.  The sign of zero is not kept: no
    operation of this program observes it. *)

Inductive JsNum : Set :=
| NaN
| Inf (neg : bool)
| Fin (q : Q).

Definition Int (z : Z) : JsNum := Fin (z # 1).

(** [a / d >= 2 ^ e] for positive integers [a] and [d]. *)
Definition ge_pow2 (a d e : Z) : bool :=
  if 0 <=? e then d * 2 ^ e <=? a else d <=? a * 2 ^ (- e).

(** Round an exact rational to the nearest binary64 (53-bit significand,
    exponents down to the subnormal 2^-1074, overflow to infinity). *)
Definition round64 (q : Q) : JsNum :=
  let n := Qnum q in
  let d := Zpos (Qden q) in
  if n =? 0 then Fin 0 else
  let a := Z.abs n in
  let e0 := Z.log2 a - Z.log2 d in
  let e := if ge_pow2 a d e0 then e0 else e0 - 1 in
  let u := Z.max (e - 52) (-1074) in
  let num := if 0 <=? u then a else a * 2 ^ (- u) in
  let den := if 0 <=? u then d * 2 ^ u else d in
  let fl := num / den in
  let r := num mod den in
  let m := if 2 * r <? den then fl
           else if den <? 2 * r then fl + 1
           else if Z.even fl then fl else fl + 1 in
  let sm := if n <? 0 then - m else m in
  if 0 <=? u
  then if 2 ^ 1024 <=? m * 2 ^ u then Inf (n <? 0) else Fin (sm * 2 ^ u # 1)
  else Fin (Qred (Qmake sm (Z.to_pos (2 ^ (- u))))).

Definition is_zero (q : Q) : bool := Qnum q =? 0.
Definition is_neg (q : Q) : bool := Qnum q <? 0.

Definition add (x y : JsNum) : JsNum :=
  match x, y with
  | NaN, _ | _, NaN => NaN
  | Inf a, Inf b => if Bool.eqb a b then Inf a else NaN
  | Inf a, Fin _ | Fin _, Inf a => Inf a
  | Fin a, Fin b => round64 (Qplus a b)
  end.

Definition mul (x y : JsNum) : JsNum :=
  match x, y with
  | NaN, _ | _, NaN => NaN
  | Inf a, Inf b => Inf (xorb a b)
  | Inf a, Fin q | Fin q, Inf a =>
      if is_zero q then NaN else Inf (xorb a (is_neg q))
  | Fin a, Fin b => round64 (Qmult a b)
  end.

Definition div (x y : JsNum) : JsNum :=
  match x, y with
  | NaN, _ | _, NaN => NaN
  | Inf _, Inf _ => NaN
  | Inf a, Fin q => Inf (xorb a (is_neg q))
  | Fin _, Inf _ => Fin 0
  | Fin a, Fin b =>
      if is_zero b then (if is_zero a then NaN else Inf (is_neg a))
      else round64 (Qdiv a b)
  end.

(** [Math.floor]. *)
Definition floor (x : JsNum) : JsNum :=
  match x with
  | Fin q => Fin (Qfloor q # 1)
  | _ => x
  end.

(** The remainder operator [%]: the result has the sign of the dividend and
    is exact. *)
Definition rem (x y : JsNum) : JsNum :=
  match x, y with
  | NaN, _ | _, NaN => NaN
  | Inf _, _ => NaN
  | Fin a, Inf _ => Fin a
  | Fin a, Fin b =>
      if is_zero b then NaN
      else let t := Qdiv a b in
           let tr := if is_neg t then (- Qfloor (Qopp t))%Z else Qfloor t in
           Fin (Qred (Qminus a (Qmult b (tr # 1))))
  end.

(** [x < y]; false as soon as an operand is NaN. *)
Definition lt (x y : JsNum) : bool :=
  match x, y with
  | NaN, _ | _, NaN => false
  | Inf a, Inf b => a && negb b
  | Inf a, Fin _ => a
  | Fin _, Inf b => negb b
  | Fin a, Fin b => negb (Qle_bool b a)
  end.

(** [x >= y]; false as soon as an operand is NaN. *)
Definition ge (x y : JsNum) : bool :=
  match x, y with
  | NaN, _ | _, NaN => false
  | Inf a, Inf b => negb a || b
  | Inf a, Fin _ => negb a
  | Fin _, Inf b => b
  | Fin a, Fin b => Qle_bool b a
  end.

(** Strict equality [===] of two numbers. *)
Definition eqn (x y : JsNum) : bool :=
  match x, y with
  | Inf a, Inf b => Bool.eqb a b
  | Fin a, Fin b => Qeq_bool a b
  | _, _ => false
  end.

(** ToBoolean of a number: NaN and zero are falsy. *)
Definition truthy (x : JsNum) : bool :=
  match x with
  | NaN => false
  | Inf _ => true
  | Fin q => negb (is_zero q)
  end.

Definition isNaN (x : JsNum) : bool :=
  match x with NaN => true | _ => false end.

(** [x || d] on numbers. *)
Definition or_num (x d : JsNum) : JsNum := if truthy x then x else d.

(** ** Characters and strings

    Strings are sequences of 8-bit characters.  The embedding covers the
    ASCII range: there the white space of [trim] and of the regular
    expression class [\s] is TAB, LF, VT, FF, CR and SPACE, and
    [toUpperCase] maps [a-z] to [A-Z]; other characters are carried along
    unchanged. *)

Definition code (c : ascii) : Z := Z.of_N (N_of_ascii c).

Definition is_space (c : ascii) : bool :=
  let n := code c in ((9 <=? n) && (n <=? 13)) || (n =? 32).

Definition is_digit (c : ascii) : bool :=
  let n := code c in (48 <=? n) && (n <=? 57).

Definition upper_char (c : ascii) : ascii :=
  let n := code c in
  if (97 <=? n) && (n <=? 122) then ascii_of_N (Z.to_N (n - 32)) else c.

Fixpoint toUpperCase (s : string) : string :=
  match s with
  | EmptyString => EmptyString
  | String c s' => String (upper_char c) (toUpperCase s')
  end.

Fixpoint trimStart (s : string) : string :=
  match s with
  | String c s' => if is_space c then trimStart s' else s
  | EmptyString => EmptyString
  end.

Fixpoint trimEnd (s : string) : string :=
  match s with
  | EmptyString => EmptyString
  | String c s' =>
      match trimEnd s' with
      | EmptyString => if is_space c then EmptyString else String c EmptyString
      | t => String c t
      end
  end.

Definition trim (s : string) : string := trimEnd (trimStart s).

Fixpoint startsWith (p s : string) : bool :=
  match p, s with
  | EmptyString, _ => true
  | String a p', String b s' => Ascii.eqb a b && startsWith p' s'
  | String _ _, EmptyString => false
  end.

(** [s.includes(sub)]. *)
Fixpoint includes (s sub : string) : bool :=
  startsWith sub s ||
  match s with
  | EmptyString => false
  | String _ s' => includes s' sub
  end.

(** [s.split(sep)] for a one-character separator: never empty. *)
Fixpoint split_char (sep : ascii) (s : string) : list string :=
  match s with
  | EmptyString => [EmptyString]
  | String c s' =>
      if Ascii.eqb c sep then EmptyString :: split_char sep s'
      else match split_char sep s' with
           | t :: ts => String c t :: ts
           | [] => [String c EmptyString]
           end
  end.

(** [s.split(/\s+/)]: the pieces between maximal runs of white space.
    [in_gap] tells that the previous character was white space. *)
Fixpoint split_spaces_from (in_gap : bool) (s : string) : list string :=
  match s with
  | EmptyString => [EmptyString]
  | String c s' =>
      if is_space c then
        if in_gap then split_spaces_from true s'
        else EmptyString :: split_spaces_from true s'
      else match split_spaces_from false s' with
           | t :: ts => String c t :: ts
           | [] => [String c EmptyString]
           end
  end.

Definition split_spaces (s : string) : list string := split_spaces_from false s.

(** [s.padStart(n, "0")]. *)
Definition padStart0 (n : nat) (s : string) : string :=
  String.append (string_of_list_ascii (repeat "0"%char (n - String.length s))) s.

(** ** Numeric literals *)

Fixpoint span (p : ascii -> bool) (s : string) : string * string :=
  match s with
  | String c s' =>
      if p c then let (a, b) := span p s' in (String c a, b)
      else (EmptyString, s)
  | EmptyString => (EmptyString, EmptyString)
  end.

(** Value of a digit in any radix up to 36. *)
Definition digit_of (c : ascii) : option Z :=
  let n := code c in
  if (48 <=? n) && (n <=? 57) then Some (n - 48)
  else if (97 <=? n) && (n <=? 122) then Some (n - 87)
  else if (65 <=? n) && (n <=? 90) then Some (n - 55)
  else None.

Definition is_radix_digit (radix : Z) (c : ascii) : bool :=
  match digit_of c with
  | Some v => v <? radix
  | None => false
  end.

Fixpoint radix_value (radix acc : Z) (s : string) : Z :=
  match s with
  | EmptyString => acc
  | String c s' => radix_value radix (acc * radix + default 0 (digit_of c)) s'
  end.

(** [10 ^ k] for any integer [k]. *)
Definition pow10 (k : Z) : Q :=
  if 0 <=? k then 10 ^ k # 1 else 1 # Z.to_pos (10 ^ (- k)).

(** The digits after [0x], [0o] or [0b]. *)
Definition non_decimal (radix : Z) (body : string) : JsNum :=
  match span (is_radix_digit radix) body with
  | (String _ _ as ds, EmptyString) => round64 (radix_value radix 0 ds # 1)
  | _ => NaN
  end.

(** What follows the mantissa: nothing, or [e], an optional sign and
    digits. *)
Definition exponent_part (s : string) : option Z :=
  match s with
  | EmptyString => Some 0
  | String c s1 =>
      if Ascii.eqb c "e" || Ascii.eqb c "E" then
        let '(neg, s2) :=
          match s1 with
          | String "-" t => (true, t)
          | String "+" t => (false, t)
          | _ => (false, s1)
          end in
        match span is_digit s2 with
        | (String _ _ as ds, EmptyString) =>
            let v := radix_value 10 0 ds in Some (if neg then - v else v)
        | _ => None
        end
      else None
  end.

(** StrUnsignedDecimalLiteral, with the sign already read. *)
Definition unsigned_decimal (neg : bool) (s : string) : JsNum :=
  if String.eqb s "Infinity" then Inf neg else
  let '(ip, r1) := span is_digit s in
  let '(fp, r2) :=
    match r1 with
    | String "." t => span is_digit t
    | _ => (EmptyString, r1)
    end in
  match String.append ip fp, exponent_part r2 with
  | String _ _ as ds, Some e =>
      let v := radix_value 10 0 ds in
      let k := e - Z.of_nat (String.length fp) in
      round64 (Qmult ((if neg then - v else v) # 1) (pow10 k))
  | _, _ => NaN
  end.

(** [Number(s)] on a string (StringToNumber). *)
Definition Number (s : string) : JsNum :=
  match trim s with
  | EmptyString => Int 0
  | String "0" (String x body) as t =>
      if Ascii.eqb x "x" || Ascii.eqb x "X" then non_decimal 16 body
      else if Ascii.eqb x "o" || Ascii.eqb x "O" then non_decimal 8 body
      else if Ascii.eqb x "b" || Ascii.eqb x "B" then non_decimal 2 body
      else unsigned_decimal false t
  | String "-" t => unsigned_decimal true t
  | String "+" t => unsigned_decimal false t
  | t => unsigned_decimal false t
  end.

(** [parseInt(s)] without a radix argument. *)
Definition parseInt (s : string) : JsNum :=
  let t := trimStart s in
  let '(neg, t1) :=
    match t with
    | String "-" r => (true, r)
    | String "+" r => (false, r)
    | _ => (false, t)
    end in
  let '(radix, t2) :=
    match t1 with
    | String "0" (String x r) =>
        if Ascii.eqb x "x" || Ascii.eqb x "X" then (16, r) else (10, t1)
    | _ => (10, t1)
    end in
  match fst (span (is_radix_digit radix) t2) with
  | EmptyString => NaN
  | ds => let v := radix_value radix 0 ds in
          round64 ((if neg then - v else v) # 1)
  end.

(** ** Number.prototype.toString *)

Definition dec (z : Z) : string := NilZero.string_of_int (Z.to_int z).

Definition zeros (n : Z) : string :=
  string_of_list_ascii (repeat "0"%char (Z.to_nat n)).

(** For [0 < x < 1]: the least [j] from the given one with
    [1 <= x * 10^j]. *)
Fixpoint small_exp (fuel : nat) (x : Q) (j : Z) : Z :=
  match fuel with
  | O => j
  | S f => if Qle_bool 1 (Qmult x (pow10 j)) then j else small_exp f x (j + 1)
  end.

(** [n] with [10^(n-1) <= x < 10^n], for [0 < x]. *)
Definition magnitude (x : Q) : Z :=
  if Qle_bool 1 x then Z.of_nat (String.length (dec (Qfloor x)))
  else 1 - small_exp 400 x 1.

(** The shortest digit string [s] of [k] digits, from the given [k] on, with
    [s * 10^(n-k)] rounding to [x]; of two, the closer one. *)
Fixpoint shortest (fuel : nat) (x : Q) (n k : Z) : Z * Z :=
  let scale := pow10 (n - k) in
  let lo := Qfloor (Qdiv x scale) in
  let hi := lo + 1 in
  let back s := eqn (round64 (Qmult (s # 1) scale)) (Fin x) in
  let ok_lo := back lo in
  let ok_hi := back hi && (hi <? 10 ^ k) in
  let dlo := Qminus x (Qmult (lo # 1) scale) in
  let dhi := Qminus (Qmult (hi # 1) scale) x in
  if ok_lo && ok_hi then
    (if Qeq_bool dlo dhi then (if Z.even lo then lo else hi)
     else if Qle_bool dlo dhi then lo else hi, k)
  else if ok_lo then (lo, k)
  else if ok_hi then (hi, k)
  else match fuel with
       | O => (lo, k)
       | S f => shortest f x n (k + 1)
       end.

(** The digits [s], their number [k] and the decimal exponent [n] of
    Number::toString: [s * 10^(n-k)] rounds to [x] with [k] as small as
    possible.  A double just below a power of ten prints as that power. *)
Definition digits_of (x : Q) : Z * Z * Z :=
  let n := magnitude x in
  if eqn (round64 (pow10 n)) (Fin x) then (1, 1, n + 1)
  else (shortest 17 x n 1, n).

Definition toString_pos (x : Q) : string :=
  let '(s, k, n) := digits_of x in
  let ds := dec s in
  if (k <=? n) && (n <=? 21) then String.append ds (zeros (n - k))
  else if (0 <? n) && (n <=? 21) then
    String.append (substring 0 (Z.to_nat n) ds)
      (String "." (substring (Z.to_nat n) (Z.to_nat (k - n)) ds))
  else if (-6 <? n) && (n <=? 0) then
    String.append "0." (String.append (zeros (- n)) ds)
  else
    let e := n - 1 in
    let mant :=
      if k =? 1 then ds
      else String.append (substring 0 1 ds)
             (String "." (substring 1 (Z.to_nat (k - 1)) ds)) in
    String.append mant
      (String "e" (String.append (if e <? 0 then "-" else "+") (dec (Z.abs e)))).

(** [x.toString()]. *)
Definition toString (x : JsNum) : string :=
  match x with
  | NaN => "NaN"
  | Inf neg => if neg then "-Infinity" else "Infinity"
  | Fin q =>
      if is_zero q then "0"
      else if is_neg q then String "-" (toString_pos (Qopp q))
      else toString_pos q
  end.

(** [x || d] on an optional string: [undefined] and [""] are falsy. *)
Definition or_str (x : option string) (d : string) : string :=
  match x with
  | None | Some EmptyString => d
  | Some s => s
  end.

(** The two readings of a [Date] the program takes. *)
Record Date : Set := { getHours : Z; getMinutes : Z }.

(** ** Regular expressions

    The star-free fragment used by the validators: character classes,
    sequence, alternative and option.  [rmatch r s k] tries every way to
    match a prefix of [s] with [r] and hands the rest to [k], which is the
    backtracking search of [RegExp.prototype.test]. *)

Inductive regex : Type :=
| Eps
| Chr (cls : ascii -> bool)
| Cat (r1 r2 : regex)
| Alt (r1 r2 : regex)
| Opt (r : regex).

Fixpoint rmatch (r : regex) (s : string) (k : string -> bool) : bool :=
  match r with
  | Eps => k s
  | Chr cls =>
      match s with
      | String c s' => cls c && k s'
      | EmptyString => false
      end
  | Cat r1 r2 => rmatch r1 s (fun s' => rmatch r2 s' k)
  | Alt r1 r2 => rmatch r1 s k || rmatch r2 s k
  | Opt r1 => rmatch r1 s k || k s
  end.

Definition is_empty (s : string) : bool :=
  match s with EmptyString => true | _ => false end.

(** [/^r$/.test(s)]. *)
Definition test (r : regex) (s : string) : bool := rmatch r s is_empty.

Definition chr (c : ascii) : regex := Chr (Ascii.eqb c).

(** The class [[a-b]]. *)
Definition range (a b : ascii) : regex :=
  Chr (fun c => (code a <=? code c) && (code c <=? code b)).

Fixpoint lit (s : string) : regex :=
  match s with
  | EmptyString => Eps
  | String c s' => Cat (chr c) (lit s')
  end.

(** The strings a regular expression matches, for the finite fragment. *)
Definition all_ascii : list ascii := map ascii_of_nat (seq 0 256).

Fixpoint lang (r : regex) : list string :=
  match r with
  | Eps => [EmptyString]
  | Chr cls => map (fun c => String c EmptyString) (List.filter cls all_ascii)
  | Cat r1 r2 => flat_map (fun a => map (String.append a) (lang r2)) (lang r1)
  | Alt r1 r2 => (lang r1 ++ lang r2)%list
  | Opt r1 => (lang r1 ++ [EmptyString])%list
  end.

(** Two numbers are the same value (unlike [===], NaN is the same as NaN). *)
Definition same (x y : JsNum) : bool :=
  match x, y with
  | NaN, NaN => true
  | Inf a, Inf b => Bool.eqb a b
  | Fin a, Fin b => (Qnum a =? Qnum b) && Pos.eqb (Qden a) (Qden b)
  | _, _ => false
  end.

(** The number is an integer minute of the day. *)
Definition minuteOfDay (x : JsNum) : bool :=
  match x with
  | Fin (n # 1) => (0 <=? n) && (n <=? 1439)
  | _ => false
  end.

(** [x - y]. *)
Definition sub (x y : JsNum) : JsNum :=
  match x, y with
  | NaN, _ | _, NaN => NaN
  | Inf a, Inf b => if Bool.eqb a b then NaN else Inf a
  | Inf a, Fin _ => Inf a
  | Fin _, Inf b => Inf (negb b)
  | Fin a, Fin b => round64 (Qminus a b)
  end.

(** [x <= y]; false as soon as an operand is NaN. *)
Definition le (x y : JsNum) : bool :=
  match x, y with
  | NaN, _ | _, NaN => false
  | Inf a, Inf b => a || negb b
  | Inf a, Fin _ => a
  | Fin _, Inf b => negb b
  | Fin a, Fin b => Qle_bool a b
  end.

(** ** Strings by code unit

    [length] and [substring] count a string in UTF-16 code units, and
    [trim] removes the white space of ECMAScript, not only that of the
    ASCII range.  Where a result depends on this, a string is the list of
    its code units, numbers from 0 to 65535. *)

Module Utf16.

Definition t : Set := list Z.

(** The code units of a text of the ASCII range. *)
Definition ofAscii (s : string) : t := map code (list_ascii_of_string s).

(** WhiteSpace and LineTerminator: TAB, LF, VT, FF, CR, SPACE, U+00A0,
    U+1680, U+2000 to U+200A, U+2028, U+2029, U+202F, U+205F, U+3000 and
    U+FEFF. *)
Definition is_white (u : Z) : bool :=
  existsb (Z.eqb u)
    [9; 10; 11; 12; 13; 32; 160; 5760; 8232; 8233; 8239; 8287; 12288; 65279]
  || ((8192 <=? u) && (u <=? 8202)).

Fixpoint trimStart (s : t) : t :=
  match s with
  | u :: s' => if is_white u then trimStart s' else s
  | [] => []
  end.

Definition trimEnd (s : t) : t := rev (trimStart (rev s)).

Definition trim (s : t) : t := trimEnd (trimStart s).

End Utf16.

End Js.

(* ===================================================================== *)
(** * types.ts *)
(* ===================================================================== *)

Module Types.
Import Js.

Inductive TimeFormat : Set := H12 | H24.
Inductive Language : Set := En | Es.
Inductive LoveLanguage : Set :=
| PhysicalTouch | WordsOfAffirmation | QualityTime | Gifts | ActsOfService.

Inductive RecurrenceFrequency : Set := Daily | Weekly | Monthly | NoRecurrence.

Record TaskRecurrence : Set := {
  frequency : RecurrenceFrequency;
  days : list Z;
  dayOfMonth : option JsNum;
  endDate : option string
}.

Inductive TaskType : Set := Routine | School | Activity | Hygiene.
Inductive TaskStatus : Set := Pending | Active | Done.

(** Star counts, costs and [Date.now()] time stamps are integers far below
    2^53; they are kept in [Z]. *)
Record Task : Set := {
  task_id : string;
  task_title : string;
  task_description : string;
  task_reward : Z;
  task_time : string;
  task_duration : option string;
  task_startTime : option Z;
  task_type : TaskType;
  task_status : TaskStatus;
  task_emoji : string;
  task_recurrence : option TaskRecurrence;
  audio_pending_es : option string;
  audio_pending_en : option string;
  audio_active_es : option string;
  audio_active_en : option string;
  audio_done_es : option string;
  audio_done_en : option string
}.

Inductive RewardType : Set := Screen | Toy | Treat.

Record Reward : Set := {
  reward_id : string;
  reward_title : string;
  reward_category : string;
  reward_cost : Z;
  reward_image : string;
  reward_type : RewardType
}.

Record RedemptionRecord : Set := {
  rr_id : string;
  rr_rewardId : string;
  rr_rewardTitle : string;
  rr_cost : Z;
  rr_timestamp : Z;
  rr_note : option string
}.

Record Child : Set := {
  child_id : string;
  child_name : string;
  child_age : option JsNum;
  child_level : Z;
  child_stars : Z;
  child_avatar : string;
  child_active : bool;
  child_rewards : list Reward;
  child_tasks : list Task;
  child_loveLanguages : option (list LoveLanguage);
  child_redemptionHistory : option (list RedemptionRecord)
}.

(** ** Record updates ([{ ...x, field: v }]) *)

Definition task_with_status (t : Task) (st : TaskStatus) (start : option Z) : Task :=
  {| task_id := task_id t; task_title := task_title t;
     task_description := task_description t; task_reward := task_reward t;
     task_time := task_time t; task_duration := task_duration t;
     task_startTime := start; task_type := task_type t; task_status := st;
     task_emoji := task_emoji t; task_recurrence := task_recurrence t;
     audio_pending_es := audio_pending_es t; audio_pending_en := audio_pending_en t;
     audio_active_es := audio_active_es t; audio_active_en := audio_active_en t;
     audio_done_es := audio_done_es t; audio_done_en := audio_done_en t |}.

Definition task_with_id_recurrence (t : Task) (i : string) (r : option TaskRecurrence)
  : Task :=
  {| task_id := i; task_title := task_title t;
     task_description := task_description t; task_reward := task_reward t;
     task_time := task_time t; task_duration := task_duration t;
     task_startTime := task_startTime t; task_type := task_type t;
     task_status := task_status t;
     task_emoji := task_emoji t; task_recurrence := r;
     audio_pending_es := audio_pending_es t; audio_pending_en := audio_pending_en t;
     audio_active_es := audio_active_es t; audio_active_en := audio_active_en t;
     audio_done_es := audio_done_es t; audio_done_en := audio_done_en t |}.

(** The fields the task form edits. *)
Definition task_with_form (t : Task) (ti de : string) (re : Z) (tm : string)
  (du : option string) : Task :=
  {| task_id := task_id t; task_title := ti;
     task_description := de; task_reward := re;
     task_time := tm; task_duration := du;
     task_startTime := task_startTime t; task_type := task_type t;
     task_status := task_status t;
     task_emoji := task_emoji t; task_recurrence := task_recurrence t;
     audio_pending_es := audio_pending_es t; audio_pending_en := audio_pending_en t;
     audio_active_es := audio_active_es t; audio_active_en := audio_active_en t;
     audio_done_es := audio_done_es t; audio_done_en := audio_done_en t |}.

(** [task[`audio_${status}_${lang}`] = v]. *)
Definition task_with_audio (t : Task) (st : TaskStatus) (lang : Language) (v : string)
  : Task :=
  let pick (st' : TaskStatus) (lang' : Language) (old : option string) :=
    match st, st', lang, lang' with
    | Pending, Pending, Es, Es | Pending, Pending, En, En
    | Active, Active, Es, Es | Active, Active, En, En
    | Done, Done, Es, Es | Done, Done, En, En => Some v
    | _, _, _, _ => old
    end in
  {| task_id := task_id t; task_title := task_title t;
     task_description := task_description t; task_reward := task_reward t;
     task_time := task_time t; task_duration := task_duration t;
     task_startTime := task_startTime t; task_type := task_type t;
     task_status := task_status t;
     task_emoji := task_emoji t; task_recurrence := task_recurrence t;
     audio_pending_es := pick Pending Es (audio_pending_es t);
     audio_pending_en := pick Pending En (audio_pending_en t);
     audio_active_es := pick Active Es (audio_active_es t);
     audio_active_en := pick Active En (audio_active_en t);
     audio_done_es := pick Done Es (audio_done_es t);
     audio_done_en := pick Done En (audio_done_en t) |}.

Definition child_with_active (c : Child) (a : bool) : Child :=
  {| child_id := child_id c; child_name := child_name c; child_age := child_age c;
     child_level := child_level c; child_stars := child_stars c;
     child_avatar := child_avatar c; child_active := a;
     child_rewards := child_rewards c; child_tasks := child_tasks c;
     child_loveLanguages := child_loveLanguages c;
     child_redemptionHistory := child_redemptionHistory c |}.

Definition child_with_tasks (c : Child) (ts : list Task) : Child :=
  {| child_id := child_id c; child_name := child_name c; child_age := child_age c;
     child_level := child_level c; child_stars := child_stars c;
     child_avatar := child_avatar c; child_active := child_active c;
     child_rewards := child_rewards c; child_tasks := ts;
     child_loveLanguages := child_loveLanguages c;
     child_redemptionHistory := child_redemptionHistory c |}.

Definition child_with_rewards (c : Child) (rs : list Reward) : Child :=
  {| child_id := child_id c; child_name := child_name c; child_age := child_age c;
     child_level := child_level c; child_stars := child_stars c;
     child_avatar := child_avatar c; child_active := child_active c;
     child_rewards := rs; child_tasks := child_tasks c;
     child_loveLanguages := child_loveLanguages c;
     child_redemptionHistory := child_redemptionHistory c |}.

Definition child_with_stars_history (c : Child) (stars : Z)
  (h : list RedemptionRecord) : Child :=
  {| child_id := child_id c; child_name := child_name c; child_age := child_age c;
     child_level := child_level c; child_stars := stars;
     child_avatar := child_avatar c; child_active := child_active c;
     child_rewards := child_rewards c; child_tasks := child_tasks c;
     child_loveLanguages := child_loveLanguages c;
     child_redemptionHistory := Some h |}.

End Types.

(* ===================================================================== *)
(** * views/ParentDashboard.tsx *)
(* ===================================================================== *)

Module ParentDashboard.
Import Js Types.

(** [/^(0?[1-9]|1[0-2]):[0-5][0-9]\s?(AM|PM)$/] *)
Definition time12hRegex : regex :=
  Cat (Alt (Cat (Opt (chr "0")) (range "1" "9")) (Cat (chr "1") (range "0" "2")))
   (Cat (chr ":") (Cat (range "0" "5") (Cat (range "0" "9")
     (Cat (Opt (Chr is_space)) (Alt (lit "AM") (lit "PM")))))).

(** [/^([01]?[0-9]|2[0-3]):[0-5][0-9]$/] *)
Definition time24hRegex : regex :=
  Cat (Alt (Cat (Opt (range "0" "1")) (range "0" "9")) (Cat (chr "2") (range "0" "3")))
   (Cat (chr ":") (Cat (range "0" "5") (range "0" "9"))).

Definition isValidTime (timeStr : string) : bool :=
  let clean := toUpperCase (trim timeStr) in
  test time12hRegex clean || test time24hRegex clean.

Definition isValidDuration (dur : string) : bool :=
  let n := Number dur in
  negb (isNaN n) && lt (Int 0) n && lt n (Int 1440).

(** [Number(x || 0)] for an array element [x] that may be missing. *)
Definition number_or0 (x : option string) : JsNum :=
  match x with
  | None | Some EmptyString => Int 0
  | Some s => Number s
  end.

(** The [try] block of [parseTimeToMinutes] from its second statement on,
    as a function of [clean]. *)
Definition parseClean (clean : string) : JsNum :=
  let is12h := includes clean "AM" || includes clean "PM" in
  if is12h then
    let parts := split_spaces clean in
    let timeParts := split_char ":" (nth 0 parts "") in
    let hours := Number (nth 0 timeParts "") in
    let minutes := number_or0 (nth_error timeParts 1) in
    let period :=
      match nth_error parts 1 with
      | None | Some EmptyString => if ge hours (Int 12) then "PM" else "AM"
      | Some p => p
      end in
    let hours :=
      if String.eqb period "PM" && lt hours (Int 12)
      then add hours (Int 12) else hours in
    let hours :=
      if String.eqb period "AM" && eqn hours (Int 12)
      then Int 0 else hours in
    add (mul hours (Int 60)) (or_num minutes (Int 0))
  else
    let parts := split_char ":" clean in
    let hours := Number (nth 0 parts "") in
    let minutes := number_or0 (nth_error parts 1) in
    add (mul (or_num hours (Int 0)) (Int 60)) (or_num minutes (Int 0)).

(** No call in the [try] block can throw ([split] always yields a first
    element), so the [catch] branch is never taken. *)
Definition parseTimeToMinutes (timeStr : option string) : JsNum :=
  match timeStr with
  | None | Some EmptyString => Int 0
  | Some s =>
      let clean := toUpperCase (trim s) in
      parseClean clean
  end.

Definition pad (n : JsNum) : string := padStart0 2 (toString n).

Definition minutesToInternalString (mins : JsNum) (format : TimeFormat) : string :=
  let h := rem (floor (div mins (Int 60))) (Int 24) in
  let m := rem mins (Int 60) in
  match format with
  | H24 => String.append (pad h) (String ":" (pad m))
  | H12 =>
      let period := if ge h (Int 12) then "PM" else "AM" in
      let h12 := or_num (rem h (Int 12)) (Int 12) in
      String.append (pad h12)
        (String ":" (String.append (pad m) (String " " period)))
  end.

Definition displayTime (timeStr : option string) (format : TimeFormat) : string :=
  let mins := parseTimeToMinutes timeStr in
  minutesToInternalString mins format.

(** The callback of [sortedTasks.find] in [activeTaskNow]. *)
Definition dueAt (nowMinutes : JsNum) (task : Task) : bool :=
  let startMins := parseTimeToMinutes (Some (task_time task)) in
  let durMins := parseInt (or_str (task_duration task) "0") in
  let endMins := add startMins durMins in
  ge nowMinutes startMins && lt nowMinutes endMins.

(** [activeTaskNow], as a function of the memo's two dependencies.  The
    list [sortedTasks] is taken as it is: it is the child's tasks reordered
    by [Array.prototype.sort]. *)
Definition activeTaskNow (sortedTasks : list Task) (currentTime : Date) : option Task :=
  match sortedTasks with
  | [] => None
  | _ =>
      let nowMinutes :=
        add (mul (Int (getHours currentTime)) (Int 60)) (Int (getMinutes currentTime)) in
      find (dueAt nowMinutes) sortedTasks
  end.

(** ** The task form *)

Record TaskForm : Set := {
  editingTaskId : option string;
  newTask : Task;
  recurrenceFreq : RecurrenceFrequency;
  recurrenceDays : list Z;
  recurrenceEndDate : string;
  recurrenceDayOfMonth : JsNum;
  triedToSave : bool;
  isAddingTask : bool
}.

(** The bytes of the star emoji of the default task. *)
Definition starEmoji : string :=
  String (ascii_of_nat 240) (String (ascii_of_nat 159)
    (String (ascii_of_nat 140) (String (ascii_of_nat 159) EmptyString))).

Definition defaultTask : Task :=
  {| task_id := ""; task_title := ""; task_description := ""; task_reward := 5;
     task_time := "09:00 AM"; task_duration := Some "30"; task_startTime := None;
     task_type := Routine; task_status := Pending; task_emoji := starEmoji;
     task_recurrence := None;
     audio_pending_es := None; audio_pending_en := None;
     audio_active_es := None; audio_active_en := None;
     audio_done_es := None; audio_done_en := None |}.

(** [resetTaskState]; it leaves [editingTaskId] and [isAddingTask] alone. *)
Definition resetTaskState (f : TaskForm) : TaskForm :=
  {| editingTaskId := editingTaskId f; newTask := defaultTask;
     recurrenceFreq := NoRecurrence; recurrenceDays := [];
     recurrenceEndDate := ""; recurrenceDayOfMonth := Int 1;
     triedToSave := false; isAddingTask := isAddingTask f |}.

Definition handleEditTaskRequest (task : Task) (f : TaskForm) : TaskForm :=
  let r := task_recurrence task in
  {| editingTaskId := Some (task_id task);
     newTask := task;
     recurrenceFreq := from_option frequency NoRecurrence r;
     recurrenceDays := from_option days [] r;
     recurrenceEndDate := or_str (r ≫= endDate) "";
     recurrenceDayOfMonth := or_num (default NaN (r ≫= dayOfMonth)) (Int 1);
     triedToSave := false;
     isAddingTask := true |}.

Fixpoint insert_sorted (d : Z) (l : list Z) : list Z :=
  match l with
  | [] => [d]
  | x :: l' => if d <=? x then d :: l else x :: insert_sorted d l'
  end.

(** [[...prev, day].sort()]: the default sort compares the decimal
    strings, which on the day numbers 0..6 is the numeric order. *)
Definition toggleRecurrenceDay (day : Z) (prev : list Z) : list Z :=
  if existsb (Z.eqb day) prev
  then List.filter (fun d => negb (d =? day)) prev
  else fold_right insert_sorted [] (prev ++ [day])%list.

(** What the inputs of the form do to its state ([onChange], [onClick]). *)
Inductive FormEvent : Set :=
| EditTitle (v : string)
| EditDescription (v : string)
| EditTime (v : string)
| EditDuration (v : string)
| EditReward (v : Z)
| PickFrequency (freq : RecurrenceFrequency)
| ToggleDay (day : Z)
| EditDayOfMonth (v : string)
| EditEndDate (v : string).

Definition with_newTask (f : TaskForm) (t : Task) (tried : bool) : TaskForm :=
  {| editingTaskId := editingTaskId f; newTask := t;
     recurrenceFreq := recurrenceFreq f; recurrenceDays := recurrenceDays f;
     recurrenceEndDate := recurrenceEndDate f;
     recurrenceDayOfMonth := recurrenceDayOfMonth f;
     triedToSave := tried; isAddingTask := isAddingTask f |}.

Definition with_recurrence (f : TaskForm) (fr : RecurrenceFrequency) (ds : list Z)
  (e : string) (dm : JsNum) : TaskForm :=
  {| editingTaskId := editingTaskId f; newTask := newTask f;
     recurrenceFreq := fr; recurrenceDays := ds;
     recurrenceEndDate := e; recurrenceDayOfMonth := dm;
     triedToSave := triedToSave f; isAddingTask := isAddingTask f |}.

Definition formEvent (f : TaskForm) (e : FormEvent) : TaskForm :=
  let t := newTask f in
  match e with
  | EditTitle v =>
      with_newTask f (task_with_form t v (task_description t) (task_reward t)
                        (task_time t) (task_duration t)) false
  | EditDescription v =>
      with_newTask f (task_with_form t (task_title t) v (task_reward t)
                        (task_time t) (task_duration t)) (triedToSave f)
  | EditTime v =>
      with_newTask f (task_with_form t (task_title t) (task_description t)
                        (task_reward t) v (task_duration t)) false
  | EditDuration v =>
      with_newTask f (task_with_form t (task_title t) (task_description t)
                        (task_reward t) (task_time t) (Some v)) false
  | EditReward v =>
      with_newTask f (task_with_form t (task_title t) (task_description t) v
                        (task_time t) (task_duration t)) (triedToSave f)
  | PickFrequency freq =>
      with_recurrence f freq (recurrenceDays f) (recurrenceEndDate f)
        (recurrenceDayOfMonth f)
  | ToggleDay day =>
      with_recurrence f (recurrenceFreq f) (toggleRecurrenceDay day (recurrenceDays f))
        (recurrenceEndDate f) (recurrenceDayOfMonth f)
  | EditDayOfMonth v =>
      with_recurrence f (recurrenceFreq f) (recurrenceDays f) (recurrenceEndDate f)
        (parseInt v)
  | EditEndDate v =>
      with_recurrence f (recurrenceFreq f) (recurrenceDays f) v
        (recurrenceDayOfMonth f)
  end.

(** The call [handleSaveTask] makes on the props of the dashboard. *)
Inductive TaskCall : Set :=
| OnUpdateTask (childId : string) (task : Task)
| OnAddTask (childId : string) (task : Task).

(** [handleSaveTask]: the new form state and the call made, if any.
    [now] is the reading of [Date.now()]. *)
Definition handleSaveTask (now : Z) (selectedChild : option Child) (f : TaskForm)
  : TaskForm * option TaskCall :=
  match selectedChild with
  | None => (f, None)
  | Some child =>
      let f1 := with_newTask f (newTask f) true in
      let t := newTask f in
      if is_empty (trim (task_title t)) then (f1, None)
      else if negb (isValidTime (task_time t)) then (f1, None)
      else if negb (isValidDuration (or_str (task_duration t) "0")) then (f1, None)
      else
        let recurrence :=
          match recurrenceFreq f with
          | NoRecurrence => None
          | freq =>
              Some {| frequency := freq;
                      days := match freq with Weekly => recurrenceDays f | _ => [] end;
                      dayOfMonth := match freq with
                                    | Monthly => Some (recurrenceDayOfMonth f)
                                    | _ => None
                                    end;
                      endDate := match recurrenceEndDate f with
                                 | EmptyString => None
                                 | e => Some e
                                 end |}
          end in
        let call :=
          match editingTaskId f with
          | None | Some EmptyString =>
              OnAddTask (child_id child)
                (task_with_id_recurrence t (String.append "task_" (dec now)) recurrence)
          | Some i =>
              OnUpdateTask (child_id child) (task_with_id_recurrence t i recurrence)
          end in
        let f2 :=
          {| editingTaskId := None; newTask := defaultTask;
             recurrenceFreq := NoRecurrence; recurrenceDays := [];
             recurrenceEndDate := ""; recurrenceDayOfMonth := Int 1;
             triedToSave := false; isAddingTask := false |} in
        (f2, Some call)
  end.

(** ** Titles of imported tasks *)

Definition MAX_TITLE_LENGTH : nat := 35.

(** [formatTitleAndDescription]: the pair of [displayTitle] and
    [displayDescription], on strings by code unit; [substring(0, n)] is
    the first [n] units and 10 is the line feed. *)
Definition formatTitleAndDescription (title description : Utf16.t)
  : Utf16.t * Utf16.t :=
  if (MAX_TITLE_LENGTH <? length title)%nat then
    (Utf16.trim (firstn MAX_TITLE_LENGTH title) ++ Utf16.ofAscii "...",
     title ++ match description with
              | [] => []
              | _ :: _ => 10 :: description
              end)%list
  else (title, description).

(** ** The table import *)

Record TableRow : Set := {
  tr_time : string;
  tr_title : string;
  tr_description : string;
  tr_duration : string
}.

Record ValidationError : Set := {
  err_index : Z;
  err_field : string;
  err_message : string
}.

(** The state of the import dialog. *)
Record TableImport : Set := {
  tableRows : list TableRow;
  isTableImporting : bool;
  validationErrors : list ValidationError
}.

Definition blankRow (time : string) : TableRow :=
  {| tr_time := time; tr_title := ""; tr_description := ""; tr_duration := "30" |}.

(** The rows the dialog starts with, and is reset to. *)
Definition initialRows : list TableRow :=
  map blankRow ["08:00 AM"; "09:00 AM"; "10:00 AM"; "11:00 AM"; "12:00 PM"].

(** The [emoji] literal of an imported task, in the bytes the source file
    has between the quotes. *)
Definition calendarEmoji : string :=
  string_of_list_ascii
    (map ascii_of_nat [239; 163; 191; 195; 188; 195; 172; 195; 150]%nat).

(** The rows the import keeps: [r.title.trim() || r.time.trim()]. *)
Definition keptRow (r : TableRow) : bool :=
  negb (is_empty (trim (tr_title r))) || negb (is_empty (trim (tr_time r))).

(** The body of [validRows.forEach]: what one row adds to [errors]. *)
Definition rowErrors (idx : nat) (row : TableRow) : list ValidationError :=
  let index := Z.of_nat idx + 1 in
  ((if is_empty (trim (tr_title row))
    then [{| err_index := index; err_field := "Activity";
             err_message := "Title is required" |}]
    else [])
   ++ (if negb (isValidTime (tr_time row))
       then [{| err_index := index; err_field := "Time";
                err_message := "Invalid format (Use 08:00 AM or 14:00)" |}]
       else [])
   ++ (if negb (isValidDuration (tr_duration row))
       then [{| err_index := index; err_field := "Duration";
                err_message := "Must be a positive number" |}]
       else []))%list.

(** [xs.map((x, index) => f index x)], counting from [from]. *)
Fixpoint mapi_from {A B : Type} (from : nat) (f : nat -> A -> B) (xs : list A)
  : list B :=
  match xs with
  | [] => []
  | x :: rest => f from x :: mapi_from (S from) f rest
  end.

Section TableImport.

(** The cells of a row and the texts of a task are 8-bit strings, which do
    not show the code units of a text outside the ASCII range; the import
    therefore takes [formatTitleAndDescription], as it acts on them, as
    given. *)
Variable formatTitleAndDescription : string -> string -> string * string.

(** The task made of one row; [now] and [random] are the readings of
    [Date.now()] and [Math.random()] taken for it. *)
Definition rowTask (now : Z) (random : JsNum) (index : nat) (row : TableRow) : Task :=
  let (displayTitle, displayDescription) :=
    formatTitleAndDescription (tr_title row) (tr_description row) in
  {| task_id :=
       String.append "table_"
         (String.append (dec now)
            (String "_" (String.append (dec (Z.of_nat index))
                           (String "_" (toString random)))));
     task_title := displayTitle; task_description := displayDescription;
     task_reward := 5; task_time := tr_time row;
     task_duration := Some (or_str (Some (tr_duration row)) "30");
     task_startTime := None; task_type := Routine; task_status := Pending;
     task_emoji := calendarEmoji; task_recurrence := None;
     audio_pending_es := None; audio_pending_en := None;
     audio_active_es := None; audio_active_en := None;
     audio_done_es := None; audio_done_en := None |}.

(** [handleSaveTableImport]: the new state of the dialog and the call
    [onAddTasks(childId, tasks)], if it is made.  [now i] and [random i]
    are the readings taken for the row of index [i]. *)
Definition handleSaveTableImport (now : nat -> Z) (random : nat -> JsNum)
  (selectedChild : option Child) (st : TableImport)
  : TableImport * option (string * list Task) :=
  match selectedChild with
  | None => (st, None)
  | Some child =>
      let validRows := List.filter keptRow (tableRows st) in
      match validRows with
      | [] => (st, None)
      | _ =>
          let errors := concat (mapi_from 0 rowErrors validRows) in
          match errors with
          | _ :: _ =>
              ({| tableRows := tableRows st;
                  isTableImporting := isTableImporting st;
                  validationErrors := errors |}, None)
          | [] =>
              let tasksToAdd :=
                mapi_from 0 (fun index row => rowTask (now index) (random index)
                                                index row) validRows in
              ({| tableRows := initialRows; isTableImporting := false;
                  validationErrors := validationErrors st |},
               Some (child_id child, tasksToAdd))
          end
      end
  end.

End TableImport.

(** [addTableRow]. *)
Definition addTableRow (timeFormat : TimeFormat) (rows : list TableRow)
  : list TableRow :=
  let lastRowTime :=
    match rows with
    | [] => "08:00 AM"
    | _ => tr_time (List.last rows (blankRow ""))
    end in
  let lastMins := parseTimeToMinutes (Some lastRowTime) in
  let nextTime := minutesToInternalString (add lastMins (Int 60)) timeFormat in
  (rows ++ [blankRow nextTime])%list.

(** [removeTableRow]: [tableRows.filter((_, i) => i !== index)]. *)
Fixpoint removeTableRow (index : nat) (rows : list TableRow) : list TableRow :=
  match rows, index with
  | [], _ => []
  | _ :: rest, O => rest
  | r :: rest, S i => r :: removeTableRow i rest
  end.

(** ** Pasting from a spreadsheet *)

(** [s.split(/\r?\n/)]: the pieces between line ends, a line end being LF
    or CR LF; never empty. *)
Fixpoint split_lines (s : string) : list string :=
  match s with
  | EmptyString => [EmptyString]
  | String c s' =>
      if Ascii.eqb c "010" then EmptyString :: split_lines s'
      else
        let carried :=
          match split_lines s' with
          | t :: ts => String c t :: ts
          | [] => [String c EmptyString]
          end in
        match s' with
        | String c' s'' =>
            if Ascii.eqb c "013" && Ascii.eqb c' "010"
            then EmptyString :: split_lines s''
            else carried
        | EmptyString => carried
        end
  end.

(** The [switch (targetColIndex)] of the paste: columns 0 to 3 are the
    time, the title, the description and the duration; any other index
    writes nothing. *)
Definition setCell (row : TableRow) (targetColIndex : nat) (cleanValue : string)
  : TableRow :=
  match targetColIndex with
  | 0%nat => {| tr_time := cleanValue; tr_title := tr_title row;
                tr_description := tr_description row;
                tr_duration := tr_duration row |}
  | 1%nat => {| tr_time := tr_time row; tr_title := cleanValue;
                tr_description := tr_description row;
                tr_duration := tr_duration row |}
  | 2%nat => {| tr_time := tr_time row; tr_title := tr_title row;
                tr_description := cleanValue;
                tr_duration := tr_duration row |}
  | 3%nat => {| tr_time := tr_time row; tr_title := tr_title row;
                tr_description := tr_description row;
                tr_duration := cleanValue |}
  | _ => row
  end.

(** [cols.forEach((value, cOffset) => ...)] on [currentRow], the first
    value going to column [colIndex]. *)
Fixpoint pasteCols (colIndex : nat) (cols : list string) (currentRow : TableRow)
  : TableRow :=
  match cols with
  | [] => currentRow
  | value :: rest =>
      pasteCols (S colIndex) rest (setCell currentRow colIndex (trim value))
  end.

(** [rows.forEach((rowStr, rOffset) => ...)] on [newTableRows], the first
    line going to row [rowIndex].  One row is pushed when the target index
    is not below the length; when the target is still missing then,
    [currentRow] is [undefined] and the first write to one of its cells
    throws a [TypeError]: the result is [None]. *)
Fixpoint pasteRows (rowIndex colIndex : nat) (rows : list string)
  (newTableRows : list TableRow) : option (list TableRow) :=
  match rows with
  | [] => Some newTableRows
  | rowStr :: rest =>
      let cols := split_char "009" rowStr in
      let extended :=
        if (length newTableRows <=? rowIndex)%nat
        then (newTableRows ++ [blankRow ""])%list else newTableRows in
      match extended !! rowIndex with
      | Some currentRow =>
          pasteRows (S rowIndex) colIndex rest
            (<[rowIndex := pasteCols colIndex cols currentRow]> extended)
      | None =>
          if existsb (fun targetColIndex => (targetColIndex <=? 3)%nat)
               (seq colIndex (length cols))
          then None
          else pasteRows (S rowIndex) colIndex rest extended
      end
  end.

(** [handleSpreadsheetPaste]: the rows of the table afterwards; with an
    empty clipboard text the handler returns at once. *)
Definition handleSpreadsheetPaste (pasteData : string) (rowIndex colIndex : nat)
  (tableRows : list TableRow) : option (list TableRow) :=
  if is_empty pasteData then Some tableRows
  else
    let rows :=
      List.filter (fun r => negb (is_empty (trim r))) (split_lines pasteData) in
    pasteRows rowIndex colIndex rows tableRows.

(** ** Moving a task by drag and drop *)

Record DragState : Set := {
  draggedTaskId : option string;
  confirmMove : option (Task * string)
}.

Definition onDragStart (taskId : string) (st : DragState) : DragState :=
  {| draggedTaskId := Some taskId; confirmMove := confirmMove st |}.

Definition onDropOnTask (selectedChild : option Child) (targetTask : Task)
  (st : DragState) : DragState :=
  match draggedTaskId st, selectedChild with
  | Some (String _ _ as dragged), Some child =>
      if String.eqb dragged (task_id targetTask) then st
      else
        let taskToMove :=
          find (fun t => String.eqb (task_id t) dragged) (child_tasks child) in
        {| draggedTaskId := None;
           confirmMove := match taskToMove with
                          | Some t => Some (t, task_time targetTask)
                          | None => confirmMove st
                          end |}
  | _, _ => st
  end.

(** [confirmTimeMove]: the new state and the call [onUpdateTask], if made. *)
Definition confirmTimeMove (selectedChild : option Child) (st : DragState)
  : DragState * option TaskCall :=
  match confirmMove st, selectedChild with
  | Some (task, newTime), Some child =>
      ({| draggedTaskId := draggedTaskId st; confirmMove := None |},
       Some (OnUpdateTask (child_id child)
               (task_with_form task (task_title task) (task_description task)
                  (task_reward task) newTime (task_duration task))))
  | _, _ => (st, None)
  end.

(** ** The reward form *)

Record RewardForm : Set := {
  rf_title : string;
  rf_category : string;
  rf_cost : Z;
  rf_image : string;
  rf_type : RewardType
}.

Record RewardModal : Set := {
  isRewardModalOpen : bool;
  editingReward : option Reward;
  rewardForm : RewardForm
}.

Inductive RewardCall : Set :=
| OnUpdateReward (childId : string) (reward : Reward)
| OnAddReward (childId : string) (reward : Reward).

Definition openAddReward (now : Z) (selectedChild : option Child) (m : RewardModal)
  : RewardModal :=
  match selectedChild with
  | None => m
  | Some _ =>
      {| isRewardModalOpen := true; editingReward := None;
         rewardForm :=
           {| rf_title := ""; rf_category := "Toys"; rf_cost := 10;
              rf_image := String.append "https://picsum.photos/seed/"
                            (String.append (dec now) "/300/300");
              rf_type := Toy |} |}
  end.

Definition openEditReward (reward : Reward) (selectedChild : option Child)
  (m : RewardModal) : RewardModal :=
  match selectedChild with
  | None => m
  | Some _ =>
      {| isRewardModalOpen := true; editingReward := Some reward;
         rewardForm :=
           {| rf_title := reward_title reward; rf_category := reward_category reward;
              rf_cost := reward_cost reward; rf_image := reward_image reward;
              rf_type := reward_type reward |} |}
  end.

(** [{ ...rewardForm, id }]. *)
Definition rewardOfForm (f : RewardForm) (id : string) : Reward :=
  {| reward_id := id; reward_title := rf_title f; reward_category := rf_category f;
     reward_cost := rf_cost f; reward_image := rf_image f; reward_type := rf_type f |}.

(** [saveReward]: the new state of the dialog and the call made, if any. *)
Definition saveReward (now : Z) (selectedChild : option Child) (m : RewardModal)
  : RewardModal * option RewardCall :=
  match selectedChild with
  | None => (m, None)
  | Some child =>
      if is_empty (trim (rf_title (rewardForm m))) then (m, None)
      else
        ({| isRewardModalOpen := false; editingReward := editingReward m;
            rewardForm := rewardForm m |},
         Some match editingReward m with
              | Some r =>
                  OnUpdateReward (child_id child)
                    (rewardOfForm (rewardForm m) (reward_id r))
              | None =>
                  OnAddReward (child_id child)
                    (rewardOfForm (rewardForm m) (String.append "r_" (dec now)))
              end)
  end.

(** The child whose schedule the dashboard shows:
    [children.find(c => c.id === dashboardChildId) || children[0]]. *)
Definition selectedChild (children : list Child) (dashboardChildId : string)
  : option Child :=
  match find (fun c => String.eqb (child_id c) dashboardChildId) children with
  | Some c => Some c
  | None => head children
  end.

End ParentDashboard.

(* ===================================================================== *)
(** * views/ChildPortal.tsx *)
(* ===================================================================== *)

Module ChildPortal.
Import Js Types.

Definition number_or0 := ParentDashboard.number_or0.

(** As in the dashboard, but [period] is [parts[1]] without a default. *)
Definition parseClean (clean : string) : JsNum :=
  let is12h := includes clean "AM" || includes clean "PM" in
  if is12h then
    let parts := split_spaces clean in
    let timeParts := split_char ":" (nth 0 parts "") in
    let hours := Number (nth 0 timeParts "") in
    let minutes := number_or0 (nth_error timeParts 1) in
    let period := nth_error parts 1 in
    let is_period p :=
      match period with Some q => String.eqb q p | None => false end in
    let hours :=
      if is_period "PM" && lt hours (Int 12) then add hours (Int 12) else hours in
    let hours :=
      if is_period "AM" && eqn hours (Int 12) then Int 0 else hours in
    add (mul hours (Int 60)) (or_num minutes (Int 0))
  else
    let parts := split_char ":" clean in
    let hours := Number (nth 0 parts "") in
    let minutes := number_or0 (nth_error parts 1) in
    add (mul (or_num hours (Int 0)) (Int 60)) (or_num minutes (Int 0)).

Definition parseTimeToMinutes (timeStr : option string) : JsNum :=
  match timeStr with
  | None | Some EmptyString => Int 0
  | Some s =>
      let clean := toUpperCase (trim s) in
      parseClean clean
  end.

Definition pad (n : JsNum) : string := padStart0 2 (toString n).

(** [displayTime] after its first line, as a function of [mins]. *)
Definition displayMinutes (mins : JsNum) (format : TimeFormat) : string :=
  let h := floor (div mins (Int 60)) in
  let m := rem mins (Int 60) in
  match format with
  | H24 => String.append (pad h) (String ":" (pad m))
  | H12 =>
      let period := if ge h (Int 12) then "PM" else "AM" in
      let h12 := or_num (rem h (Int 12)) (Int 12) in
      String.append (pad h12)
        (String ":" (String.append (pad m) (String " " period)))
  end.

Definition displayTime (timeStr : option string) (format : TimeFormat) : string :=
  let mins := parseTimeToMinutes timeStr in
  displayMinutes mins format.

(** The callback of [tasks.find]. *)
Definition dueAt (nowMinutes : JsNum) (task : Task) : bool :=
  let startMins := parseTimeToMinutes (Some (task_time task)) in
  let durMins := parseInt (or_str (task_duration task) "0") in
  let endMins := add startMins durMins in
  ge nowMinutes startMins && lt nowMinutes endMins.

Definition getCurrentActiveTaskFromSchedule (tasks : list Task) (currentTime : Date)
  : option Task :=
  let nowMinutes :=
    add (mul (Int (getHours currentTime)) (Int 60)) (Int (getMinutes currentTime)) in
  find (dueAt nowMinutes) tasks.

(** [handleStart] and [handleComplete] call the [onUpdateTask] prop; the
    rest of [handleComplete] (celebration overlay, speech) is local to the
    view. *)
Definition handleStart {S : Type} (onUpdateTask : string -> TaskStatus -> S)
  (id : string) : S :=
  onUpdateTask id Active.

Definition handleComplete {S : Type} (onUpdateTask : string -> TaskStatus -> S)
  (task : Task) : S :=
  onUpdateTask (task_id task) Done.

(** [remainingCount]: [sortedTasks.filter(t => t.status !== 'done').length]. *)
Definition remainingCount (sortedTasks : list Task) : nat :=
  length (List.filter (fun t => match task_status t with Done => false | _ => true end)
            sortedTasks).

(** ** Reading a task aloud *)

(** [task[`audio_${status}_${lang}`]]. *)
Definition task_audio (t : Task) (status : TaskStatus) (lang : Language)
  : option string :=
  match status, lang with
  | Pending, Es => audio_pending_es t
  | Pending, En => audio_pending_en t
  | Active, Es => audio_active_es t
  | Active, En => audio_active_en t
  | Done, Es => audio_done_es t
  | Done, En => audio_done_en t
  end.

(** What [handleSpeak] says: a stored recording played while its text is
    shown, or a text sent to the translation and speech services. *)
Inductive Utterance : Set :=
| PlayStored (shown : string) (audio : string)
| TranslateAndSpeak (text : string) (lang : Language).

Section Speak.

Variable getTaskSpeechText : Task -> string -> Language -> string.
Variable cleanForSpeech : string -> string.

(** One of the three [if (audio) ... else ...] blocks of [handleSpeak]. *)
Definition speakIn (task : Task) (name : string) (nativeLang lang : Language)
  : Utterance :=
  match task_audio task (task_status task) lang with
  | Some (String _ _ as audio) =>
      PlayStored (getTaskSpeechText task name lang) audio
  | _ =>
      TranslateAndSpeak (cleanForSpeech (getTaskSpeechText task name nativeLang)) lang
  end.

(** [handleSpeak]: the utterances in order.  [activeChild] is
    [children.find(c => c.active) || children[0]]. *)
Definition handleSpeak (isSpeaking learningMode : bool) (language : Language)
  (activeChild : option Child) (task : Task) : list Utterance :=
  if isSpeaking then []
  else
    let nativeLang := language in
    let targetLang := match nativeLang with En => Es | Es => En end in
    let name := or_str (option_map child_name activeChild) "Amigo" in
    if learningMode
    then [speakIn task name nativeLang targetLang;
          speakIn task name nativeLang nativeLang]
    else [speakIn task name nativeLang nativeLang].

End Speak.

(** ** The countdown of the active task *)

(** What [TaskTimer] shows after a tick. *)
Record TimerView : Set := {
  timeLeft : string;
  progress : JsNum
}.

(** One tick of the interval at the clock reading [now], for the
    [endTime] and [durationMs] of the effect. *)
Definition tick (endTime durationMs : JsNum) (now : Z) : TimerView :=
  let diff := sub endTime (Int now) in
  if le diff (Int 0) then {| timeLeft := "00:00"; progress := Int 0 |}
  else
    let mins := floor (div diff (Int 60000)) in
    let secs := floor (div (rem diff (Int 60000)) (Int 1000)) in
    {| timeLeft :=
         String.append (padStart0 2 (toString mins))
           (String ":" (padStart0 2 (toString secs)));
       progress := mul (div diff durationMs) (Int 100) |}.

(** The effect of [TaskTimer]: the view after a tick at [now], or [None]
    when no interval is set: the task is not active, or has no start time
    (or 0) or no duration (or an empty one). *)
Definition timerTick (task : Task) (now : Z) : option TimerView :=
  match task_status task, task_startTime task, task_duration task with
  | Active, Some startTime, Some (String _ _ as duration) =>
      if startTime =? 0 then None
      else
        let durationMs := mul (mul (parseInt duration) (Int 60)) (Int 1000) in
        let endTime := add (Int startTime) durationMs in
        Some (tick endTime durationMs now)
  | _, _, _ => None
  end.

End ChildPortal.

(* ===================================================================== *)
(** * App.tsx *)
(* ===================================================================== *)

Module App.
Import Js Types.

Record UserAccount : Set := {
  user_id : option string;
  user_email : string;
  user_name : string;
  user_familyId : option string;
  user_avatar : option string
}.

(** [currentUser?.familyId] as a condition. *)
Definition hasFamily (currentUser : option UserAccount) : bool :=
  match currentUser ≫= user_familyId with
  | None | Some EmptyString => false
  | Some _ => true
  end.

(** The fire-and-forget requests the handlers send to the remote store. *)
Inductive Request : Set :=
| TasksUpdateStatus (taskId : string) (status : TaskStatus) (start_time : option Z)
| ChildrenUpdateStars (childId : string) (stars : Z).

Inductive Sound : Set := PlayError | PlayLevelUp.

Definition switchActiveChild (children : list Child) (id : string) : list Child :=
  map (fun c => child_with_active c (String.eqb (child_id c) id)) children.

(** ** updateTaskStatus

    [now] is the reading of [Date.now()].  The result is the argument of
    [setChildren]. *)

Definition updatedTask (now : Z) (task : Task) (status : TaskStatus) : Task :=
  task_with_status task status
    (match status with Active => Some now | _ => task_startTime task end).

Definition updateTaskStatus (now : Z) (children : list Child)
  (childId taskId : string) (status : TaskStatus) : list Child :=
  map (fun child =>
         if String.eqb (child_id child) childId then
           let updatedTasks :=
             map (fun task =>
                    if String.eqb (task_id task) taskId
                    then updatedTask now task status
                    else task)
                 (child_tasks child) in
           child_with_tasks child updatedTasks
         else child)
      children.

(** The requests sent while [updateTaskStatus] maps over the tasks. *)
Definition updateTaskStatus_requests (now : Z) (currentUser : option UserAccount)
  (children : list Child) (childId taskId : string) (status : TaskStatus)
  : list Request :=
  flat_map (fun child =>
    if String.eqb (child_id child) childId then
      flat_map (fun task =>
        if String.eqb (task_id task) taskId && hasFamily currentUser then
          let u := updatedTask now task status in
          [TasksUpdateStatus taskId (task_status u) (task_startTime u)]
        else [])
        (child_tasks child)
    else [])
    children.

(** ** redeemReward

    The handler returns a boolean and may replace the children.  Both
    readings of [Date.now()] happen in one synchronous step and are taken
    equal. *)

Definition redemptionRecord (now : Z) (reward : Reward) (note : option string)
  : RedemptionRecord :=
  {| rr_id := String.append "redemption_" (dec now);
     rr_rewardId := reward_id reward;
     rr_rewardTitle := reward_title reward;
     rr_cost := reward_cost reward;
     rr_timestamp := now;
     rr_note := note |}.

Definition redeemedChild (now : Z) (child : Child) (reward : Reward)
  (note : option string) : Child :=
  let newHistory :=
    redemptionRecord now reward note :: default [] (child_redemptionHistory child) in
  child_with_stars_history child (child_stars child - reward_cost reward) newHistory.

Definition redeemReward (now : Z) (children : list Child) (childId : string)
  (reward : Reward) (note : option string) : bool * list Child :=
  let activeChild := find (fun c => String.eqb (child_id c) childId) children in
  match activeChild with
  | None => (false, children)
  | Some ac =>
      if child_stars ac <? reward_cost reward then (false, children)
      else
        let updatedChildren :=
          map (fun child =>
                 if String.eqb (child_id child) childId
                 then redeemedChild now child reward note
                 else child)
              children in
        (true, updatedChildren)
  end.

(** The sound played and the requests sent by [redeemReward]. *)
Definition redeemReward_effects (now : Z) (currentUser : option UserAccount)
  (children : list Child) (childId : string) (reward : Reward)
  (note : option string) : Sound * list Request :=
  if fst (redeemReward now children childId reward note) then
    (PlayLevelUp,
     flat_map (fun child =>
       if String.eqb (child_id child) childId && hasFamily currentUser
       then [ChildrenUpdateStars childId
               (child_stars (redeemedChild now child reward note))]
       else [])
       children)
  else (PlayError, []).

(** The child shown in the portal:
    [children.find(c => c.active) || children[0]], [null] without children. *)
Definition activeChild (children : list Child) : option Child :=
  match find child_active children with
  | Some c => Some c
  | None => head children
  end.

(** The [onUpdateTask] prop handed to the child portal. *)
Definition portal_onUpdateTask (now : Z) (children : list Child) (taskId : string)
  (status : TaskStatus) : list Child :=
  match activeChild children with
  | Some ac => updateTaskStatus now children (child_id ac) taskId status
  | None => children
  end.

(** ** Task and reward handlers of the dashboard route *)

Section Speech.

(** The text-to-speech collaborators ([services/speechUtils.ts] and the
    remote speech service), which only fill the audio fields. *)
Variable getTaskSpeechText : Task -> string -> Language -> string.
Variable cleanForSpeech : string -> string.
Variable getSpeechBase64 : string -> Language -> option string.

Definition statuses : list TaskStatus := [Pending; Active; Done].
Definition languages : list Language := [Es; En].

(** One of the six promises of [preGenerateTaskAudio]. *)
Definition generateOne (task : Task) (childName : string) (updated : Task)
  (sl : TaskStatus * Language) : Task :=
  let '(status, lang) := sl in
  let text :=
    getTaskSpeechText (task_with_status task status (task_startTime task))
      childName lang in
  let cleanText := cleanForSpeech text in
  match getSpeechBase64 cleanText lang with
  | None | Some EmptyString => updated
  | Some base64 => task_with_audio updated status lang base64
  end.

Definition preGenerateTaskAudio (task : Task) (childName : string) : Task :=
  fold_left (generateOne task childName)
    (flat_map (fun st => map (fun l => (st, l)) languages) statuses) task.

Definition findChild (children : list Child) (childId : string) : option Child :=
  find (fun c => String.eqb (child_id c) childId) children.

(** [onAddTask]: [children] is the state the handler closed over, [prev]
    the state at the time of the functional [setChildren]. *)
Definition onAddTask (children prev : list Child) (childId : string) (task : Task)
  : list Child :=
  let taskWithAudio :=
    match findChild children childId with
    | Some targetChild => preGenerateTaskAudio task (child_name targetChild)
    | None => task
    end in
  map (fun c =>
         if String.eqb (child_id c) childId
         then child_with_tasks c (child_tasks c ++ [taskWithAudio])%list
         else c) prev.

Definition onAddTasks (children prev : list Child) (childId : string)
  (tasks : list Task) : list Child :=
  let tasksWithAudio :=
    match findChild children childId with
    | Some targetChild =>
        map (fun t => preGenerateTaskAudio t (child_name targetChild)) tasks
    | None => tasks
    end in
  map (fun c =>
         if String.eqb (child_id c) childId
         then child_with_tasks c (child_tasks c ++ tasksWithAudio)%list
         else c) prev.

Definition taskToSave (children : list Child) (childId : string) (task : Task) : Task :=
  let targetChild := findChild children childId in
  let oldTask :=
    targetChild ≫= fun c =>
      find (fun t => String.eqb (task_id t) (task_id task)) (child_tasks c) in
  let needsNewAudio :=
    match oldTask with
    | None => true
    | Some o =>
        negb (String.eqb (task_title o) (task_title task))
        || negb (String.eqb (task_description o) (task_description task))
    end in
  match needsNewAudio, targetChild with
  | true, Some c => preGenerateTaskAudio task (child_name c)
  | _, _ => task
  end.

Definition onUpdateTask (children prev : list Child) (childId : string) (task : Task)
  : list Child :=
  let saved := taskToSave children childId task in
  map (fun c =>
         if String.eqb (child_id c) childId
         then child_with_tasks c
                (map (fun t => if String.eqb (task_id t) (task_id task)
                               then saved else t)
                     (child_tasks c))
         else c) prev.

End Speech.

Definition onDeleteTask (children : list Child) (childId taskId : string)
  : list Child :=
  map (fun c =>
         if String.eqb (child_id c) childId
         then child_with_tasks c
                (List.filter (fun t => negb (String.eqb (task_id t) taskId))
                   (child_tasks c))
         else c) children.

Definition onAddReward (prev : list Child) (childId : string) (reward : Reward)
  : list Child :=
  map (fun c =>
         if String.eqb (child_id c) childId
         then child_with_rewards c (child_rewards c ++ [reward])%list
         else c) prev.

Definition onUpdateReward (children : list Child) (childId : string) (reward : Reward)
  : list Child :=
  map (fun c =>
         if String.eqb (child_id c) childId
         then child_with_rewards c
                (map (fun r => if String.eqb (reward_id r) (reward_id reward)
                               then reward else r)
                     (child_rewards c))
         else c) children.

Definition onDeleteReward (children : list Child) (childId rewardId : string)
  : list Child :=
  map (fun c =>
         if String.eqb (child_id c) childId
         then child_with_rewards c
                (List.filter (fun r => negb (String.eqb (reward_id r) rewardId))
                   (child_rewards c))
         else c) children.

(** ** The handlers of the child editor *)

Definition addChild (children : list Child) (child : Child) : list Child :=
  (children ++ [child])%list.

Definition updateChild (children : list Child) (updatedChild : Child) : list Child :=
  map (fun c => if String.eqb (child_id c) (child_id updatedChild)
                then updatedChild else c) children.

Definition deleteChild (children : list Child) (id : string) : list Child :=
  List.filter (fun c => negb (String.eqb (child_id c) id)) children.

End App.

(* ===================================================================== *)
(** * views/ParentSettings.tsx *)
(* ===================================================================== *)

Module ParentSettings.
Import Js Types.

Record ChildForm : Set := {
  form_name : string;
  form_age : string;
  form_avatar : string;
  form_loveLanguages : list LoveLanguage
}.

Inductive ChildCall : Set :=
| OnUpdateChild (child : Child)
| OnAddChild (child : Child).

Definition formAge (childForm : ChildForm) : option JsNum :=
  match form_age childForm with
  | EmptyString => None
  | a => Some (parseInt a)
  end.

(** [openEditChild]: the form the editor opens with; [editingChild] becomes
    the child. *)
Definition openEditChild (child : Child) : ChildForm :=
  {| form_name := child_name child;
     form_age := or_str (option_map toString (child_age child)) "";
     form_avatar := child_avatar child;
     form_loveLanguages := default [] (child_loveLanguages child) |}.

(** [saveChild]: the call made on the props, if any.  [editingChild] is the
    child the editor was opened on, [now] the reading of [Date.now()]. *)
Definition saveChild (now : Z) (editingChild : option Child) (childForm : ChildForm)
  : option ChildCall :=
  if is_empty (trim (form_name childForm)) then None
  else
    match editingChild with
    | Some c =>
        Some (OnUpdateChild
                {| child_id := child_id c; child_name := form_name childForm;
                   child_age := formAge childForm;
                   child_level := child_level c; child_stars := child_stars c;
                   child_avatar := form_avatar childForm;
                   child_active := child_active c;
                   child_rewards := child_rewards c; child_tasks := child_tasks c;
                   child_loveLanguages := Some (form_loveLanguages childForm);
                   child_redemptionHistory := child_redemptionHistory c |})
    | None =>
        Some (OnAddChild
                {| child_id := String.append "c_" (dec now);
                   child_name := form_name childForm;
                   child_age := formAge childForm;
                   child_level := 1; child_stars := 0;
                   child_avatar := form_avatar childForm;
                   child_active := false;
                   child_rewards := []; child_tasks := [];
                   child_loveLanguages := Some (form_loveLanguages childForm);
                   child_redemptionHistory := None |})
    end.

End ParentSettings.

(* ===================================================================== *)
(** * services/migrationService.ts *)
(* ===================================================================== *)

Module Migration.
Import Js Types.

Definition STORAGE_KEY : string := "kidscalendar_db_v1".
Definition MIGRATION_FLAG : string := "kidscalendar_migrated_v2".

(** What [JSON.parse] makes of a stored snapshot: only [children] is read
    ([guardians] is counted for a log line). *)
Record LocalStorageData : Set := {
  ls_children : option (list Child);
  ls_guardians : option (list string);
  ls_lastUpdated : string
}.

(** An item of [localStorage]: the JSON text of a snapshot, or other text,
    on which [JSON.parse] throws when it is read as a snapshot. *)
Inductive Item : Set :=
| Snapshot (data : LocalStorageData)
| Raw (text : string).

(** ** The remote tables

    [children], [tasks] and [rewards] have [id TEXT PRIMARY KEY]: a table
    is a finite map from the key to the row. *)

Record ChildRow : Set := {
  row_id : string;
  row_family_id : string;
  row_name : string;
  row_avatar : string;
  row_level : Z;
  row_stars : Z;
  row_active : bool;
  row_age : option JsNum;
  row_love_languages : list LoveLanguage
}.

(** A task or reward row carries the columns of the record and the key of
    the owning child. *)
Record TaskRow : Set := { trow_child_id : string; trow_task : Task }.
Record RewardRow : Set := { rrow_child_id : string; rrow_reward : Reward }.

Record Remote : Type := {
  children_tbl : gmap string ChildRow;
  tasks_tbl : gmap string TaskRow;
  rewards_tbl : gmap string RewardRow
}.

(** The requests of one run, in order, with their outcome. *)
Inductive Event : Set :=
| SelectChild (id : string) (found : bool)
| InsertChild (id : string) (ok : bool)
| InsertTasks (child_id : string) (ids : list string) (ok : bool)
| InsertRewards (child_id : string) (ids : list string) (ok : bool).

(** The world a run acts on.  [net] says, request after request, whether
    the request reaches the store and is answered ([true]) or fails; once
    the list is used up every request goes through. *)
Record World : Type := {
  remote : Remote;
  storage : gmap string Item;
  net : list bool;
  journal : list Event
}.

(** ** State passing *)

Definition M (A : Type) : Type := World -> A * World.

Definition ret {A : Type} (a : A) : M A := fun w => (a, w).

Definition bind {A B : Type} (m : M A) (f : A -> M B) : M B :=
  fun w => let '(a, w') := m w in f a w'.

Notation "'let!' x ':=' m 'in' k" := (bind m (fun x => k))
  (at level 10, x name, m at level 100, k at level 200).

(** Take the outcome of the next request. *)
Definition reach : M bool :=
  fun w =>
    match net w with
    | [] => (true, w)
    | b :: rest =>
        (b, {| remote := remote w; storage := storage w; net := rest;
               journal := journal w |})
    end.

Definition log (e : Event) : M unit :=
  fun w => (tt, {| remote := remote w; storage := storage w; net := net w;
                   journal := (journal w ++ [e])%list |}).

Definition getRemote : M Remote := fun w => (remote w, w).

Definition setRemote (r : Remote) : M unit :=
  fun w => (tt, {| remote := r; storage := storage w; net := net w;
                   journal := journal w |}).

Definition getItem (key : string) : M (option Item) :=
  fun w => (storage w !! key, w).

Definition setItem (key : string) (v : Item) : M unit :=
  fun w => (tt, {| remote := remote w; storage := <[key := v]> (storage w);
                   net := net w; journal := journal w |}).

(** [for (const x of xs) { body }]. *)
Fixpoint forEach {A : Type} (xs : list A) (body : A -> M unit) : M unit :=
  match xs with
  | [] => ret tt
  | x :: rest => let! _ := body x in forEach rest body
  end.

(** ** Requests

    A request that does not reach the store changes nothing and reports
    an error.  An insert that reaches it is one statement: it fails, and
    inserts nothing, if a key of the batch is already in the table or
    occurs twice in the batch. *)

Fixpoint insert_rows {R : Type} (rows : list (string * R)) (tbl : gmap string R)
  : option (gmap string R) :=
  match rows with
  | [] => Some tbl
  | (k, r) :: rest =>
      match tbl !! k with
      | Some _ => None
      | None => insert_rows rest (<[k := r]> tbl)
      end
  end.

(** [from('children').select('id').eq('id', id).single()]: [data]. *)
Definition select_child (id : string) : M (option ChildRow) :=
  let! ok := reach in
  let! r := getRemote in
  let existing := if ok then children_tbl r !! id else None in
  let! _ := log (SelectChild id (bool_decide (is_Some existing))) in
  ret existing.

(** [from('children').insert([row])]: [true] when there is no [error]. *)
Definition insert_child (row : ChildRow) : M bool :=
  let! ok := reach in
  let! r := getRemote in
  match (if ok then insert_rows [(row_id row, row)] (children_tbl r) else None) with
  | Some tbl =>
      let! _ := setRemote {| children_tbl := tbl; tasks_tbl := tasks_tbl r;
                             rewards_tbl := rewards_tbl r |} in
      let! _ := log (InsertChild (row_id row) true) in
      ret true
  | None =>
      let! _ := log (InsertChild (row_id row) false) in
      ret false
  end.

Definition insert_tasks (child_id : string) (rows : list TaskRow) : M bool :=
  let! ok := reach in
  let! r := getRemote in
  let keyed := map (fun row => (task_id (trow_task row), row)) rows in
  match (if ok then insert_rows keyed (tasks_tbl r) else None) with
  | Some tbl =>
      let! _ := setRemote {| children_tbl := children_tbl r; tasks_tbl := tbl;
                             rewards_tbl := rewards_tbl r |} in
      let! _ := log (InsertTasks child_id (map fst keyed) true) in
      ret true
  | None =>
      let! _ := log (InsertTasks child_id (map fst keyed) false) in
      ret false
  end.

Definition insert_rewards (child_id : string) (rows : list RewardRow) : M bool :=
  let! ok := reach in
  let! r := getRemote in
  let keyed := map (fun row => (reward_id (rrow_reward row), row)) rows in
  match (if ok then insert_rows keyed (rewards_tbl r) else None) with
  | Some tbl =>
      let! _ := setRemote {| children_tbl := children_tbl r; tasks_tbl := tasks_tbl r;
                             rewards_tbl := tbl |} in
      let! _ := log (InsertRewards child_id (map fst keyed) true) in
      ret true
  | None =>
      let! _ := log (InsertRewards child_id (map fst keyed) false) in
      ret false
  end.

(** ** migrateLocalStorageToSupabase *)

Definition childRow (familyId : string) (child : Child) : ChildRow :=
  {| row_id := child_id child;
     row_family_id := familyId;
     row_name := child_name child;
     row_avatar := child_avatar child;
     row_level := child_level child;
     row_stars := child_stars child;
     row_active := child_active child;
     row_age := child_age child;
     row_love_languages := default [] (child_loveLanguages child) |}.

(** The body of the loop over [data.children]; [continue] ends it. *)
Definition migrateChild (familyId : string) (child : Child) : M unit :=
  let! existing := select_child (child_id child) in
  match existing with
  | Some _ => ret tt
  | None =>
      let! inserted := insert_child (childRow familyId child) in
      if negb inserted then ret tt
      else
        let! _ :=
          match child_tasks child with
          | [] => ret tt
          | tasks =>
              let tasksToInsert :=
                map (fun task => {| trow_child_id := child_id child;
                                    trow_task := task |}) tasks in
              let! _ := insert_tasks (child_id child) tasksToInsert in
              ret tt
          end in
        match child_rewards child with
        | [] => ret tt
        | rewards =>
            let rewardsToInsert :=
              map (fun reward => {| rrow_child_id := child_id child;
                                    rrow_reward := reward |}) rewards in
            let! _ := insert_rewards (child_id child) rewardsToInsert in
            ret tt
        end
  end.

(** The block "Migrate children". *)
Definition migrateChildren (familyId : string) (data : LocalStorageData) : M unit :=
  match ls_children data with
  | None | Some [] => ret tt
  | Some children => forEach children (migrateChild familyId)
  end.

(** The result is the boolean the promise resolves to; the [catch] branch
    is reached when [JSON.parse] throws. *)
Definition migrateLocalStorageToSupabase (userId familyId : string) : M bool :=
  let! stored := getItem STORAGE_KEY in
  match stored with
  | None | Some (Raw EmptyString) => ret true
  | Some (Raw _) => ret false
  | Some (Snapshot data) =>
      let! _ := migrateChildren familyId data in
      let! _ := setItem MIGRATION_FLAG (Raw "true") in
      ret true
  end.

(** [resetMigrationFlag]. *)
Definition resetMigrationFlag : M unit :=
  fun w => (tt, {| remote := remote w; storage := delete MIGRATION_FLAG (storage w);
                   net := net w; journal := journal w |}).

(** ** The caller in App.tsx

    [triggerMigration] runs in an effect that depends on
    [currentUser?.id] and [currentUser?.familyId], hence after every
    login.  [None]: the condition of its [if] is false. *)
Definition triggerMigration (currentUser : option App.UserAccount) (isSyncing : bool)
  : M (option bool) :=
  match currentUser ≫= App.user_id, currentUser ≫= App.user_familyId with
  | Some (String _ _ as uid), Some (String _ _ as fid) =>
      if isSyncing then ret None
      else
        let! success := migrateLocalStorageToSupabase uid fid in
        ret (Some success)
  | _, _ => ret None
  end.

(** ** Reading the journal *)

(** The keys of the rows a run has inserted, per table. *)
Definition inserted_children (j : list Event) : list string :=
  flat_map (fun e => match e with InsertChild id true => [id] | _ => [] end) j.

Definition inserted_tasks (j : list Event) : list string :=
  flat_map (fun e => match e with InsertTasks _ ids true => ids | _ => [] end) j.

Definition inserted_rewards (j : list Event) : list string :=
  flat_map (fun e => match e with InsertRewards _ ids true => ids | _ => [] end) j.

(** The children for whose tasks or rewards an insert was requested. *)
Definition batch_owners (j : list Event) : list string :=
  flat_map (fun e => match e with
                     | InsertTasks c _ _ | InsertRewards c _ _ => [c]
                     | _ => []
                     end) j.

Definition with_storage (s : gmap string Item) (w : World) : World :=
  {| remote := remote w; storage := s; net := net w; journal := journal w |}.

(** A user that is logged in and belongs to a family. *)
Definition loggedIn (uid fid : string) : option App.UserAccount :=
  Some {| App.user_id := Some uid; App.user_email := ""; App.user_name := "";
          App.user_familyId := Some fid; App.user_avatar := None |}.

End Migration.

(* ===================================================================== *)
(** * App.tsx: uploadFamilyData *)
(* ===================================================================== *)

Module Sync.
Import Js Types Migration.

(** The [age] column after an update with the body [{..., age: child.age}],
    which travels as JSON: an [undefined] age is left out of the body, so
    the column keeps its value; NaN and the infinities travel as [null];
    a finite number is written. *)
Definition patchedAge (age stored : option JsNum) : option JsNum :=
  match age with
  | None => stored
  | Some (Fin q) => Some (Fin q)
  | Some _ => None
  end.

(** [from('children').update({...}).eq('id', child.id)]: the profile
    columns of the row of that key, if there is one, are overwritten; [id]
    and [family_id] are not among them.  [true] when there is no [error].
    The journal of the migration has no entry for an update; the request
    takes its outcome from [net] like the others. *)
Definition update_child (child : Child) : M bool :=
  let! ok := reach in
  let! r := getRemote in
  if ok then
    let tbl :=
      match children_tbl r !! child_id child with
      | Some row =>
          <[child_id child :=
              {| row_id := row_id row; row_family_id := row_family_id row;
                 row_name := child_name child; row_avatar := child_avatar child;
                 row_level := child_level child; row_stars := child_stars child;
                 row_active := child_active child;
                 row_age := patchedAge (child_age child) (row_age row);
                 row_love_languages := default [] (child_loveLanguages child) |}]>
            (children_tbl r)
      | None => children_tbl r
      end in
    let! _ := setRemote {| children_tbl := tbl; tasks_tbl := tasks_tbl r;
                           rewards_tbl := rewards_tbl r |} in
    ret true
  else ret false.

(** The body of the loop of [uploadFamilyData]. *)
Definition uploadChild (familyId : string) (child : Child) : M unit :=
  let! existingChild := select_child (child_id child) in
  match existingChild with
  | None =>
      let! inserted := insert_child (childRow familyId child) in
      if negb inserted then ret tt
      else
        let! _ :=
          match child_tasks child with
          | [] => ret tt
          | tasks =>
              let tasksToInsert :=
                map (fun task => {| trow_child_id := child_id child;
                                    trow_task := task |}) tasks in
              let! _ := insert_tasks (child_id child) tasksToInsert in
              ret tt
          end in
        match child_rewards child with
        | [] => ret tt
        | rewards =>
            let rewardsToInsert :=
              map (fun reward => {| rrow_child_id := child_id child;
                                    rrow_reward := reward |}) rewards in
            let! _ := insert_rewards (child_id child) rewardsToInsert in
            ret tt
        end
  | Some _ =>
      let! _ := update_child child in
      ret tt
  end.

(** The test of "default children we shouldn't sync":
    [c.id.startsWith('c_') &&
     Date.now() - parseInt(c.id.split('_')[1] || '0') < 5000]. *)
Definition brandNew (now : Z) (c : Child) : bool :=
  startsWith "c_" (child_id c)
  && lt (sub (Int now)
           (parseInt (or_str (nth_error (split_char "_" (child_id c)) 1) "0")))
        (Int 5000).

(** [uploadFamilyData]: [false] when it returns before any request,
    [true] when it has gone through the children, after which it reloads
    the state from the store ([fetchFamilyData]).  [now] is the reading of
    [Date.now()]. *)
Definition uploadFamilyData (now : Z) (currentUser : option App.UserAccount)
  (localChildren : list Child) : M bool :=
  match currentUser ≫= App.user_familyId, localChildren with
  | Some (String _ _ as familyId), _ :: _ =>
      if forallb (brandNew now) localChildren then ret false
      else
        let! _ := forEach localChildren (uploadChild familyId) in
        ret true
  | _, _ => ret false
  end.

(** What [addChild] and [updateChild] of App.tsx send besides updating the
    state. *)
Definition addChild_sync (now : Z) (currentUser : option App.UserAccount)
  (child : Child) : M bool :=
  if App.hasFamily currentUser then uploadFamilyData now currentUser [child]
  else ret false.

Definition updateChild_sync (now : Z) (currentUser : option App.UserAccount)
  (updatedChild : Child) : M bool :=
  if App.hasFamily currentUser then uploadFamilyData now currentUser [updatedChild]
  else ret false.

(** [onSyncData]: [children.length > 0 && uploadFamilyData(children)]. *)
Definition onSyncData (now : Z) (currentUser : option App.UserAccount)
  (children : list Child) : M bool :=
  match children with
  | [] => ret false
  | _ => uploadFamilyData now currentUser children
  end.

End Sync.

(* ===================================================================== *)
(** * services/geminiService.ts: withRetry *)
(* ===================================================================== *)

Module Gemini.
Import Js.

Definition MAX_RETRIES : Z := 3.
Definition INITIAL_BACKOFF : Z := 1000.

(** What the loop reads of a thrown value. *)
Record ApiError : Set := {
  message : option string;
  status : option JsNum
}.

(** [error?.message?.includes('429') || error?.status === 429 ||
     error?.message?.includes('quota')]. *)
Definition isRateLimit (error : ApiError) : bool :=
  match message error with Some m => includes m "429" | None => false end
  || match status error with Some s => eqn s (Int 429) | None => false end
  || match message error with Some m => includes m "quota" | None => false end.

(** How a call of [fn] ends. *)
Inductive Attempt (T : Type) : Type :=
| Resolves (value : T)
| Rejects (error : ApiError).
Arguments Resolves {T} value.
Arguments Rejects {T} error.

(** How [withRetry] ends: it returns a value or throws; [lastError] is
    [undefined] when the loop has not run. *)
Inductive Outcome (T : Type) : Type :=
| Returns (value : T)
| Throws (error : option ApiError).
Arguments Returns {T} value.
Arguments Throws {T} error.

(** The loop of [withRetry] from [i] on, with [remaining] iterations to
    go: the outcome, and the times slept, in milliseconds.  [fn i] is how
    the call of [fn] in iteration [i] ends. *)
Fixpoint attempts {T : Type} (fn : nat -> Attempt T) (retries : Z)
  (remaining i : nat) (lastError : option ApiError) : Outcome T * list Z :=
  match remaining with
  | O => (Throws lastError, [])
  | S k =>
      match fn i with
      | Resolves value => (Returns value, [])
      | Rejects error =>
          if isRateLimit error && (Z.of_nat i <? retries) then
            let backoff := INITIAL_BACKOFF * 2 ^ Z.of_nat i in
            let (outcome, sleeps) := attempts fn retries k (S i) (Some error) in
            (outcome, backoff :: sleeps)
          else (Throws (Some error), [])
      end
  end.

(** [for (let i = 0; i <= retries; i++)], for an integer [retries]. *)
Definition withRetry {T : Type} (fn : nat -> Attempt T) (retries : Z)
  : Outcome T * list Z :=
  attempts fn retries (Z.to_nat (retries + 1)) 0 None.

End Gemini.

(* ===================================================================== *)
(** * views/RewardsCatalog.tsx *)
(* ===================================================================== *)

Module RewardsCatalog.
Import Js Types.

(** [handleRedeem]: the result of [onRedeemReward], if it is called;
    [redemptionNote] is the text of the note field. *)
Definition handleRedeem (now : Z) (children : list Child)
  (selectedReward : option Reward) (redemptionNote : string)
  : option (bool * list Child) :=
  match selectedReward, App.activeChild children with
  | Some reward, Some activeChild =>
      Some (App.redeemReward now children (child_id activeChild) reward
              (Some redemptionNote))
  | _, _ => None
  end.

End RewardsCatalog.

(* ===================================================================== *)
(** * The recurrence expander *)
(* ===================================================================== *)

Module Recurrence.
Import Types.

(** A calendar date is its number of days since 1970-01-01, so that every
    value is a date of the calendar. *)
Definition CalendarDate : Set := Z.

(** Year, month (1..12) and day of the month (1..31) of a date, by the
    usual era arithmetic on the proleptic Gregorian calendar. *)
Definition civil (date : CalendarDate) : Z * Z * Z :=
  let z := date + 719468 in
  let era := z / 146097 in
  let doe := z - era * 146097 in
  let yoe := (doe - doe / 1460 + doe / 36524 - doe / 146096) / 365 in
  let doy := doe - (365 * yoe + yoe / 4 - yoe / 100) in
  let mp := (5 * doy + 2) / 153 in
  let d := doy - (153 * mp + 2) / 5 + 1 in
  let m := if mp <? 10 then mp + 3 else mp - 9 in
  (yoe + era * 400 + (if m <=? 2 then 1 else 0), m, d).

(** 0 is Sunday; 1970-01-01 was a Thursday. *)
Definition dayOfWeek (date : CalendarDate) : Z := (date + 4) mod 7.

Definition dayOfMonthOf (date : CalendarDate) : Z := snd (civil date).

(** The rule of the data model of the specification. *)
Record RecurrenceRule : Set := {
  frequency : RecurrenceFrequency;
  daysOfWeek : list Z;
  dayOfMonth : option Z;
  endDate : option CalendarDate
}.

(** "until [endDate] inclusive if set, else unbounded" *)
Definition notAfterEnd (rule : RecurrenceRule) (referenceDate : CalendarDate) : bool :=
  match endDate rule with
  | Some e => referenceDate <=? e
  | None => true
  end.

(** Modelled from the spec: the repository declares [TaskRecurrence] and
    edits it in the task form, but has no function that expands a rule.
    Section 4.2: given [(rule, referenceDate)], decide whether an occurrence
    exists on that date.  [none]: no expansion; [daily]: every date;
    [weekly]: the day of the week is in [daysOfWeek]; [monthly]: the day of
    the month equals [dayOfMonth], without clamping; the sequence ends at
    [endDate]. *)
Definition occursOn (rule : RecurrenceRule) (referenceDate : CalendarDate) : bool :=
  notAfterEnd rule referenceDate &&
  match frequency rule with
  | NoRecurrence => false
  | Daily => true
  | Weekly => existsb (Z.eqb (dayOfWeek referenceDate)) (daysOfWeek rule)
  | Monthly =>
      match dayOfMonth rule with
      | Some d => dayOfMonthOf referenceDate =? d
      | None => false
      end
  end.

(** Modelled from the spec: the occurrence dates among the [n] dates from
    [start] on, in order. *)
Definition occurrences (rule : RecurrenceRule) (start : CalendarDate) (n : nat)
  : list CalendarDate :=
  List.filter (occursOn rule) (map (fun i => start + Z.of_nat i) (seq 0 n)).

End Recurrence.


(* ===================================================================== *)
(** * Notions used in the statements and proofs *)
(* ===================================================================== *)

Import Js Types Migration.

Definition minutes_of_day : list Z := map Z.of_nat (seq 0 1440).

(** A task of one hour at the given time. *)
Definition overlapTask (i tm : string) : Task :=
  task_with_form (task_with_id_recurrence ParentDashboard.defaultTask i None)
    i "" 5 tm (Some "60").

(** Changing [status] and [startTime] of a task, all else kept. *)
Definition restatus (g : Task -> TaskStatus * option Z) (t : Task) : Task :=
  task_with_status t (fst (g t)) (snd (g t)).

(** What the edit form never touches. *)
Definition kept (t t' : Task) : Prop :=
  task_id t' = task_id t
  /\ task_status t' = task_status t
  /\ task_startTime t' = task_startTime t.

(** A finished task of a child, and the edit form after the guardian has
    opened the task and changed its title. *)
Definition sampleTask : Task :=
  task_with_status
    (task_with_form (task_with_id_recurrence ParentDashboard.defaultTask "t_1" None)
       "Brush teeth" "" 5 "08:00 AM" (Some "10"))
    Done (Some 1700).

Definition sampleChild : Child :=
  {| child_id := "c_1"; child_name := "Ana"; child_age := None; child_level := 1;
     child_stars := 0; child_avatar := ""; child_active := true;
     child_rewards := []; child_tasks := [sampleTask];
     child_loveLanguages := None; child_redemptionHistory := None |}.

Definition closedForm : ParentDashboard.TaskForm :=
  {| ParentDashboard.editingTaskId := None;
     ParentDashboard.newTask := ParentDashboard.defaultTask;
     ParentDashboard.recurrenceFreq := NoRecurrence;
     ParentDashboard.recurrenceDays := [];
     ParentDashboard.recurrenceEndDate := "";
     ParentDashboard.recurrenceDayOfMonth := Int 1;
     ParentDashboard.triedToSave := false;
     ParentDashboard.isAddingTask := false |}.

Definition sampleEdits : list ParentDashboard.FormEvent :=
  [ParentDashboard.EditTitle "Brush teeth well"].

Definition sampleForm : ParentDashboard.TaskForm :=
  fold_left ParentDashboard.formEvent sampleEdits
    (ParentDashboard.handleEditTaskRequest sampleTask closedForm).

Definition sampleKid (i : string) (tasks : list Task) (rewards : list Reward) : Child :=
  {| child_id := i; child_name := i; child_age := None; child_level := 1;
     child_stars := 0; child_avatar := ""; child_active := false;
     child_rewards := rewards; child_tasks := tasks;
     child_loveLanguages := None; child_redemptionHistory := None |}.

Definition sampleSnapshot (children : list Child) : Item :=
  Snapshot {| ls_children := Some children; ls_guardians := None;
              ls_lastUpdated := "" |}.

Definition emptyRemote : Remote :=
  {| children_tbl := ∅; tasks_tbl := ∅; rewards_tbl := ∅ |}.

(** [ids] are keys that were not in [base], are in [cur], and are pairwise
    distinct. *)
Definition fresh_in {R : Type} (base cur : gmap string R) (ids : list string) : Prop :=
  NoDup ids /\ forall id, id ∈ ids -> base !! id = None /\ is_Some (cur !! id).

Definition grows {R : Type} (base cur : gmap string R) : Prop :=
  forall id, is_Some (base !! id) -> is_Some (cur !! id).

(** The invariant of a run that started from the tables [base] with the
    journal [j0]: what the journal says was inserted since then is new and
    is there, no table lost a row, and task and reward batches were
    requested only for children inserted since then. *)
Definition Inv (base : Remote) (j0 : list Event) (w : World) : Prop :=
  exists j,
    journal w = (j0 ++ j)%list
    /\ fresh_in (children_tbl base) (children_tbl (remote w)) (inserted_children j)
    /\ fresh_in (tasks_tbl base) (tasks_tbl (remote w)) (inserted_tasks j)
    /\ fresh_in (rewards_tbl base) (rewards_tbl (remote w)) (inserted_rewards j)
    /\ grows (children_tbl base) (children_tbl (remote w))
    /\ grows (tasks_tbl base) (tasks_tbl (remote w))
    /\ grows (rewards_tbl base) (rewards_tbl (remote w))
    /\ (forall c, c ∈ batch_owners j -> c ∈ inserted_children j).

(** The child [c] was inserted since the journal was [j0]. *)
Definition owned (j0 : list Event) (c : string) (w : World) : Prop :=
  exists j, journal w = (j0 ++ j)%list /\ c ∈ inserted_children j.

Definition hoare {A : Type} (P : World -> Prop) (m : M A) (Q : A -> World -> Prop)
  : Prop :=
  forall w, P w -> Q (fst (m w)) (snd (m w)).

(** A computation that neither reads nor writes the local storage. *)
Definition storage_blind {A : Type} (m : M A) : Prop :=
  forall w s, m (with_storage s w) = (fst (m w), with_storage s (snd (m w))).

(** The tables after a run, seen from one child. *)
Definition uploaded (familyId : string) (r : Remote) (c : Child) : Prop :=
  children_tbl r !! child_id c = Some (childRow familyId c)
  /\ (forall t, In t (child_tasks c) ->
        tasks_tbl r !! task_id t
        = Some {| trow_child_id := child_id c; trow_task := t |})
  /\ (forall rw, In rw (child_rewards c) ->
        rewards_tbl r !! reward_id rw
        = Some {| rrow_child_id := child_id c; rrow_reward := rw |}).

(** Outside the keys of the children [cs], the tables [r'] are the tables
    [r]. *)
Definition same_outside (cs : list Child) (r r' : Remote) : Prop :=
  (forall k, ~ In k (map child_id cs) -> children_tbl r' !! k = children_tbl r !! k)
  /\ (forall k, ~ In k (flat_map (fun c => map task_id (child_tasks c)) cs) ->
        tasks_tbl r' !! k = tasks_tbl r !! k)
  /\ (forall k, ~ In k (flat_map (fun c => map reward_id (child_rewards c)) cs) ->
        rewards_tbl r' !! k = rewards_tbl r !! k).

(** The snapshot's children, tasks and rewards have pairwise distinct ids,
    none of which is a key of the tables [r]. *)
Definition all_new (r : Remote) (cs : list Child) : Prop :=
  List.NoDup (map child_id cs)
  /\ (forall k, In k (map child_id cs) -> children_tbl r !! k = None)
  /\ List.NoDup (flat_map (fun c => map task_id (child_tasks c)) cs)
  /\ (forall k, In k (flat_map (fun c => map task_id (child_tasks c)) cs) ->
        tasks_tbl r !! k = None)
  /\ List.NoDup (flat_map (fun c => map reward_id (child_rewards c)) cs)
  /\ (forall k, In k (flat_map (fun c => map reward_id (child_rewards c)) cs) ->
        rewards_tbl r !! k = None).

(** The string consists of decimal digits. *)
Fixpoint digits_only (s : string) : bool :=
  match s with
  | EmptyString => true
  | String c s' => is_digit c && digits_only s'
  end.

(** A row passes the three checks of the table import. *)
Definition rowOk (row : ParentDashboard.TableRow) : bool :=
  negb (is_empty (trim (ParentDashboard.tr_title row)))
  && ParentDashboard.isValidTime (ParentDashboard.tr_time row)
  && ParentDashboard.isValidDuration (ParentDashboard.tr_duration row).

(** A text of the ASCII range: there a character is one code unit, and the
    white space, the letters and the digits are those of this embedding. *)
Definition asciiText (s : string) : bool :=
  forallb (fun c => code c <? 128) (list_ascii_of_string s).

(** The cells of a row that the table import reads itself. *)
Definition asciiRow (row : ParentDashboard.TableRow) : bool :=
  asciiText (ParentDashboard.tr_time row)
  && asciiText (ParentDashboard.tr_title row)
  && asciiText (ParentDashboard.tr_duration row).

(** The task [t] with another [time]. *)
Definition retimed (t : Task) (time : string) : Task :=
  task_with_form t (task_title t) (task_description t) (task_reward t) time
    (task_duration t).





(** The recording [preGenerateTaskAudio] requests for a task in a status
    and a language. *)
Definition generatedAudio
  (getTaskSpeechText : Task -> string -> Language -> string)
  (cleanForSpeech : string -> string)
  (getSpeechBase64 : string -> Language -> option string)
  (task : Task) (childName : string) (status : TaskStatus) (lang : Language)
  : option string :=
  getSpeechBase64
    (cleanForSpeech
       (getTaskSpeechText (task_with_status task status (task_startTime task))
          childName lang))
    lang.

(** The cell of a row in a column of the import table, counted from 0. *)
Definition cell (col : nat) (row : ParentDashboard.TableRow) : string :=
  match col with
  | 0%nat => ParentDashboard.tr_time row
  | 1%nat => ParentDashboard.tr_title row
  | 2%nat => ParentDashboard.tr_description row
  | _ => ParentDashboard.tr_duration row
  end.

(** The non-blank lines of a clipboard text. *)
Definition pastedLines (pasteData : string) : list string :=
  List.filter (fun r => negb (is_empty (trim r)))
    (ParentDashboard.split_lines pasteData).

(** A whole number in at least two digits. *)
Definition twoDigits (z : Z) : string := padStart0 2 (dec z).

(* ===================================================================== *)
(** * Properties *)
(* ===================================================================== *)

(** ** The primitives on some inputs *)

Example Number_examples :
  Number "" = Int 0 /\ Number " 42 " = Int 42 /\ Number "07" = Int 7
  /\ Number "30PM" = NaN /\ Number "ABC" = NaN /\ Number "0X1F" = Int 31
  /\ Number "1E3" = Int 1000 /\ Number "1.5" = Fin (3 # 2)
  /\ Number "1E999" = Inf false /\ Number "INFINITY" = NaN.
Proof. vm_compute. repeat split. Qed.

Example parseInt_examples :
  parseInt "30" = Int 30 /\ parseInt " 42abc" = Int 42 /\ parseInt "12.5" = Int 12
  /\ parseInt "-3" = Int (-3) /\ parseInt "" = NaN /\ parseInt "abc" = NaN.
Proof. vm_compute. repeat split. Qed.

Example arithmetic_examples :
  toString (mul (Number "1.1") (Int 60)) = "66"
  /\ toString (add (Number "0.1") (Number "0.2")) = "0.30000000000000004"
  /\ toString (mul (Number "4.35") (Int 100)) = "434.99999999999994"
  /\ toString (Number "1e21") = "1e+21"
  /\ toString (Number "0.000001") = "0.000001"
  /\ toString (Number "1e-7") = "1e-7"
  /\ toString (Int (-5)) = "-5"
  /\ add (Inf false) (Inf true) = NaN.
Proof. vm_compute. repeat split. Qed.

Example string_examples :
  split_spaces "10:30 AM" = ["10:30"; "AM"]
  /\ split_spaces "10:30PM" = ["10:30PM"]
  /\ split_char ":" "10:30" = ["10"; "30"]
  /\ split_char ":" "" = [""]
  /\ trim "  9:15 pm " = "9:15 pm"
  /\ toUpperCase "9:15 pm" = "9:15 PM"
  /\ padStart0 2 "5" = "05" /\ padStart0 2 "-1" = "-1".
Proof. vm_compute. repeat split. Qed.

Example parse_examples :
  ParentDashboard.parseTimeToMinutes (Some "12:05 am") = Int 5
  /\ ParentDashboard.parseTimeToMinutes (Some " 9:15 pm ") = Int 1275
  /\ ParentDashboard.parseTimeToMinutes (Some "14:30") = Int 870
  /\ ParentDashboard.parseTimeToMinutes (Some "abc") = Int 0
  /\ ParentDashboard.parseTimeToMinutes (Some "PM") = NaN
  /\ ChildPortal.parseTimeToMinutes (Some "PM") = NaN
  /\ ParentDashboard.minutesToInternalString (Int 0) H12 = "12:00 AM"
  /\ ParentDashboard.minutesToInternalString (Int 1439) H12 = "11:59 PM"
  /\ ParentDashboard.minutesToInternalString (Int 725) H24 = "12:05"
  /\ ChildPortal.displayTime (Some "13:05") H12 = "01:05 PM".
Proof. vm_compute. repeat split. Qed.

(** ** Numbers and regular expressions *)

Lemma same_eq (x y : JsNum) : same x y = true -> x = y.
Proof.
  destruct x as [|a|[a1 a2]], y as [|b|[b1 b2]]; simpl; try discriminate; auto.
  - intros H. apply Bool.eqb_prop in H. now subst.
  - intros H. apply andb_prop in H as [H1 H2].
    apply Z.eqb_eq in H1. apply Pos.eqb_eq in H2. now subst.
Qed.

Lemma minuteOfDay_Int (x : JsNum) :
  minuteOfDay x = true -> exists n, x = Int n /\ 0 <= n <= 1439.
Proof.
  destruct x as [| |[n d]]; simpl; try discriminate.
  destruct d; try discriminate.
  intros H. apply andb_prop in H as [H1 H2].
  exists n. split; [reflexivity | lia].
Qed.

Lemma in_all_ascii (c : ascii) : In c all_ascii.
Proof.
  rewrite <- (ascii_nat_embedding c).
  apply in_map, in_seq.
  pose proof (nat_ascii_bounded c). lia.
Qed.

Lemma append_cons (c : ascii) (a b : string) :
  String.append (String c a) b = String c (String.append a b).
Proof. reflexivity. Qed.

Lemma append_empty_r (s : string) : String.append s EmptyString = s.
Proof.
  induction s as [|c s IH]; [reflexivity|].
  now rewrite append_cons, IH.
Qed.

Lemma append_assoc' (a b c : string) :
  String.append (String.append a b) c = String.append a (String.append b c).
Proof.
  induction a as [|x a IH]; [reflexivity|].
  now rewrite !append_cons, IH.
Qed.

(** A successful match splits the subject into a word of the language and
    a rest that the continuation accepts. *)
Lemma rmatch_lang (r : regex) :
  forall (s : string) (k : string -> bool),
    rmatch r s k = true ->
    exists w s', s = String.append w s' /\ In w (lang r) /\ k s' = true.
Proof.
  induction r as [|cls|r1 IH1 r2 IH2|r1 IH1 r2 IH2|r1 IH1]; intros s k H;
    cbn [rmatch lang] in *.
  - exists EmptyString, s. repeat split; auto. now left.
  - destruct s as [|c s']; [discriminate|].
    apply andb_prop in H as [Hc Hk].
    exists (String c EmptyString), s'. repeat split; auto.
    apply (List.in_map (fun a => String a EmptyString)).
    apply List.filter_In. split; [apply in_all_ascii | exact Hc].
  - apply IH1 in H as (w1 & s1 & -> & Hw1 & H).
    apply IH2 in H as (w2 & s2 & -> & Hw2 & H).
    exists (String.append w1 w2), s2. repeat split; auto.
    + now rewrite append_assoc'.
    + apply List.in_flat_map. exists w1.
      split; [exact Hw1 | now apply List.in_map].
  - apply orb_prop in H as [H|H].
    + apply IH1 in H as (w & s' & -> & Hw & H).
      exists w, s'. repeat split; auto. apply in_or_app. now left.
    + apply IH2 in H as (w & s' & -> & Hw & H).
      exists w, s'. repeat split; auto. apply in_or_app. now right.
  - apply orb_prop in H as [H|H].
    + apply IH1 in H as (w & s' & -> & Hw & H).
      exists w, s'. repeat split; auto. apply in_or_app. now left.
    + exists EmptyString, s. repeat split; auto.
      apply in_or_app. right. now left.
Qed.

Lemma test_lang (r : regex) (s : string) : test r s = true -> In s (lang r).
Proof.
  intros H. apply rmatch_lang in H as (w & s' & -> & Hw & H).
  destruct s'; [|discriminate]. now rewrite append_empty_r.
Qed.

(** ** The time parser and formatter *)

Lemma in_minutes_of_day (m : Z) : 0 <= m <= 1439 -> In m minutes_of_day.
Proof.
  intros H. unfold minutes_of_day.
  replace m with (Z.of_nat (Z.to_nat m)) by lia.
  apply in_map, in_seq. lia.
Qed.

(** Every minute of the day, checked by evaluation in both display modes
    and for both views. *)
Lemma roundtrip_checked :
  forallb (fun m =>
    forallb (fun mode =>
      same (ParentDashboard.parseTimeToMinutes
              (Some (ParentDashboard.minutesToInternalString (Int m) mode))) (Int m)
      && same (ChildPortal.parseTimeToMinutes
                 (Some (ChildPortal.displayMinutes (Int m) mode))) (Int m))
      [H12; H24])
    minutes_of_day = true.
Proof. vm_cast_no_check (@eq_refl bool true). Qed.

(** Every string of the two validator expressions, checked by evaluation. *)
Lemma valid_times_checked :
  forallb (fun clean =>
    minuteOfDay (ParentDashboard.parseClean clean)
    && minuteOfDay (ChildPortal.parseClean clean))
    (lang ParentDashboard.time12hRegex ++ lang ParentDashboard.time24hRegex)%list
  = true.
Proof. vm_cast_no_check (@eq_refl bool true). Qed.



(** The validators and the parsers look at [clean] only. *)
Lemma isValidTime_lang (timeStr : string) :
  ParentDashboard.isValidTime timeStr = true ->
  In (toUpperCase (trim timeStr))
     (lang ParentDashboard.time12hRegex ++ lang ParentDashboard.time24hRegex)%list.
Proof.
  unfold ParentDashboard.isValidTime. intros H.
  apply orb_prop in H as [H|H]; apply test_lang in H; apply in_or_app;
    [left | right]; exact H.
Qed.

Lemma pd_parse_clean (s : string) :
  s <> EmptyString ->
  ParentDashboard.parseTimeToMinutes (Some s)
  = ParentDashboard.parseClean (toUpperCase (trim s)).
Proof. destruct s; [congruence | reflexivity]. Qed.

Lemma cp_parse_clean (s : string) :
  s <> EmptyString ->
  ChildPortal.parseTimeToMinutes (Some s)
  = ChildPortal.parseClean (toUpperCase (trim s)).
Proof. destruct s; [congruence | reflexivity]. Qed.

(** C7, counterexample: the 24-hour form has no range check; "25:00" parses
    to 1500, which is no minute of a day. *)
Lemma parseTimeToMinutes_out_of_range :
  ParentDashboard.parseTimeToMinutes (Some "25:00") = Int 1500
  /\ ChildPortal.parseTimeToMinutes (Some "25:00") = Int 1500
  /\ ~ (exists n, ParentDashboard.parseTimeToMinutes (Some "25:00") = Int n
                  /\ 0 <= n <= 1439).
Proof.
  assert (H : ParentDashboard.parseTimeToMinutes (Some "25:00") = Int 1500)
    by (vm_compute; reflexivity).
  split; [exact H|]. split; [vm_compute; reflexivity|].
  intros (n & Hn & Hr). rewrite H in Hn. injection Hn as Hn. lia.
Qed.

(** C7, as amended.  For every string the validator [isValidTime] accepts,
    [parseTimeToMinutes] (both copies) returns an integer in [0,1439].  The
    function is total; it returns 0 for a missing or empty input, and for an
    input without AM/PM marker whose hour field is not a number and whose
    minute field is missing, empty or not a number. *)
Theorem parseTimeToMinutes_contract (timeStr : string) :
  ParentDashboard.isValidTime timeStr = true ->
  (exists n, ParentDashboard.parseTimeToMinutes (Some timeStr) = Int n
             /\ 0 <= n <= 1439)
  /\ (exists n, ChildPortal.parseTimeToMinutes (Some timeStr) = Int n
                /\ 0 <= n <= 1439)
  /\ ParentDashboard.parseTimeToMinutes None = Int 0
  /\ ParentDashboard.parseTimeToMinutes (Some "") = Int 0
  /\ ChildPortal.parseTimeToMinutes None = Int 0
  /\ ChildPortal.parseTimeToMinutes (Some "") = Int 0
  /\ (forall s : string,
        let clean := toUpperCase (trim s) in
        let parts := split_char ":" clean in
        includes clean "AM" = false ->
        includes clean "PM" = false ->
        Number (nth 0 parts "") = NaN ->
        truthy (ParentDashboard.number_or0 (nth_error parts 1)) = false ->
        ParentDashboard.parseTimeToMinutes (Some s) = Int 0
        /\ ChildPortal.parseTimeToMinutes (Some s) = Int 0).
Proof.
  intros Hvalid.
  assert (Hne : timeStr <> EmptyString).
  { intros ->. vm_compute in Hvalid. discriminate. }
  pose proof valid_times_checked as H.
  rewrite forallb_forall in H.
  specialize (H _ (isValidTime_lang _ Hvalid)).
  apply andb_prop in H as [Hpd Hcp].
  apply minuteOfDay_Int in Hpd. apply minuteOfDay_Int in Hcp.
  rewrite <- pd_parse_clean in Hpd by exact Hne.
  rewrite <- cp_parse_clean in Hcp by exact Hne.
  repeat (split; [first [exact Hpd | exact Hcp | reflexivity]|]).
  intros s clean parts Ham Hpm Hh Hm.
  assert (Hbody : ParentDashboard.parseClean clean = Int 0
                  /\ ChildPortal.parseClean clean = Int 0).
  { unfold ParentDashboard.parseClean, ChildPortal.parseClean.
    rewrite Ham, Hpm. cbn [orb].
    fold parts. rewrite Hh.
    unfold ChildPortal.number_or0.
    unfold or_num at 2 4. rewrite Hm.
    split; reflexivity. }
  destruct s as [|c s'].
  - split; reflexivity.
  - exact Hbody.
Qed.

Lemma parseTimeToMinutes_contract_witness :
  (exists n, ParentDashboard.parseTimeToMinutes (Some " 9:15 pm") = Int n
             /\ 0 <= n <= 1439)
  /\ (exists n, ChildPortal.parseTimeToMinutes (Some " 9:15 pm") = Int n
                /\ 0 <= n <= 1439).
Proof.
  pose proof (parseTimeToMinutes_contract " 9:15 pm") as H.
  assert (Hv : ParentDashboard.isValidTime " 9:15 pm" = true)
    by (vm_compute; reflexivity).
  destruct (H Hv) as (H1 & H2 & _).
  split; [exact H1 | exact H2].
Defined.

(** ** Integers are computed exactly *)

Lemma Qred_int (z : Z) : Qred (z # 1) = z # 1.
Proof.
  unfold Qred.
  pose proof (Z.ggcd_gcd z 1) as Hg.
  pose proof (Z.ggcd_correct_divisors z 1) as Hd.
  destruct (Z.ggcd z 1) as [g [q1 q2]]. cbn [fst snd] in *.
  rewrite Z.gcd_1_r in Hg. subst g.
  destruct Hd as [H1 H2].
  replace q1 with z by lia. replace q2 with 1 by lia. reflexivity.
Qed.

Lemma round64_int (z : Z) : Z.abs z < 2 ^ 52 -> round64 (z # 1) = Int z.
Proof.
  intros Hz. unfold round64, Int. cbn [Qnum Qden].
  destruct (Z.eqb_spec z 0) as [->|Hnz]; [reflexivity|].
  change (Z.log2 1) with 0. rewrite Z.sub_0_r.
  set (a := Z.abs z). assert (Ha : 0 < a) by lia.
  set (e := Z.log2 a).
  assert (He : 0 <= e < 52).
  { split; [apply Z.log2_nonneg|]. now apply Z.log2_lt_pow2. }
  assert (Hge : ge_pow2 a 1 e = true).
  { unfold ge_pow2. destruct (Z.leb_spec 0 e); [|lia].
    apply Z.leb_le. pose proof (Z.log2_spec a Ha). fold e in H0. lia. }
  rewrite Hge.
  replace (Z.max (e - 52) (-1074)) with (e - 52) by lia.
  destruct (Z.leb_spec 0 (e - 52)); [lia|].
  rewrite Z.div_1_r, Z.mod_1_r.
  set (k := - (e - 52)).
  assert (Hk : 0 < 2 ^ k) by (apply Z.pow_pos_nonneg; lia).
  f_equal. rewrite <- (Qred_int z). apply Qred_complete.
  unfold Qeq. cbn [Qnum Qden]. rewrite Z2Pos.id by exact Hk.
  change (2 * 0 <? 1) with true. cbv iota.
  destruct (Z.ltb_spec z 0); subst a;
    [rewrite Z.abs_neq by lia | rewrite Z.abs_eq by lia]; ring.
Qed.

Lemma add_Int (a b : Z) :
  Z.abs (a + b) < 2 ^ 52 -> add (Int a) (Int b) = Int (a + b).
Proof.
  intros H. unfold add, Int, Qplus. cbn [Qnum Qden Pos.mul].
  rewrite !Z.mul_1_r. now apply round64_int.
Qed.

Lemma mul_Int (a b : Z) :
  Z.abs (a * b) < 2 ^ 52 -> mul (Int a) (Int b) = Int (a * b).
Proof.
  intros H. unfold mul, Int, Qmult. cbn [Qnum Qden Pos.mul].
  now apply round64_int.
Qed.

Lemma ge_Int (a b : Z) : ge (Int a) (Int b) = (b <=? a).
Proof. unfold ge, Int, Qle_bool. cbn [Qnum Qden]. now rewrite !Z.mul_1_r. Qed.

Lemma lt_Int (a b : Z) : lt (Int a) (Int b) = (a <? b).
Proof.
  unfold lt, Int, Qle_bool. cbn [Qnum Qden]. rewrite !Z.mul_1_r.
  now rewrite Z.ltb_antisym.
Qed.

(** The minute of the day read from a clock. *)
Lemma nowMinutes_Int (h m : Z) :
  0 <= h <= 23 -> 0 <= m <= 59 ->
  add (mul (Int h) (Int 60)) (Int m) = Int (h * 60 + m).
Proof.
  intros Hh Hm.
  assert (H52 : 2 ^ 52 = 4503599627370496) by reflexivity.
  rewrite mul_Int by lia. rewrite add_Int by lia. reflexivity.
Qed.

(** ** The "currently due" projection *)

Lemma find_first {A : Type} (p : A -> bool) (l : list A) (x : A) :
  find p l = Some x ->
  exists before after,
    l = (before ++ x :: after)%list /\ p x = true
    /\ forall y, In y before -> p y = false.
Proof.
  induction l as [|a l IH]; simpl; [discriminate|].
  destruct (p a) eqn:Hpa.
  - intros [= ->]. exists [], l. repeat split; auto. intros y [].
  - intros H. destruct (IH H) as (b & c & -> & Hx & Hb).
    exists (a :: b), c. repeat split; auto.
    intros y [<-|Hy]; auto.
Qed.

Lemma find_is_some {A : Type} (p : A -> bool) (l : list A) :
  (exists x, In x l /\ p x = true) <-> (exists x, find p l = Some x).
Proof.
  split.
  - intros (x & Hin & Hp). destruct (find p l) eqn:Hf; [eauto|].
    rewrite (find_none _ _ Hf x Hin) in Hp. discriminate.
  - intros (x & Hf). exists x. now apply find_some in Hf.
Qed.

Lemma find_map {A : Type} (p : A -> bool) (f : A -> A) (l : list A) :
  (forall x, p (f x) = p x) ->
  find p (map f l) = option_map f (find p l).
Proof.
  intros Hp. induction l as [|a l IH]; simpl; [reflexivity|].
  rewrite Hp. destruct (p a); [reflexivity | exact IH].
Qed.

Lemma pd_activeTaskNow_find (sortedTasks : list Task) (currentTime : Date) :
  ParentDashboard.activeTaskNow sortedTasks currentTime
  = find (ParentDashboard.dueAt
            (add (mul (Int (getHours currentTime)) (Int 60))
                 (Int (getMinutes currentTime))))
         sortedTasks.
Proof. destruct sortedTasks; reflexivity. Qed.

(** The interval test on integers. *)
Lemma due_test_Int (h m s d : Z) (start dur : JsNum) :
  0 <= h <= 23 -> 0 <= m <= 59 ->
  start = Int s -> dur = Int d -> Z.abs (s + d) < 2 ^ 52 ->
  let nowMinutes := add (mul (Int h) (Int 60)) (Int m) in
  ge nowMinutes start && lt nowMinutes (add start dur) = true
  <-> s <= h * 60 + m < s + d.
Proof.
  intros Hh Hm -> -> Hsd nowMinutes. subst nowMinutes.
  rewrite nowMinutes_Int, add_Int, ge_Int, lt_Int by assumption.
  rewrite andb_true_iff, Z.leb_le, Z.ltb_lt. reflexivity.
Qed.

(** C9, as amended.  The "currently due" projection
    ([getCurrentActiveTaskFromSchedule] in the child portal, [activeTaskNow]
    in the dashboard) selects the first task in list order that passes the
    half-open interval test [start <= now < start + duration], and none when
    no task passes it: the selected task passes the test, no task before it
    does, and a task is selected exactly when some task passes.  The
    selection does not depend on [status] or [startTime].  On integers the
    test is [s <= now < s + d]: due at the scheduled minute, not due any
    more at [s + d]. *)
Theorem due_projection (tasks : list Task) (currentTime : Date) :
  let nowMinutes :=
    add (mul (Int (getHours currentTime)) (Int 60)) (Int (getMinutes currentTime)) in
  let duration t := parseInt (or_str (task_duration t) "0") in
  let cpStart t := ChildPortal.parseTimeToMinutes (Some (task_time t)) in
  let pdStart t := ParentDashboard.parseTimeToMinutes (Some (task_time t)) in
  let cpDue t :=
    ge nowMinutes (cpStart t) && lt nowMinutes (add (cpStart t) (duration t)) in
  let pdDue t :=
    ge nowMinutes (pdStart t) && lt nowMinutes (add (pdStart t) (duration t)) in
  (forall t,
      ChildPortal.getCurrentActiveTaskFromSchedule tasks currentTime = Some t ->
      In t tasks /\ cpDue t = true
      /\ exists before after,
           tasks = (before ++ t :: after)%list
           /\ forall x, In x before -> cpDue x = false)
  /\ ((exists t, In t tasks /\ cpDue t = true) <->
      (exists t, ChildPortal.getCurrentActiveTaskFromSchedule tasks currentTime
                 = Some t))
  /\ (forall t,
        ParentDashboard.activeTaskNow tasks currentTime = Some t ->
        In t tasks /\ pdDue t = true
        /\ exists before after,
             tasks = (before ++ t :: after)%list
             /\ forall x, In x before -> pdDue x = false)
  /\ ((exists t, In t tasks /\ pdDue t = true) <->
      (exists t, ParentDashboard.activeTaskNow tasks currentTime = Some t))
  /\ (forall g,
        ChildPortal.getCurrentActiveTaskFromSchedule (map (restatus g) tasks)
          currentTime
        = option_map (restatus g)
            (ChildPortal.getCurrentActiveTaskFromSchedule tasks currentTime)
        /\ ParentDashboard.activeTaskNow (map (restatus g) tasks) currentTime
           = option_map (restatus g)
               (ParentDashboard.activeTaskNow tasks currentTime))
  /\ (forall t s d,
        0 <= getHours currentTime <= 23 -> 0 <= getMinutes currentTime <= 59 ->
        duration t = Int d -> Z.abs (s + d) < 2 ^ 52 ->
        let now := getHours currentTime * 60 + getMinutes currentTime in
        (cpStart t = Int s -> (cpDue t = true <-> s <= now < s + d))
        /\ (pdStart t = Int s -> (pdDue t = true <-> s <= now < s + d))).
Proof.
  intros nowMinutes duration cpStart pdStart cpDue pdDue.
  assert (Hcp : forall l, ChildPortal.getCurrentActiveTaskFromSchedule l currentTime
                          = find cpDue l) by reflexivity.
  assert (Hpd : forall l, ParentDashboard.activeTaskNow l currentTime = find pdDue l)
    by (intros l; apply pd_activeTaskNow_find).
  assert (Hsel : forall t, find cpDue tasks = Some t ->
            In t tasks /\ cpDue t = true
            /\ exists before after,
                 tasks = (before ++ t :: after)%list
                 /\ forall x, In x before -> cpDue x = false).
  { intros t Hf. split; [|split]; try (now apply find_some in Hf).
    apply find_first in Hf as (b & a & ? & ? & ?). eauto. }
  assert (Hsel' : forall t, find pdDue tasks = Some t ->
            In t tasks /\ pdDue t = true
            /\ exists before after,
                 tasks = (before ++ t :: after)%list
                 /\ forall x, In x before -> pdDue x = false).
  { intros t Hf. split; [|split]; try (now apply find_some in Hf).
    apply find_first in Hf as (b & a & ? & ? & ?). eauto. }
  split; [intros t; rewrite Hcp; apply Hsel|].
  split; [rewrite Hcp; apply find_is_some|].
  split; [intros t; rewrite Hpd; apply Hsel'|].
  split; [rewrite Hpd; apply find_is_some|].
  split.
  - intros g. split.
    + rewrite !Hcp. apply find_map. reflexivity.
    + rewrite !Hpd. apply find_map. reflexivity.
  - intros t s d Hh Hm Hd Hsd now. split; intros Hs.
    + apply (due_test_Int _ _ _ _ _ _ Hh Hm Hs Hd Hsd).
    + apply (due_test_Int _ _ _ _ _ _ Hh Hm Hs Hd Hsd).
Qed.

(** C9, counterexample: two tasks whose intervals overlap, 09:00 and 09:30,
    an hour each.  At 09:45 the second is within its interval, but the
    projection selects the first; so it is not true of every task that it
    is selected if and only if the current minute lies in its interval. *)
Lemma due_projection_shadowed :
  let tasks := [overlapTask "a" "09:00 AM"; overlapTask "b" "09:30 AM"] in
  let currentTime := {| getHours := 9; getMinutes := 45 |} in
  let later := overlapTask "b" "09:30 AM" in
  ChildPortal.dueAt (Int 585) later = true
  /\ ParentDashboard.dueAt (Int 585) later = true
  /\ ChildPortal.getCurrentActiveTaskFromSchedule tasks currentTime
     = Some (overlapTask "a" "09:00 AM")
  /\ ParentDashboard.activeTaskNow tasks currentTime
     = Some (overlapTask "a" "09:00 AM")
  /\ ~ (forall t, In t tasks ->
          (ChildPortal.getCurrentActiveTaskFromSchedule tasks currentTime = Some t
           <-> ChildPortal.dueAt (Int 585) t = true)).
Proof.
  intros tasks currentTime later.
  assert (Hdue : ChildPortal.dueAt (Int 585) later = true)
    by (vm_compute; reflexivity).
  assert (Hsel : ChildPortal.getCurrentActiveTaskFromSchedule tasks currentTime
                 = Some (overlapTask "a" "09:00 AM"))
    by (vm_compute; reflexivity).
  split; [exact Hdue|]. split; [vm_compute; reflexivity|].
  split; [exact Hsel|]. split; [vm_compute; reflexivity|].
  intros H.
  assert (Hin : In later tasks) by (right; left; reflexivity).
  apply (H later Hin) in Hdue. rewrite Hsel in Hdue.
  apply (f_equal (option_map task_id)) in Hdue.
  vm_compute in Hdue. discriminate Hdue.
Qed.

(** ** The handlers of App.tsx *)

Lemma filter_by_key_length {A : Type} (f : A -> string) (k : string) (l : list A) :
  List.NoDup (map f l) ->
  (length (List.filter (fun x => String.eqb (f x) k) l) <= 1)%nat.
Proof.
  induction l as [|a l IH]; simpl; [lia|].
  intros Hnd. apply List.NoDup_cons_iff in Hnd as [Hnotin Hnd].
  destruct (String.eqb (f a) k) eqn:Ha; [|now apply IH].
  apply String.eqb_eq in Ha. simpl.
  assert (Hnil : List.filter (fun x => String.eqb (f x) k) l = []).
  { destruct (List.filter _ l) as [|b r] eqn:Hf; [reflexivity|].
    assert (Hb : In b (List.filter (fun x => String.eqb (f x) k) l))
      by (rewrite Hf; now left).
    apply List.filter_In in Hb as [Hin Hk]. apply String.eqb_eq in Hk.
    exfalso. apply Hnotin. rewrite Ha, <- Hk. now apply List.in_map. }
  rewrite Hnil. simpl. lia.
Qed.

Lemma filter_map_comm {A B : Type} (p : B -> bool) (f : A -> B) (l : list A) :
  List.filter p (map f l) = map f (List.filter (fun x => p (f x)) l).
Proof.
  induction l as [|a l IH]; simpl; [reflexivity|].
  destruct (p (f a)); simpl; now rewrite IH.
Qed.

(** C10, counterexample: when two children of the list carry the id, both
    are active afterwards. *)
Lemma switchActiveChild_two_active :
  let kid i n :=
    {| child_id := i; child_name := n; child_age := None; child_level := 1;
       child_stars := 0; child_avatar := ""; child_active := false;
       child_rewards := []; child_tasks := [];
       child_loveLanguages := None; child_redemptionHistory := None |} in
  let children := [kid "c_1" "Ana"; kid "c_2" "Ben"; kid "c_2" "Eva"] in
  map child_name (List.filter child_active (App.switchActiveChild children "c_2"))
  = ["Ben"; "Eva"]
  /\ ~ (length (List.filter child_active (App.switchActiveChild children "c_2"))
        <= 1)%nat.
Proof.
  intros kid children. split; [reflexivity|]. cbn. lia.
Qed.

(** C10, as amended.  After [switchActiveChild children id] a child is
    active if and only if its id is [id]; every other field of every child
    is kept, in place.  Hence any two active children have the same id and,
    when the ids of the list are pairwise distinct, at most one child is
    active; if no child has the id, no child is active afterwards. *)
Theorem switchActiveChild_active (children : list Child) (id : string) :
  let result := App.switchActiveChild children id in
  result = map (fun c => child_with_active c (String.eqb (child_id c) id)) children
  /\ (forall c, In c result -> (child_active c = true <-> child_id c = id))
  /\ (forall c1 c2, In c1 result -> In c2 result ->
        child_active c1 = true -> child_active c2 = true ->
        child_id c1 = child_id c2)
  /\ (List.NoDup (map child_id children) ->
        (length (List.filter child_active result) <= 1)%nat)
  /\ ((forall c, In c children -> child_id c <> id) ->
        forall c, In c result -> child_active c = false).
Proof.
  intros result.
  assert (Hiff : forall c, In c result ->
                   (child_active c = true <-> child_id c = id)).
  { intros c Hin. apply List.in_map_iff in Hin as (c0 & <- & _).
    cbn [child_active child_id child_with_active]. apply String.eqb_eq. }
  split; [reflexivity|]. split; [exact Hiff|]. split; [|split].
  - intros c1 c2 H1 H2 A1 A2.
    apply (Hiff c1 H1) in A1. apply (Hiff c2 H2) in A2. congruence.
  - intros Hnd. subst result. unfold App.switchActiveChild.
    rewrite filter_map_comm, length_map.
    cbn [child_active child_with_active].
    now apply filter_by_key_length.
  - intros Hnone c Hin.
    destruct (child_active c) eqn:Ha; [|reflexivity].
    apply (Hiff c Hin) in Ha.
    apply List.in_map_iff in Hin as (c0 & <- & Hin0).
    cbn [child_id child_with_active] in Ha. now apply Hnone in Hin0.
Qed.

Lemma switchActiveChild_active_witness :
  let kid i a :=
    {| child_id := i; child_name := i; child_age := None; child_level := 1;
       child_stars := 0; child_avatar := ""; child_active := a;
       child_rewards := []; child_tasks := [];
       child_loveLanguages := None; child_redemptionHistory := None |} in
  let children := [kid "c_1" true; kid "c_2" false; kid "c_3" true] in
  (length (List.filter child_active (App.switchActiveChild children "c_2")) <= 1)%nat
  /\ (forall c, In c (App.switchActiveChild children "c_9") -> child_active c = false).
Proof.
  intros kid children.
  destruct (switchActiveChild_active children "c_2") as (_ & _ & _ & H1 & _).
  destruct (switchActiveChild_active children "c_9") as (_ & _ & _ & _ & H2).
  split.
  - apply H1. vm_compute.
    repeat (apply List.NoDup_cons; [simpl; intuition discriminate|]).
    apply List.NoDup_nil.
  - apply H2. intros c Hin. simpl in Hin.
    destruct Hin as [<-|[<-|[<-|[]]]]; simpl; discriminate.
Defined.

(** Mapping a function that keeps the star balance keeps all balances. *)
Lemma stars_map (g : Child -> Child) (l : list Child) :
  (forall c, child_stars (g c) = child_stars c) ->
  map child_stars (map g l) = map child_stars l.
Proof.
  intros Hg. rewrite List.map_map. apply List.map_ext. exact Hg.
Qed.

Lemma stars_map_if (cond : Child -> bool) (g : Child -> Child) (l : list Child) :
  (forall c, child_stars (g c) = child_stars c) ->
  map child_stars (map (fun c => if cond c then g c else c) l)
  = map child_stars l.
Proof.
  intros Hg. apply stars_map. intros c. destruct (cond c); auto.
Qed.

Lemma updateTaskStatus_stars (now : Z) (children : list Child)
  (childId taskId : string) (status : TaskStatus) :
  map child_stars (App.updateTaskStatus now children childId taskId status)
  = map child_stars children.
Proof. unfold App.updateTaskStatus. now apply stars_map_if. Qed.

Lemma portal_onUpdateTask_stars (now : Z) (children : list Child)
  (taskId : string) (status : TaskStatus) :
  map child_stars (App.portal_onUpdateTask now children taskId status)
  = map child_stars children.
Proof.
  unfold App.portal_onUpdateTask.
  destruct (App.activeChild children); [apply updateTaskStatus_stars | reflexivity].
Qed.

(** C3, counterexample: a balance changes without a redemption.  The
    editor was opened on a child with 40 stars; meanwhile the children were
    loaded again and the child has 10; saving the editor, with nothing
    edited, writes 40 back. *)
Lemma child_editor_overwrites_stars :
  let kid stars :=
    {| child_id := "c_1"; child_name := "Ana"; child_age := None; child_level := 1;
       child_stars := stars; child_avatar := ""; child_active := true;
       child_rewards := []; child_tasks := [];
       child_loveLanguages := Some []; child_redemptionHistory := None |} in
  let childForm :=
    {| ParentSettings.form_name := "Ana"; ParentSettings.form_age := "";
       ParentSettings.form_avatar := ""; ParentSettings.form_loveLanguages := [] |} in
  exists edited,
    ParentSettings.saveChild 7 (Some (kid 40)) childForm
    = Some (ParentSettings.OnUpdateChild edited)
    /\ map child_stars [kid 10] = [10]
    /\ map child_stars (App.updateChild [kid 10] edited) = [40]
    /\ map child_stars (App.updateChild [kid 10] edited) <> map child_stars [kid 10].
Proof.
  intros kid childForm. eexists. split; [vm_compute; reflexivity|].
  split; [reflexivity|]. split; [reflexivity|]. discriminate.
Qed.

(** C3, as amended.  [updateTaskStatus] keeps the list of children and, in
    each child, every field but [tasks]; it keeps the list of tasks and, in
    each task, every field but [status] and [startTime]; a task that is not
    the targeted one (other id, or other child) is kept whole; the targeted
    task gets the new status, and [startTime] is set only on the transition
    to [active].  So no star balance changes, also when the child portal
    completes a task ([handleComplete]); nor does any other handler that
    edits tasks, rewards or the active flag change one, and adding or
    deleting a child leaves the others as they are.  Of the handlers of
    App.tsx two write [stars]: [redeemReward], which takes the cost off the
    redeeming child when it succeeds, and [updateChild], to which the child
    editor hands the balance of the child it was opened on; that changes
    nothing while the child is still in the list as it was opened. *)
Theorem updateTaskStatus_frame (now : Z) (children : list Child)
  (childId taskId : string) (status : TaskStatus) :
  let result := App.updateTaskStatus now children childId taskId status in
  length result = length children
  /\ (forall i c c',
        nth_error children i = Some c -> nth_error result i = Some c' ->
        child_with_tasks c (child_tasks c') = c'
        /\ child_stars c' = child_stars c
        /\ length (child_tasks c') = length (child_tasks c)
        /\ forall j t t',
             nth_error (child_tasks c) j = Some t ->
             nth_error (child_tasks c') j = Some t' ->
             task_with_status t (task_status t') (task_startTime t') = t'
             /\ (child_id c <> childId \/ task_id t <> taskId -> t' = t)
             /\ (child_id c = childId -> task_id t = taskId ->
                 task_status t' = status
                 /\ task_startTime t'
                    = match status with
                      | Active => Some now
                      | _ => task_startTime t
                      end))
  /\ map child_stars result = map child_stars children
  /\ (forall task,
        ChildPortal.handleComplete (App.portal_onUpdateTask now children) task
        = App.portal_onUpdateTask now children (task_id task) Done
        /\ map child_stars
             (ChildPortal.handleComplete (App.portal_onUpdateTask now children) task)
           = map child_stars children)
  /\ (forall id, map child_stars (App.switchActiveChild children id)
                 = map child_stars children)
  /\ (forall speechText clean speech closed cid task,
        map child_stars
          (App.onAddTask speechText clean speech closed children cid task)
        = map child_stars children
        /\ map child_stars
             (App.onUpdateTask speechText clean speech closed children cid task)
           = map child_stars children)
  /\ (forall cid tid, map child_stars (App.onDeleteTask children cid tid)
                      = map child_stars children)
  /\ (forall cid reward,
        map child_stars (App.onAddReward children cid reward)
        = map child_stars children
        /\ map child_stars (App.onUpdateReward children cid reward)
           = map child_stars children)
  /\ (forall cid rid, map child_stars (App.onDeleteReward children cid rid)
                      = map child_stars children)
  /\ (forall speechText clean speech closed cid tasks,
        map child_stars
          (App.onAddTasks speechText clean speech closed children cid tasks)
        = map child_stars children)
  /\ (forall now' editingChild childForm edited,
        ParentSettings.saveChild now' (Some editingChild) childForm
        = Some (ParentSettings.OnUpdateChild edited) ->
        child_id edited = child_id editingChild
        /\ child_stars edited = child_stars editingChild
        /\ map child_stars (App.updateChild children edited)
           = map (fun c => if String.eqb (child_id c) (child_id editingChild)
                           then child_stars editingChild else child_stars c)
                 children
        /\ ((forall c, In c children -> child_id c = child_id editingChild ->
                       child_stars c = child_stars editingChild) ->
            map child_stars (App.updateChild children edited)
            = map child_stars children)
        /\ forall c, In c (App.updateChild children edited) ->
                     c = edited \/ In c children)
  /\ (forall now' cid reward note,
        let ok := fst (App.redeemReward now' children cid reward note) in
        map child_stars (snd (App.redeemReward now' children cid reward note))
        = map (fun c => if ok && String.eqb (child_id c) cid
                        then child_stars c - reward_cost reward
                        else child_stars c)
              children)
  /\ (forall id c, In c (App.deleteChild children id) -> In c children)
  /\ (forall child c, In c (App.addChild children child) ->
                      In c children \/ c = child)
  /\ (forall user r,
        In r (App.updateTaskStatus_requests now user children childId taskId status)
        -> exists st start, r = App.TasksUpdateStatus taskId st start).
Proof.
  intros result.
  split; [apply length_map|].
  split.
  { intros i c c' Hc Hc'. subst result. unfold App.updateTaskStatus in Hc'.
    rewrite List.nth_error_map, Hc in Hc'. cbn [option_map] in Hc'.
    injection Hc' as <-.
    destruct (String.eqb (child_id c) childId) eqn:Hcid.
    - apply String.eqb_eq in Hcid.
      cbn [child_tasks child_stars child_with_tasks].
      split; [reflexivity|]. split; [reflexivity|].
      split; [apply length_map|].
      intros j t t' Ht Ht'. rewrite List.nth_error_map, Ht in Ht'.
      cbn [option_map] in Ht'. injection Ht' as <-.
      destruct (String.eqb (task_id t) taskId) eqn:Htid.
      + apply String.eqb_eq in Htid.
        unfold App.updatedTask.
        cbn [task_status task_startTime task_with_status].
        split; [reflexivity|]. split; [intros [?|?]; contradiction|].
        intros _ _. split; reflexivity.
      + apply String.eqb_neq in Htid.
        split; [now destruct t|]. split; [reflexivity|].
        intros _ ?. contradiction.
    - apply String.eqb_neq in Hcid.
      split; [now destruct c|]. split; [reflexivity|]. split; [reflexivity|].
      intros j t t' Ht Ht'. rewrite Ht in Ht'. injection Ht' as <-.
      split; [now destruct t|]. split; [reflexivity|].
      intros ?. contradiction. }
  split; [apply updateTaskStatus_stars|].
  split; [intros task; split; [reflexivity | apply portal_onUpdateTask_stars]|].
  split; [intros id; unfold App.switchActiveChild; now apply stars_map|].
  split.
  { intros speechText clean speech closed cid task.
    unfold App.onAddTask, App.onUpdateTask. split; now apply stars_map_if. }
  split; [intros cid tid; unfold App.onDeleteTask; now apply stars_map_if|].
  split.
  { intros cid reward. unfold App.onAddReward, App.onUpdateReward.
    split; now apply stars_map_if. }
  split; [intros cid rid; unfold App.onDeleteReward; now apply stars_map_if|].
  split.
  { intros speechText clean speech closed cid tasks.
    unfold App.onAddTasks. now apply stars_map_if. }
  split.
  { intros now' editingChild childForm edited Hsave.
    unfold ParentSettings.saveChild in Hsave.
    destruct (is_empty _); [discriminate|]. injection Hsave as <-.
    split; [reflexivity|]. split; [reflexivity|].
    cbn [child_id child_stars].
    assert (Hmap : map child_stars
                     (App.updateChild children
                        {| child_id := child_id editingChild;
                           child_name := ParentSettings.form_name childForm;
                           child_age := ParentSettings.formAge childForm;
                           child_level := child_level editingChild;
                           child_stars := child_stars editingChild;
                           child_avatar := ParentSettings.form_avatar childForm;
                           child_active := child_active editingChild;
                           child_rewards := child_rewards editingChild;
                           child_tasks := child_tasks editingChild;
                           child_loveLanguages :=
                             Some (ParentSettings.form_loveLanguages childForm);
                           child_redemptionHistory :=
                             child_redemptionHistory editingChild |})
                   = map (fun c => if String.eqb (child_id c) (child_id editingChild)
                                   then child_stars editingChild else child_stars c)
                         children).
    { unfold App.updateChild. rewrite List.map_map. apply List.map_ext.
      intros c. cbn [child_id]. now destruct (String.eqb _ _). }
    split; [exact Hmap|]. split.
    - intros Hsame. rewrite Hmap. apply List.map_ext_in. intros c Hc.
      destruct (String.eqb (child_id c) (child_id editingChild)) eqn:Hid;
        [|reflexivity].
      apply String.eqb_eq in Hid. symmetry. now apply Hsame.
    - intros c Hc. unfold App.updateChild in Hc.
      apply List.in_map_iff in Hc as (c0 & <- & Hc0).
      destruct (String.eqb _ _); auto. }
  split.
  { intros now' cid reward note ok. subst ok. unfold App.redeemReward.
    destruct (find _ children) as [ac|]; cbn [fst snd andb].
    - destruct (child_stars ac <? reward_cost reward); cbn [fst snd andb].
      + reflexivity.
      + rewrite List.map_map. apply List.map_ext. intros c.
        now destruct (String.eqb (child_id c) cid).
    - reflexivity. }
  split.
  { intros id c Hc. unfold App.deleteChild in Hc.
    now apply List.filter_In in Hc. }
  split.
  { intros child c Hc. unfold App.addChild in Hc.
    apply List.in_app_or in Hc as [Hc|[<-|[]]]; auto. }
  intros user r Hr. unfold App.updateTaskStatus_requests in Hr.
  apply List.in_flat_map in Hr as (c & _ & Hr).
  destruct (String.eqb (child_id c) childId); [|destruct Hr].
  apply List.in_flat_map in Hr as (t & _ & Hr).
  destruct (String.eqb (task_id t) taskId && App.hasFamily user); [|destruct Hr].
  destruct Hr as [<-|[]]. eauto.
Qed.

(** C1. Let [child] be the child with the given id.  If its balance is
    below the cost, [redeemReward] returns [false] and leaves the children
    as they are.  Otherwise it returns [true]; the children with another id
    are kept; a child with the id gets the balance [stars - cost], its
    history gets exactly one new record, placed before the old ones, with
    the id, title and cost of the reward and the current time stamp, and all
    its other fields are kept. *)
Theorem redeemReward_spec (now : Z) (children : list Child) (childId : string)
  (reward : Reward) (note : option string) (child : Child) :
  find (fun c => String.eqb (child_id c) childId) children = Some child ->
  let record :=
    {| rr_id := String.append "redemption_" (dec now);
       rr_rewardId := reward_id reward;
       rr_rewardTitle := reward_title reward;
       rr_cost := reward_cost reward;
       rr_timestamp := now;
       rr_note := note |} in
  (child_stars child < reward_cost reward ->
     App.redeemReward now children childId reward note = (false, children))
  /\ (reward_cost reward <= child_stars child ->
      exists result,
        App.redeemReward now children childId reward note = (true, result)
        /\ length result = length children
        /\ forall i c,
             nth_error children i = Some c ->
             (child_id c <> childId -> nth_error result i = Some c)
             /\ (child_id c = childId ->
                 exists c',
                   nth_error result i = Some c'
                   /\ child_stars c' = child_stars c - reward_cost reward
                   /\ child_redemptionHistory c'
                      = Some (record :: default [] (child_redemptionHistory c))
                   /\ c' = child_with_stars_history c (child_stars c')
                             (record :: default [] (child_redemptionHistory c)))).
Proof.
  intros Hfind record. unfold App.redeemReward. rewrite Hfind. split.
  - intros Hlt. apply Z.ltb_lt in Hlt. now rewrite Hlt.
  - intros Hge. apply Z.ltb_ge in Hge. rewrite Hge.
    eexists. split; [reflexivity|]. split; [apply length_map|].
    intros i c Hc. rewrite List.nth_error_map, Hc. cbn [option_map]. split.
    + intros Hne. apply String.eqb_neq in Hne. now rewrite Hne.
    + intros Heq. apply String.eqb_eq in Heq. rewrite Heq.
      eexists. split; [reflexivity|].
      unfold App.redeemedChild, App.redemptionRecord.
      cbn [child_stars child_redemptionHistory child_with_stars_history].
      repeat split.
Qed.

Lemma redeemReward_spec_witness :
  let kid i s :=
    {| child_id := i; child_name := i; child_age := None; child_level := 1;
       child_stars := s; child_avatar := ""; child_active := false;
       child_rewards := []; child_tasks := [];
       child_loveLanguages := None; child_redemptionHistory := None |} in
  let prize c :=
    {| reward_id := "r_1"; reward_title := "Park"; reward_category := "Toys";
       reward_cost := c; reward_image := ""; reward_type := Toy |} in
  let children := [kid "c_1" 40; kid "c_2" 7] in
  App.redeemReward 1000 children "c_1" (prize 50) None = (false, children)
  /\ exists result,
       App.redeemReward 1000 children "c_1" (prize 30) None = (true, result)
       /\ map child_stars result = [10; 7].
Proof.
  intros kid prize children.
  assert (Hf : find (fun c => String.eqb (child_id c) "c_1") children
               = Some (kid "c_1" 40)) by reflexivity.
  split.
  - apply (redeemReward_spec 1000 children "c_1" (prize 50) None _ Hf).
    simpl. lia.
  - destruct (redeemReward_spec 1000 children "c_1" (prize 30) None _ Hf)
      as [_ H].
    destruct H as (result & Hr & _); [simpl; lia|].
    exists result. split; [exact Hr|].
    vm_compute in Hr. injection Hr as <-. reflexivity.
Defined.

(** ** The guardian edit of a task *)

Lemma kept_refl (t : Task) : kept t t.
Proof. repeat split. Qed.

Lemma kept_trans (a b c : Task) : kept a b -> kept b c -> kept a c.
Proof. unfold kept. intros (?&?&?) (?&?&?). repeat split; congruence. Qed.



Section SpeechFacts.
Variable getTaskSpeechText : Task -> string -> Language -> string.
Variable cleanForSpeech : string -> string.
Variable getSpeechBase64 : string -> Language -> option string.

Lemma generateOne_kept (task : Task) (childName : string) (updated : Task)
  (sl : TaskStatus * Language) :
  kept updated
    (App.generateOne getTaskSpeechText cleanForSpeech getSpeechBase64
       task childName updated sl).
Proof.
  unfold App.generateOne, kept. destruct sl as [st lang].
  destruct (getSpeechBase64 _ lang) as [[|c b]|]; repeat split.
Qed.

Lemma preGenerateTaskAudio_kept (task : Task) (childName : string) :
  kept task
    (App.preGenerateTaskAudio getTaskSpeechText cleanForSpeech getSpeechBase64
       task childName).
Proof.
  unfold App.preGenerateTaskAudio.
  generalize (flat_map (fun st => map (fun l => (st, l)) App.languages) App.statuses).
  intros l. generalize task at 1 3 as acc.
  induction l as [|sl l IH]; intros acc; simpl; [apply kept_refl|].
  eapply kept_trans; [apply generateOne_kept | apply IH].
Qed.


End SpeechFacts.





(** ** The one-time migration *)

Lemma bind_run {A B : Type} (m : M A) (f : A -> M B) (w : World) :
  bind m f w = f (fst (m w)) (snd (m w)).
Proof. unfold bind. now destruct (m w). Qed.

(** C4: the flag is written but never read.  An installation whose flag is
    already set, with a snapshot holding a child that is not in the remote
    store: on the next login [triggerMigration] runs the migration again; it
    queries the store and inserts the child. *)
Theorem migration_runs_despite_flag :
  let w :=
    {| remote := emptyRemote;
       storage := <[MIGRATION_FLAG := Raw "true"]>
                    (<[STORAGE_KEY := sampleSnapshot [sampleKid "c_1" [] []]]> ∅);
       net := []; journal := [] |} in
  let '(result, w') := triggerMigration (loggedIn "u_1" "fam_1") false w in
  storage w !! MIGRATION_FLAG = Some (Raw "true")
  /\ result = Some true
  /\ journal w' = [SelectChild "c_1" false; InsertChild "c_1" true]
  /\ is_Some (children_tbl (remote w') !! "c_1").
Proof. vm_compute. repeat split. eauto. Qed.

(** *** The flag is never read *)

Lemma blind_ret {A : Type} (a : A) : storage_blind (ret a).
Proof. intros w s. reflexivity. Qed.

Lemma blind_bind {A B : Type} (m : M A) (f : A -> M B) :
  storage_blind m -> (forall a, storage_blind (f a)) -> storage_blind (bind m f).
Proof.
  intros Hm Hf w s. rewrite !bind_run, Hm. cbn [fst snd]. apply Hf.
Qed.

Lemma blind_reach : storage_blind reach.
Proof.
  intros w s. unfold reach, with_storage. cbn [net remote storage journal].
  destruct (net w) as [|b rest] eqn:Hn; cbn [fst snd net remote storage journal];
    rewrite ?Hn; reflexivity.
Qed.

Lemma blind_log (e : Event) : storage_blind (log e).
Proof. intros w s. reflexivity. Qed.

Lemma blind_getRemote : storage_blind getRemote.
Proof. intros w s. reflexivity. Qed.

Lemma blind_setRemote (r : Remote) : storage_blind (setRemote r).
Proof. intros w s. reflexivity. Qed.

Create HintDb blind.
#[local] Hint Resolve blind_ret blind_reach blind_log blind_getRemote
  blind_setRemote : blind.

Ltac blind :=
  repeat first
    [ apply blind_bind; [|intros ?]
    | progress auto with blind
    | match goal with
      | |- storage_blind (match ?x with _ => _ end) => destruct x
      | |- storage_blind (if ?x then _ else _) => destruct x
      end ].

Lemma blind_migrateChild (familyId : string) (child : Child) :
  storage_blind (migrateChild familyId child).
Proof.
  unfold migrateChild, select_child, insert_child, insert_tasks, insert_rewards.
  blind.
Qed.

Lemma blind_forEach {A : Type} (body : A -> M unit) (xs : list A) :
  (forall x, storage_blind (body x)) -> storage_blind (forEach xs body).
Proof.
  intros Hbody. induction xs as [|x xs IH]; cbn [forEach].
  - apply blind_ret.
  - apply blind_bind; [apply Hbody | intros ?; exact IH].
Qed.

Lemma blind_migrateChildren (familyId : string) (data : LocalStorageData) :
  storage_blind (migrateChildren familyId data).
Proof.
  unfold migrateChildren.
  destruct (ls_children data) as [[|c cs]|]; try apply blind_ret.
  apply blind_forEach. intros x. apply blind_migrateChild.
Qed.

(** Whatever the flag holds, and whether it is there at all, the migration
    returns the same result, sends the same requests and leaves the same
    tables. *)
Lemma flag_never_read (userId familyId : string) (w : World) (v : Item) :
  let run := migrateLocalStorageToSupabase userId familyId in
  let flagged := with_storage (<[MIGRATION_FLAG := v]> (storage w)) w in
  fst (run flagged) = fst (run w)
  /\ remote (snd (run flagged)) = remote (snd (run w))
  /\ journal (snd (run flagged)) = journal (snd (run w)).
Proof.
  intros run flagged. subst run. unfold migrateLocalStorageToSupabase.
  rewrite !bind_run. unfold getItem. cbn [fst snd].
  assert (Hkey : storage flagged !! STORAGE_KEY = storage w !! STORAGE_KEY).
  { unfold flagged. cbn [storage with_storage].
    apply lookup_insert_ne. discriminate. }
  rewrite Hkey.
  destruct (storage w !! STORAGE_KEY) as [[data|[|c t]]|]; try (repeat split).
  all: rewrite !bind_run; unfold flagged;
    rewrite (blind_migrateChildren familyId data w); reflexivity.
Qed.

(** *** The journal and the tables *)

Lemma hoare_ret {A : Type} (P : World -> Prop) (a : A) (Q : A -> World -> Prop) :
  (forall w, P w -> Q a w) -> hoare P (ret a) Q.
Proof. intros H w Hw. now apply H. Qed.

Lemma hoare_bind {A B : Type} (P : World -> Prop) (m : M A) (f : A -> M B)
  (Q : A -> World -> Prop) (R : B -> World -> Prop) :
  hoare P m Q -> (forall a, hoare (Q a) (f a) R) -> hoare P (bind m f) R.
Proof.
  intros Hm Hf w Hw. rewrite bind_run. apply Hf. now apply Hm.
Qed.

Lemma hoare_weaken {A : Type} (P P' : World -> Prop) (m : M A)
  (Q Q' : A -> World -> Prop) :
  hoare P' m Q' -> (forall w, P w -> P' w) -> (forall a w, Q' a w -> Q a w) ->
  hoare P m Q.
Proof. intros H HP HQ w Hw. apply HQ, H, HP, Hw. Qed.

Lemma insert_rows_spec {R : Type} (rows : list (string * R)) :
  forall tbl tbl' : gmap string R,
    insert_rows rows tbl = Some tbl' ->
    NoDup (map fst rows)
    /\ (forall k, k ∈ map fst rows -> tbl !! k = None /\ is_Some (tbl' !! k))
    /\ grows tbl tbl'.
Proof.
  induction rows as [|[k r] rows IH]; intros tbl tbl' H; simpl in H.
  - injection H as <-. split; [constructor|].
    split; [intros k Hk; inversion Hk | intros k Hk; exact Hk].
  - destruct (tbl !! k) eqn:Hk; [discriminate|].
    apply IH in H as (Hnd & Hkeys & Hgrow).
    assert (Hin : is_Some (tbl' !! k)).
    { apply Hgrow. rewrite lookup_insert_eq. eauto. }
    assert (Hnotin : k ∉ map fst rows).
    { intros Hk'. apply Hkeys in Hk' as [Hnone _].
      rewrite lookup_insert_eq in Hnone. discriminate. }
    split; [|split].
    + cbn [map fst]. apply NoDup_cons. split; assumption.
    + cbn [map fst]. intros k' Hk'. apply elem_of_cons in Hk' as [->|Hk'].
      * split; assumption.
      * destruct (Hkeys k' Hk') as [Hnone Hsome]. split; [|exact Hsome].
        destruct (decide (k = k')) as [->|Hne]; [contradiction|].
        now rewrite lookup_insert_ne in Hnone.
    + intros k' Hk'. apply Hgrow.
      destruct (decide (k = k')) as [->|Hne].
      * rewrite lookup_insert_eq. eauto.
      * now rewrite lookup_insert_ne.
Qed.

Lemma grows_refl {R : Type} (t : gmap string R) : grows t t.
Proof. intros id H. exact H. Qed.

Lemma grows_trans {R : Type} (a b c : gmap string R) :
  grows a b -> grows b c -> grows a c.
Proof. intros H1 H2 id H. apply H2, H1, H. Qed.

Lemma fresh_in_grows {R : Type} (base cur cur' : gmap string R) (ids : list string) :
  fresh_in base cur ids -> grows cur cur' -> fresh_in base cur' ids.
Proof.
  intros [Hnd H] Hg. split; [exact Hnd|].
  intros id Hid. destruct (H id Hid) as [Hb Hc]. split; [exact Hb | now apply Hg].
Qed.

Lemma fresh_in_insert {R : Type} (base cur cur' : gmap string R)
  (ids : list string) (rows : list (string * R)) :
  fresh_in base cur ids -> grows base cur ->
  insert_rows rows cur = Some cur' ->
  fresh_in base cur' (ids ++ map fst rows) /\ grows base cur'.
Proof.
  intros [Hnd H] Hg Hins.
  apply insert_rows_spec in Hins as (Hnd' & Hkeys & Hg').
  split; [|eapply grows_trans; eassumption].
  split.
  - apply NoDup_app. split; [exact Hnd|]. split; [|exact Hnd'].
    intros x Hx Hx'. destruct (H x Hx) as [_ [v Hv]].
    destruct (Hkeys x Hx') as [Hnone _]. congruence.
  - intros id Hid. apply elem_of_app in Hid as [Hid|Hid].
    + destruct (H id Hid) as [Hb Hc]. split; [exact Hb | now apply Hg'].
    + destruct (Hkeys id Hid) as [Hnone Hsome]. split; [|exact Hsome].
      destruct (base !! id) eqn:Hb; [|reflexivity].
      assert (Hc : is_Some (cur !! id)) by (apply Hg; rewrite Hb; eauto).
      destruct Hc as [v Hv]. congruence.
Qed.

Lemma inserted_children_app (a b : list Event) :
  inserted_children (a ++ b) = (inserted_children a ++ inserted_children b)%list.
Proof. apply List.flat_map_app. Qed.

Lemma inserted_tasks_app (a b : list Event) :
  inserted_tasks (a ++ b) = (inserted_tasks a ++ inserted_tasks b)%list.
Proof. apply List.flat_map_app. Qed.

Lemma inserted_rewards_app (a b : list Event) :
  inserted_rewards (a ++ b) = (inserted_rewards a ++ inserted_rewards b)%list.
Proof. apply List.flat_map_app. Qed.

Lemma batch_owners_app (a b : list Event) :
  batch_owners (a ++ b) = (batch_owners a ++ batch_owners b)%list.
Proof. apply List.flat_map_app. Qed.

Lemma owned_more (j0 : list Event) (c : string) (w w' : World) (e : Event) :
  owned j0 c w -> journal w' = (journal w ++ [e])%list -> owned j0 c w'.
Proof.
  intros (j & Hj & Hc) Hw'. exists (j ++ [e])%list. split.
  - rewrite Hw', Hj. now rewrite <- List.app_assoc.
  - rewrite inserted_children_app. apply elem_of_app. now left.
Qed.

(** The four ways a request moves the invariant on. *)

Lemma Inv_start (w : World) : Inv (remote w) (journal w) w.
Proof.
  exists []. rewrite List.app_nil_r. unfold fresh_in. simpl.
  repeat split; try apply grows_refl; try apply NoDup_nil_2;
    try (intros id Hid; inversion Hid);
    match goal with H : _ ∈ [] |- _ => inversion H end.
Qed.

Lemma Inv_quiet (base : Remote) (j0 : list Event) (w w' : World) (e : Event) :
  Inv base j0 w ->
  remote w' = remote w -> journal w' = (journal w ++ [e])%list ->
  inserted_children [e] = [] -> inserted_tasks [e] = [] ->
  inserted_rewards [e] = [] ->
  (forall c, c ∈ batch_owners [e] -> owned j0 c w) ->
  Inv base j0 w'.
Proof.
  intros (j & Hj & Hc & Ht & Hr & Gc & Gt & Gr & Ho) Hrem Hjou Ec Et Er Eo.
  exists (j ++ [e])%list. rewrite Hrem, Hjou, Hj, <- List.app_assoc.
  rewrite inserted_children_app, inserted_tasks_app, inserted_rewards_app,
    batch_owners_app, Ec, Et, Er, !List.app_nil_r.
  repeat (split; [assumption || reflexivity|]).
  intros c Hc'. apply elem_of_app in Hc' as [Hc'|Hc']; [now apply Ho|].
  destruct (Eo c Hc') as (j' & Hj' & Hin).
  rewrite Hj in Hj'. apply List.app_inv_head in Hj'. now subst j'.
Qed.

Lemma Inv_storage (base : Remote) (j0 : list Event) (w w' : World) :
  Inv base j0 w -> remote w' = remote w -> journal w' = journal w ->
  Inv base j0 w'.
Proof.
  intros (j & Hj & H) Hrem Hjou. exists j. rewrite Hrem, Hjou. now split.
Qed.

Lemma Inv_child_inserted (base : Remote) (j0 : list Event) (w w' : World)
  (row : ChildRow) (tbl : gmap string ChildRow) :
  Inv base j0 w ->
  insert_rows [(row_id row, row)] (children_tbl (remote w)) = Some tbl ->
  remote w' = {| children_tbl := tbl; tasks_tbl := tasks_tbl (remote w);
                 rewards_tbl := rewards_tbl (remote w) |} ->
  journal w' = (journal w ++ [InsertChild (row_id row) true])%list ->
  Inv base j0 w' /\ owned j0 (row_id row) w'.
Proof.
  intros (j & Hj & Hc & Ht & Hr & Gc & Gt & Gr & Ho) Hins Hrem Hjou.
  destruct (fresh_in_insert _ _ _ _ _ Hc Gc Hins) as [Hc' Gc'].
  assert (Hjou' : journal w' = (j0 ++ (j ++ [InsertChild (row_id row) true]))%list).
  { rewrite Hjou, Hj. now rewrite <- List.app_assoc. }
  split.
  - exists (j ++ [InsertChild (row_id row) true])%list.
    rewrite Hrem. cbn [children_tbl tasks_tbl rewards_tbl].
    rewrite inserted_children_app, inserted_tasks_app, inserted_rewards_app,
      batch_owners_app. simpl. rewrite !List.app_nil_r.
    repeat (split; [assumption|]).
    intros c Hc0. apply elem_of_app. left. now apply Ho.
  - exists (j ++ [InsertChild (row_id row) true])%list. split; [exact Hjou'|].
    rewrite inserted_children_app. apply elem_of_app. right. simpl.
    apply list_elem_of_here.
Qed.

Lemma Inv_tasks_inserted (base : Remote) (j0 : list Event) (w w' : World)
  (cid : string) (rows : list (string * TaskRow)) (tbl : gmap string TaskRow) :
  Inv base j0 w -> owned j0 cid w ->
  insert_rows rows (tasks_tbl (remote w)) = Some tbl ->
  remote w' = {| children_tbl := children_tbl (remote w); tasks_tbl := tbl;
                 rewards_tbl := rewards_tbl (remote w) |} ->
  journal w' = (journal w ++ [InsertTasks cid (map fst rows) true])%list ->
  Inv base j0 w'.
Proof.
  intros (j & Hj & Hc & Ht & Hr & Gc & Gt & Gr & Ho) (j' & Hj' & Hown) Hins Hrem Hjou.
  rewrite Hj in Hj'. apply List.app_inv_head in Hj'. subst j'.
  destruct (fresh_in_insert _ _ _ _ _ Ht Gt Hins) as [Ht' Gt'].
  exists (j ++ [InsertTasks cid (map fst rows) true])%list.
  rewrite Hrem, Hjou, Hj, <- List.app_assoc.
  cbn [children_tbl tasks_tbl rewards_tbl].
  rewrite inserted_children_app, inserted_tasks_app, inserted_rewards_app,
    batch_owners_app. simpl. rewrite !List.app_nil_r.
  repeat (split; [assumption || reflexivity|]).
  intros c Hc0. apply elem_of_app in Hc0 as [Hc0|Hc0]; [now apply Ho|].
  apply list_elem_of_singleton in Hc0. now subst c.
Qed.

Lemma Inv_rewards_inserted (base : Remote) (j0 : list Event) (w w' : World)
  (cid : string) (rows : list (string * RewardRow)) (tbl : gmap string RewardRow) :
  Inv base j0 w -> owned j0 cid w ->
  insert_rows rows (rewards_tbl (remote w)) = Some tbl ->
  remote w' = {| children_tbl := children_tbl (remote w);
                 tasks_tbl := tasks_tbl (remote w); rewards_tbl := tbl |} ->
  journal w' = (journal w ++ [InsertRewards cid (map fst rows) true])%list ->
  Inv base j0 w'.
Proof.
  intros (j & Hj & Hc & Ht & Hr & Gc & Gt & Gr & Ho) (j' & Hj' & Hown) Hins Hrem Hjou.
  rewrite Hj in Hj'. apply List.app_inv_head in Hj'. subst j'.
  destruct (fresh_in_insert _ _ _ _ _ Hr Gr Hins) as [Hr' Gr'].
  exists (j ++ [InsertRewards cid (map fst rows) true])%list.
  rewrite Hrem, Hjou, Hj, <- List.app_assoc.
  cbn [children_tbl tasks_tbl rewards_tbl].
  rewrite inserted_children_app, inserted_tasks_app, inserted_rewards_app,
    batch_owners_app. simpl. rewrite !List.app_nil_r.
  repeat (split; [assumption || reflexivity|]).
  intros c Hc0. apply elem_of_app in Hc0 as [Hc0|Hc0]; [now apply Ho|].
  apply list_elem_of_singleton in Hc0. now subst c.
Qed.

(** *** The requests keep the invariant *)

Lemma select_child_spec (base : Remote) (j0 : list Event) (id : string) :
  hoare (Inv base j0) (select_child id) (fun _ w => Inv base j0 w).
Proof.
  intros w Hw. unfold select_child, reach, getRemote, log, ret, bind.
  destruct (net w) as [|b rest]; cbn [fst snd remote journal];
    (eapply Inv_quiet; [exact Hw | reflexivity | reflexivity | reflexivity
                       | reflexivity | reflexivity | intros c Hc; inversion Hc]).
Qed.

Lemma insert_child_spec (base : Remote) (j0 : list Event) (row : ChildRow) :
  hoare (Inv base j0) (insert_child row)
    (fun ok w => Inv base j0 w /\ (ok = true -> owned j0 (row_id row) w)).
Proof.
  intros w Hw. unfold insert_child, reach, getRemote, setRemote, log, ret, bind.
  destruct (net w) as [|b rest]; cbn [fst snd remote journal].
  - destruct (insert_rows _ _) as [tbl|] eqn:Hins; cbn [fst snd].
    + destruct (Inv_child_inserted base j0 w
                  {| remote := {| children_tbl := tbl;
                                  tasks_tbl := tasks_tbl (remote w);
                                  rewards_tbl := rewards_tbl (remote w) |};
                     storage := storage w; net := [];
                     journal := (journal w ++ [InsertChild (row_id row) true])%list |}
                  row tbl Hw Hins eq_refl eq_refl) as [Hi Ho].
      split; [exact Hi | intros _; exact Ho].
    + split; [|discriminate].
      eapply Inv_quiet; [exact Hw | reflexivity | reflexivity | reflexivity
                        | reflexivity | reflexivity | intros c Hc; inversion Hc].
  - destruct b.
    + destruct (insert_rows _ _) as [tbl|] eqn:Hins; cbn [fst snd].
      * destruct (Inv_child_inserted base j0
                    {| remote := remote w; storage := storage w; net := rest;
                       journal := journal w |}
                    {| remote := {| children_tbl := tbl;
                                    tasks_tbl := tasks_tbl (remote w);
                                    rewards_tbl := rewards_tbl (remote w) |};
                       storage := storage w; net := rest;
                       journal := (journal w ++ [InsertChild (row_id row) true])%list |}
                    row tbl) as [Hi Ho];
          [eapply Inv_storage; [exact Hw | reflexivity | reflexivity]
          | exact Hins | reflexivity | reflexivity |].
        split; [exact Hi | intros _; exact Ho].
      * split; [|discriminate].
        eapply Inv_quiet; [exact Hw | reflexivity | reflexivity | reflexivity
                          | reflexivity | reflexivity | intros c Hc; inversion Hc].
    + cbn [fst snd]. split; [|discriminate].
      eapply Inv_quiet; [exact Hw | reflexivity | reflexivity | reflexivity
                        | reflexivity | reflexivity | intros c Hc; inversion Hc].
Qed.

Ltac owner_of_batch Ho :=
  let c := fresh "c" in
  let Hc := fresh "Hc" in
  intros c Hc; simpl in Hc; apply list_elem_of_singleton in Hc; subst c; exact Ho.

Lemma insert_tasks_spec (base : Remote) (j0 : list Event) (cid : string)
  (rows : list TaskRow) :
  hoare (fun w => Inv base j0 w /\ owned j0 cid w) (insert_tasks cid rows)
    (fun _ w => Inv base j0 w /\ owned j0 cid w).
Proof.
  intros w [Hw Ho].
  unfold insert_tasks, reach, getRemote, setRemote, log, ret, bind.
  set (keyed := map (fun row => (task_id (trow_task row), row)) rows).
  assert (Hfail : forall nt,
            let w' := {| remote := remote w; storage := storage w; net := nt;
                         journal := (journal w
                                     ++ [InsertTasks cid (map fst keyed) false])%list |} in
            Inv base j0 w' /\ owned j0 cid w').
  { intros nt w'. split; [|eapply owned_more; [exact Ho | reflexivity]].
    eapply Inv_quiet; [exact Hw | reflexivity..| owner_of_batch Ho]. }
  assert (Hok : forall nt tbl,
            insert_rows keyed (tasks_tbl (remote w)) = Some tbl ->
            let w' := {| remote := {| children_tbl := children_tbl (remote w);
                                      tasks_tbl := tbl;
                                      rewards_tbl := rewards_tbl (remote w) |};
                         storage := storage w; net := nt;
                         journal := (journal w
                                     ++ [InsertTasks cid (map fst keyed) true])%list |} in
            Inv base j0 w' /\ owned j0 cid w').
  { intros nt tbl Hins w'. split; [|eapply owned_more; [exact Ho | reflexivity]].
    eapply Inv_tasks_inserted; [exact Hw | exact Ho | exact Hins
                               | reflexivity | reflexivity]. }
  destruct (net w) as [|[|] rest]; cbn [fst snd remote journal storage net];
    try (destruct (insert_rows keyed (tasks_tbl (remote w))) as [tbl|] eqn:Hins;
         cbn [fst snd remote journal storage net]);
    first [exact (Hok _ _ eq_refl) | exact (Hfail _)].
Qed.

Lemma insert_rewards_spec (base : Remote) (j0 : list Event) (cid : string)
  (rows : list RewardRow) :
  hoare (fun w => Inv base j0 w /\ owned j0 cid w) (insert_rewards cid rows)
    (fun _ w => Inv base j0 w /\ owned j0 cid w).
Proof.
  intros w [Hw Ho].
  unfold insert_rewards, reach, getRemote, setRemote, log, ret, bind.
  set (keyed := map (fun row => (reward_id (rrow_reward row), row)) rows).
  assert (Hfail : forall nt,
            let w' := {| remote := remote w; storage := storage w; net := nt;
                         journal := (journal w
                                     ++ [InsertRewards cid (map fst keyed) false])%list |} in
            Inv base j0 w' /\ owned j0 cid w').
  { intros nt w'. split; [|eapply owned_more; [exact Ho | reflexivity]].
    eapply Inv_quiet; [exact Hw | reflexivity..| owner_of_batch Ho]. }
  assert (Hok : forall nt tbl,
            insert_rows keyed (rewards_tbl (remote w)) = Some tbl ->
            let w' := {| remote := {| children_tbl := children_tbl (remote w);
                                      tasks_tbl := tasks_tbl (remote w);
                                      rewards_tbl := tbl |};
                         storage := storage w; net := nt;
                         journal := (journal w
                                     ++ [InsertRewards cid (map fst keyed) true])%list |} in
            Inv base j0 w' /\ owned j0 cid w').
  { intros nt tbl Hins w'. split; [|eapply owned_more; [exact Ho | reflexivity]].
    eapply Inv_rewards_inserted; [exact Hw | exact Ho | exact Hins
                                 | reflexivity | reflexivity]. }
  destruct (net w) as [|[|] rest]; cbn [fst snd remote journal storage net];
    try (destruct (insert_rows keyed (rewards_tbl (remote w))) as [tbl|] eqn:Hins;
         cbn [fst snd remote journal storage net]);
    first [exact (Hok _ _ eq_refl) | exact (Hfail _)].
Qed.

Lemma migrateChild_spec (base : Remote) (j0 : list Event) (familyId : string)
  (child : Child) :
  hoare (Inv base j0) (migrateChild familyId child) (fun _ w => Inv base j0 w).
Proof.
  unfold migrateChild.
  eapply hoare_bind; [apply select_child_spec|].
  intros [existing|]; [apply hoare_ret; auto|].
  eapply hoare_bind; [apply insert_child_spec|].
  intros [|]; cbn [negb]; [|apply hoare_ret; tauto].
  change (row_id (childRow familyId child)) with (child_id child).
  apply (hoare_weaken _
           (fun w => Inv base j0 w /\ owned j0 (child_id child) w) _ _
           (fun _ w => Inv base j0 w));
    [ | intros w0 [Hw Ho]; split; [exact Hw | now apply Ho]
      | intros a0 w0 Hw; exact Hw ].
  eapply (hoare_bind _ _ _
            (fun _ w => Inv base j0 w /\ owned j0 (child_id child) w)).
  - destruct (child_tasks child) as [|t ts].
    + apply hoare_ret. auto.
    + eapply hoare_bind; [apply insert_tasks_spec|].
      intros ?. apply hoare_ret. auto.
  - intros ?. destruct (child_rewards child) as [|r rs].
    + apply hoare_ret. tauto.
    + eapply hoare_bind; [apply insert_rewards_spec|].
      intros ?. apply hoare_ret. tauto.
Qed.

Lemma forEach_spec {A : Type} (P : World -> Prop) (body : A -> M unit)
  (xs : list A) :
  (forall x, hoare P (body x) (fun _ w => P w)) ->
  hoare P (forEach xs body) (fun _ w => P w).
Proof.
  intros Hbody. induction xs as [|x xs IH]; cbn [forEach].
  - apply hoare_ret. auto.
  - eapply hoare_bind; [apply Hbody | intros ?; exact IH].
Qed.

Lemma migrate_spec (base : Remote) (j0 : list Event) (userId familyId : string) :
  hoare (Inv base j0) (migrateLocalStorageToSupabase userId familyId)
    (fun _ w => Inv base j0 w).
Proof.
  unfold migrateLocalStorageToSupabase.
  eapply (hoare_bind _ _ _ (fun _ w => Inv base j0 w)).
  - intros w Hw. exact Hw.
  - intros [[data|[|c t]]|]; try (apply hoare_ret; auto).
    eapply (hoare_bind _ _ _ (fun _ w => Inv base j0 w)).
    + unfold migrateChildren.
      destruct (ls_children data) as [[|c cs]|]; try (apply hoare_ret; auto).
      apply forEach_spec. intros x. apply migrateChild_spec.
    + intros ?. eapply (hoare_bind _ _ _ (fun _ w => Inv base j0 w)).
      * intros w Hw. eapply Inv_storage; [exact Hw | reflexivity | reflexivity].
      * intros ?. apply hoare_ret. auto.
Qed.

(** A child the existence check finds is skipped: the iteration sends no
    other request and changes no table. *)
Lemma migrateChild_skip (familyId : string) (child : Child) (w : World) :
  is_Some (children_tbl (remote w) !! child_id child) ->
  hd true (net w) = true ->
  migrateChild familyId child w
  = (tt, {| remote := remote w; storage := storage w; net := tl (net w);
            journal := (journal w ++ [SelectChild (child_id child) true])%list |}).
Proof.
  intros [row Hrow] Hnet.
  unfold migrateChild, select_child, reach, getRemote, log, ret, bind.
  assert (Hfound : bool_decide (is_Some (Some row)) = true)
    by (apply bool_decide_eq_true_2; eauto).
  destruct (net w) as [|b rest] eqn:Hn; cbn [hd tl] in *.
  - cbn [fst snd remote journal storage net]. now rewrite Hrow, Hfound, Hn.
  - subst b. cbn [fst snd remote journal storage net]. now rewrite Hrow, Hfound.
Qed.

(** *** Runs in which every request is answered *)

Lemma insert_tasks_frame (cid : string) (rows : list TaskRow) (w : World) :
  let w' := snd (insert_tasks cid rows w) in
  children_tbl (remote w') = children_tbl (remote w)
  /\ storage w' = storage w
  /\ (net w = [] -> net w' = []).
Proof.
  unfold insert_tasks, reach, getRemote, setRemote, log, ret, bind.
  destruct (net w) as [|[|] rest] eqn:Hn; cbn [fst snd remote journal storage net];
    try (destruct (insert_rows _ (tasks_tbl (remote w))) as [tbl|]);
    cbn [fst snd remote journal storage net children_tbl];
    repeat split; auto; discriminate.
Qed.

Lemma insert_rewards_frame (cid : string) (rows : list RewardRow) (w : World) :
  let w' := snd (insert_rewards cid rows w) in
  children_tbl (remote w') = children_tbl (remote w)
  /\ storage w' = storage w
  /\ (net w = [] -> net w' = []).
Proof.
  unfold insert_rewards, reach, getRemote, setRemote, log, ret, bind.
  destruct (net w) as [|[|] rest] eqn:Hn; cbn [fst snd remote journal storage net];
    try (destruct (insert_rows _ (rewards_tbl (remote w))) as [tbl|]);
    cbn [fst snd remote journal storage net children_tbl];
    repeat split; auto; discriminate.
Qed.

Lemma select_child_answered (id : string) (w : World) :
  net w = [] ->
  select_child id w
  = (children_tbl (remote w) !! id,
     {| remote := remote w; storage := storage w; net := [];
        journal := (journal w
                    ++ [SelectChild id
                          (bool_decide (is_Some (children_tbl (remote w) !! id)))])%list |}).
Proof.
  intros Hn. unfold select_child, reach, getRemote, log, ret, bind.
  rewrite Hn. cbn [fst snd remote journal storage net]. now rewrite Hn.
Qed.

Lemma insert_child_answered (row : ChildRow) (w : World) :
  net w = [] -> children_tbl (remote w) !! row_id row = None ->
  insert_child row w
  = (true,
     {| remote := {| children_tbl := <[row_id row := row]> (children_tbl (remote w));
                     tasks_tbl := tasks_tbl (remote w);
                     rewards_tbl := rewards_tbl (remote w) |};
        storage := storage w; net := [];
        journal := (journal w ++ [InsertChild (row_id row) true])%list |}).
Proof.
  intros Hn Hrow. unfold insert_child, reach, getRemote, setRemote, log, ret, bind.
  rewrite Hn. cbn [fst snd remote journal storage net insert_rows].
  rewrite Hrow. cbn [fst snd remote journal storage net]. now rewrite Hn.
Qed.

(** When every request is answered, an iteration leaves its child in the
    table and removes no child. *)
Lemma migrateChild_present (familyId : string) (child : Child) (w : World) :
  net w = [] ->
  let w' := snd (migrateChild familyId child w) in
  net w' = []
  /\ storage w' = storage w
  /\ is_Some (children_tbl (remote w') !! child_id child)
  /\ grows (children_tbl (remote w)) (children_tbl (remote w')).
Proof.
  intros Hn. destruct (children_tbl (remote w) !! child_id child) as [row|] eqn:Hrow.
  - rewrite migrateChild_skip by (rewrite ?Hn; eauto).
    cbn [snd net storage remote]. rewrite Hn.
    repeat split; [rewrite Hrow; eauto | apply grows_refl].
  - unfold migrateChild.
    rewrite bind_run, select_child_answered by exact Hn.
    cbn [fst snd]. rewrite Hrow.
    rewrite bind_run, insert_child_answered
      by (cbn [net remote row_id childRow]; first [reflexivity | exact Hrow]).
    cbn [fst snd negb remote journal storage net childRow row_id].
    rewrite bind_run.
    set (w1 := {| remote := _; storage := storage w; net := []; journal := _ |}).
    assert (H1 : net w1 = [] /\ storage w1 = storage w
                 /\ children_tbl (remote w1)
                    = <[child_id child := childRow familyId child]>
                        (children_tbl (remote w)))
      by (repeat split).
    clearbody w1.
    set (tasksStep := match child_tasks child with [] => ret tt | _ => _ end).
    assert (H2 : net (snd (tasksStep w1)) = []
                 /\ storage (snd (tasksStep w1)) = storage w
                 /\ children_tbl (remote (snd (tasksStep w1)))
                    = children_tbl (remote w1)).
    { subst tasksStep. destruct H1 as (N1 & S1 & _).
      destruct (child_tasks child) as [|t ts]; [repeat split; assumption|].
      rewrite bind_run. cbn [ret snd].
      destruct (insert_tasks_frame (child_id child)
                  (map (fun task => {| trow_child_id := child_id child;
                                       trow_task := task |}) (t :: ts)) w1)
        as (C & S & N).
      repeat split; [now apply N | congruence | exact C]. }
    set (w2 := snd (tasksStep w1)) in *. clearbody w2.
    assert (H3 : forall w3 : World,
              (net w3 = [] /\ storage w3 = storage w
               /\ children_tbl (remote w3) = children_tbl (remote w1)) ->
              net w3 = [] /\ storage w3 = storage w
              /\ is_Some (children_tbl (remote w3) !! child_id child)
              /\ grows (children_tbl (remote w)) (children_tbl (remote w3))).
    { intros w3 (N3 & S3 & C3). destruct H1 as (_ & _ & C1).
      rewrite C3, C1. repeat split; try assumption.
      - rewrite lookup_insert_eq. eauto.
      - intros id Hid. destruct (decide (child_id child = id)) as [->|Hne].
        + rewrite lookup_insert_eq. eauto.
        + now rewrite lookup_insert_ne. }
    destruct (child_rewards child) as [|r rs].
    + cbn [ret snd]. now apply H3.
    + rewrite bind_run. cbn [ret snd]. apply H3.
      destruct (insert_rewards_frame (child_id child)
                  (map (fun reward => {| rrow_child_id := child_id child;
                                         rrow_reward := reward |}) (r :: rs)) w2)
        as (C & S & N).
      destruct H2 as (N2 & S2 & C2).
      repeat split; [now apply N | congruence | congruence].
Qed.

(** After a loop in which every request is answered, every child of the
    list is in the table. *)
Lemma forEach_present (familyId : string) (cs : list Child) :
  forall w, net w = [] ->
    let w' := snd (forEach cs (migrateChild familyId) w) in
    net w' = [] /\ storage w' = storage w
    /\ grows (children_tbl (remote w)) (children_tbl (remote w'))
    /\ forall c, In c cs -> is_Some (children_tbl (remote w') !! child_id c).
Proof.
  induction cs as [|c cs IH]; intros w Hn; cbn [forEach].
  - cbn [ret snd]. repeat split; auto using grows_refl. intros c [].
  - rewrite bind_run.
    destruct (migrateChild_present familyId c w Hn) as (N1 & S1 & P1 & G1).
    destruct (IH _ N1) as (N2 & S2 & G2 & P2).
    repeat split; [exact N2 | congruence | eapply grows_trans; eassumption|].
    intros c' [<-|Hc']; [now apply G2 | now apply P2].
Qed.

(** A loop over children that are all in the table, every request being
    answered, is a sequence of existence checks. *)
Lemma forEach_all_skip (familyId : string) (cs : list Child) :
  forall w, net w = [] ->
    (forall c, In c cs -> is_Some (children_tbl (remote w) !! child_id c)) ->
    forEach cs (migrateChild familyId) w
    = (tt, {| remote := remote w; storage := storage w; net := [];
              journal := (journal w
                          ++ map (fun c => SelectChild (child_id c) true) cs)%list |}).
Proof.
  induction cs as [|c cs IH]; intros w Hn Hall; cbn [forEach map].
  - unfold ret. rewrite List.app_nil_r. destruct w. cbn in *. now subst.
  - rewrite bind_run, migrateChild_skip
      by (rewrite ?Hn; first [reflexivity | apply Hall; now left]).
    cbn [fst snd]. rewrite IH.
    + cbn [remote storage journal]. now rewrite <- List.app_assoc.
    + cbn [net]. now rewrite Hn.
    + intros c' Hc'. cbn [remote]. apply Hall. now right.
Qed.

Lemma migrate_snapshot_run (userId familyId : string) (w : World)
  (data : LocalStorageData) :
  storage w !! STORAGE_KEY = Some (Snapshot data) ->
  migrateLocalStorageToSupabase userId familyId w
  = (true,
     let wl := snd (migrateChildren familyId data w) in
     with_storage (<[MIGRATION_FLAG := Raw "true"]> (storage wl)) wl).
Proof.
  intros Hsnap. unfold migrateLocalStorageToSupabase.
  rewrite bind_run. unfold getItem at 1 2. cbn [fst snd]. rewrite Hsnap.
  rewrite !bind_run. reflexivity.
Qed.

Lemma migrate_no_snapshot_run (userId familyId : string) (w : World) :
  (forall data, storage w !! STORAGE_KEY <> Some (Snapshot data)) ->
  snd (migrateLocalStorageToSupabase userId familyId w) = w.
Proof.
  intros Hno. unfold migrateLocalStorageToSupabase.
  rewrite bind_run. unfold getItem at 1 2. cbn [fst snd].
  destruct (storage w !! STORAGE_KEY) as [[data|[|c t]]|]; try reflexivity.
  now destruct (Hno data).
Qed.

Lemma migrateChildren_present (familyId : string) (data : LocalStorageData)
  (w : World) :
  net w = [] ->
  let w' := snd (migrateChildren familyId data w) in
  net w' = [] /\ storage w' = storage w
  /\ forall c, In c (default [] (ls_children data)) ->
       is_Some (children_tbl (remote w') !! child_id c).
Proof.
  intros Hn. unfold migrateChildren.
  destruct (ls_children data) as [[|c cs]|];
    try (cbn [ret snd default]; repeat split; auto; intros c0 []).
  destruct (forEach_present familyId (c :: cs) w Hn) as (N & S & _ & P).
  repeat split; assumption.
Qed.

Lemma migrateChildren_all_skip (familyId : string) (data : LocalStorageData)
  (w : World) :
  net w = [] ->
  (forall c, In c (default [] (ls_children data)) ->
     is_Some (children_tbl (remote w) !! child_id c)) ->
  let w' := snd (migrateChildren familyId data w) in
  remote w' = remote w
  /\ journal w'
     = (journal w ++ map (fun c => SelectChild (child_id c) true)
                       (default [] (ls_children data)))%list.
Proof.
  intros Hn Hall. unfold migrateChildren.
  destruct (ls_children data) as [[|c cs]|];
    try (cbn [ret snd default map]; now rewrite List.app_nil_r).
  cbn [default] in *. rewrite forEach_all_skip by assumption.
  split; reflexivity.
Qed.

(** With every request answered, a second run changes no table and sends
    nothing but existence checks, all of them answered "found". *)
Lemma migration_idempotent (userId familyId : string) (w0 : World) :
  net w0 = [] ->
  let w1 := snd (migrateLocalStorageToSupabase userId familyId w0) in
  let w2 := snd (migrateLocalStorageToSupabase userId familyId w1) in
  remote w2 = remote w1
  /\ exists cs, journal w2
                = (journal w1 ++ map (fun c => SelectChild (child_id c) true) cs)%list.
Proof.
  intros Hn w1 w2.
  destruct (storage w0 !! STORAGE_KEY) as [[data|txt]|] eqn:Hsnap.
  - subst w2 w1. rewrite (migrate_snapshot_run _ _ w0 data Hsnap). cbn [snd].
    destruct (migrateChildren_present familyId data w0 Hn) as (N1 & S1 & P1).
    set (wl := snd (migrateChildren familyId data w0)) in *.
    set (w1 := with_storage _ wl).
    assert (Hsnap1 : storage w1 !! STORAGE_KEY = Some (Snapshot data)).
    { subst w1. cbn [storage with_storage].
      rewrite lookup_insert_ne by discriminate. now rewrite S1. }
    rewrite (migrate_snapshot_run _ _ w1 data Hsnap1). cbn [snd].
    destruct (migrateChildren_all_skip familyId data w1) as (R2 & J2);
      [exact N1 | exact P1 |].
    cbn [remote journal with_storage]. split; [exact R2|].
    exists (default [] (ls_children data)). exact J2.
  - assert (H0 : forall data, storage w0 !! STORAGE_KEY <> Some (Snapshot data))
      by (intros data; rewrite Hsnap; discriminate).
    subst w2 w1. rewrite !(migrate_no_snapshot_run _ _ w0 H0).
    split; [reflexivity | exists []; now rewrite List.app_nil_r].
  - assert (H0 : forall data, storage w0 !! STORAGE_KEY <> Some (Snapshot data))
      by (intros data; rewrite Hsnap; discriminate).
    subst w2 w1. rewrite !(migrate_no_snapshot_run _ _ w0 H0).
    split; [reflexivity | exists []; now rewrite List.app_nil_r].
Qed.

(** C5. Run the migration twice in succession, from any remote tables, any
    local storage and any pattern of failing requests.  Over both runs every
    child row, task row and reward row is inserted at most once, and only
    rows whose key was not in the table at the start.  The second run
    inserts only children that were still absent after the first, and
    requests task and reward batches only for the children it inserts
    itself; when every request is answered it changes no table and sends
    existence checks only.  A child found by the existence check is skipped
    without any further request. *)
Theorem migration_twice_at_most_once (rem : Remote) (sto : gmap string Item)
  (nt : list bool) (userId familyId : string) :
  let w0 := {| remote := rem; storage := sto; net := nt; journal := [] |} in
  let w1 := snd (migrateLocalStorageToSupabase userId familyId w0) in
  let w2 := snd (migrateLocalStorageToSupabase userId familyId w1) in
  exists j2,
    journal w2 = (journal w1 ++ j2)%list
    /\ NoDup (inserted_children (journal w2))
    /\ NoDup (inserted_tasks (journal w2))
    /\ NoDup (inserted_rewards (journal w2))
    /\ (forall id, id ∈ inserted_children (journal w2) ->
          children_tbl rem !! id = None)
    /\ (forall id, id ∈ inserted_tasks (journal w2) -> tasks_tbl rem !! id = None)
    /\ (forall id, id ∈ inserted_rewards (journal w2) ->
          rewards_tbl rem !! id = None)
    /\ (forall id, id ∈ inserted_children j2 ->
          children_tbl (remote w1) !! id = None)
    /\ (forall c, c ∈ batch_owners j2 -> c ∈ inserted_children j2)
    /\ (nt = [] ->
        remote w2 = remote w1
        /\ exists cs, j2 = map (fun c => SelectChild (child_id c) true) cs)
    /\ (forall child w,
          is_Some (children_tbl (remote w) !! child_id child) ->
          hd true (net w) = true ->
          migrateChild familyId child w
          = (tt, {| remote := remote w; storage := storage w; net := tl (net w);
                    journal := (journal w
                                ++ [SelectChild (child_id child) true])%list |})).
Proof.
  intros w0 w1 w2.
  assert (H1 : Inv rem [] w1)
    by exact (migrate_spec rem [] userId familyId w0 (Inv_start w0)).
  assert (H2 : Inv rem [] w2)
    by exact (migrate_spec rem [] userId familyId w1 H1).
  assert (H3 : Inv (remote w1) (journal w1) w2)
    by exact (migrate_spec _ _ userId familyId w1 (Inv_start w1)).
  destruct H2 as (j & Hj & [Nc Fc] & [Nt Ft] & [Nr Fr] & _).
  destruct H3 as (j2 & Hj2 & [_ Fc2] & _ & _ & _ & _ & _ & Ho2).
  cbn [app] in Hj. rewrite <- Hj in *.
  exists j2. split; [exact Hj2|].
  repeat (split; [assumption|]).
  split; [intros id Hid; now apply Fc|].
  split; [intros id Hid; now apply Ft|].
  split; [intros id Hid; now apply Fr|].
  split; [intros id Hid; now apply Fc2|].
  split; [exact Ho2|].
  split; [|intros child w; apply migrateChild_skip].
  intros Hnt.
  destruct (migration_idempotent userId familyId w0 Hnt) as (Hrem & cs & Hcs).
  split; [exact Hrem|]. exists cs.
  fold w1 w2 in Hcs. rewrite Hj2 in Hcs. now apply List.app_inv_head in Hcs.
Qed.

(** Two runs with failing requests: the first inserts the child but the
    request for its tasks fails; the second finds the child and skips it. *)
Example migration_twice_example :
  let task := task_with_id_recurrence ParentDashboard.defaultTask "t_1" None in
  let w0 :=
    {| remote := emptyRemote;
       storage := <[STORAGE_KEY := sampleSnapshot [sampleKid "c_1" [task] []]]> ∅;
       net := [true; true; false]; journal := [] |} in
  let w1 := snd (migrateLocalStorageToSupabase "u_1" "fam_1" w0) in
  let w2 := snd (migrateLocalStorageToSupabase "u_1" "fam_1" w1) in
  journal w2
  = [SelectChild "c_1" false; InsertChild "c_1" true;
     InsertTasks "c_1" ["t_1"] false; SelectChild "c_1" true].
Proof. vm_compute. reflexivity. Qed.

(** ** The recurrence expander *)

(** C6. For a rule of frequency [weekly] with a non-empty [daysOfWeek] and a
    reference date not after the rule's [endDate], there is an occurrence on
    the date if and only if its day of the week is in [daysOfWeek]. *)
Theorem weekly_occurrence (rule : Recurrence.RecurrenceRule)
  (referenceDate : Recurrence.CalendarDate) :
  Recurrence.frequency rule = Weekly ->
  Recurrence.daysOfWeek rule <> [] ->
  (forall e, Recurrence.endDate rule = Some e -> referenceDate <= e) ->
  Recurrence.occursOn rule referenceDate = true
  <-> In (Recurrence.dayOfWeek referenceDate) (Recurrence.daysOfWeek rule).
Proof.
  intros Hfreq _ Hend. unfold Recurrence.occursOn, Recurrence.notAfterEnd.
  rewrite Hfreq.
  assert (Hin : (match Recurrence.endDate rule with
                 | Some e => referenceDate <=? e
                 | None => true
                 end) = true).
  { destruct (Recurrence.endDate rule) as [e|]; [|reflexivity].
    apply Z.leb_le. now apply Hend. }
  rewrite Hin. cbn [andb]. rewrite List.existsb_exists. split.
  - intros (d & Hd & Heq). apply Z.eqb_eq in Heq. now rewrite Heq.
  - intros H. exists (Recurrence.dayOfWeek referenceDate).
    split; [exact H | apply Z.eqb_refl].
Qed.

(** Monday, Wednesday and Friday until 2024-01-14: the occurrences in the
    three weeks from Monday 2024-01-01 (day 19723) are the six such days up
    to the end date. *)
Lemma weekly_occurrence_witness :
  let rule :=
    {| Recurrence.frequency := Weekly; Recurrence.daysOfWeek := [1; 3; 5];
       Recurrence.dayOfMonth := None; Recurrence.endDate := Some 19736 |} in
  (Recurrence.occursOn rule 19723 = true
   <-> In (Recurrence.dayOfWeek 19723) [1; 3; 5])
  /\ Recurrence.occurrences rule 19723 21
     = [19723; 19725; 19727; 19730; 19732; 19734].
Proof.
  intros rule. split; [|vm_compute; reflexivity].
  apply (weekly_occurrence rule 19723).
  - reflexivity.
  - discriminate.
  - intros e [= <-]. lia.
Defined.

(* ===================================================================== *)
(** * Further properties of the code *)
(* ===================================================================== *)

(** ** The two views on time strings *)

Lemma ge_not_lt (x y : JsNum) : ge x y = true -> lt x y = false.
Proof.
  destruct x as [|a|a], y as [|b|b]; simpl; try discriminate; auto.
  - destruct a, b; simpl; auto; discriminate.
  - intros H. now apply negb_true_iff in H.
  - intros ->. reflexivity.
  - intros ->. reflexivity.
Qed.

Lemma not_ge_not_eqn (x y : JsNum) : ge x y = false -> eqn x y = false.
Proof.
  destruct x as [|a|a], y as [|b|b]; simpl; auto.
  - destruct a, b; simpl; auto; discriminate.
  - intros H. destruct (Qeq_bool a b) eqn:He; [|reflexivity].
    apply Qeq_bool_iff in He.
    assert (Hle : Qle_bool b a = true).
    { apply Qle_bool_iff. rewrite He. apply Qle_refl. }
    congruence.
Qed.

(** The period the dashboard assumes when the text has none never changes
    the hour: "PM" is assumed only from 12 on, "AM" only below 12. *)
Lemma default_period_idle (hours : JsNum) :
  (let period := if ge hours (Int 12) then "PM" else "AM" in
   let h1 := if String.eqb period "PM" && lt hours (Int 12)
             then add hours (Int 12) else hours in
   if String.eqb period "AM" && eqn h1 (Int 12) then Int 0 else h1) = hours.
Proof.
  cbv zeta. destruct (ge hours (Int 12)) eqn:Hge.
  - rewrite (ge_not_lt _ _ Hge). reflexivity.
  - change ("AM" =? "PM")%string with false. cbn [andb].
    rewrite (not_ge_not_eqn _ _ Hge). reflexivity.
Qed.

(** What both views show for every minute of the day, checked by
    evaluation: the same text, which the validator accepts. *)
Lemma display_checked :
  forallb (fun m =>
    forallb (fun mode =>
      String.eqb (ChildPortal.displayMinutes (Int m) mode)
                 (ParentDashboard.minutesToInternalString (Int m) mode)
      && ParentDashboard.isValidTime
           (ParentDashboard.minutesToInternalString (Int m) mode))
      [H12; H24])
    minutes_of_day = true.
Proof. vm_cast_no_check (@eq_refl bool true). Qed.

(** The two copies of the parser agree after the common first lines. *)
Lemma parseClean_same (clean : string) :
  ChildPortal.parseClean clean = ParentDashboard.parseClean clean.
Proof.
  unfold ParentDashboard.parseClean, ChildPortal.parseClean.
  destruct (includes clean "AM" || includes clean "PM"); [|reflexivity].
  set (parts := split_spaces clean).
  set (hours := Number (nth 0 (split_char ":" (nth 0 parts "")) "")).
  cbv zeta.
  pose proof (default_period_idle hours) as Hdefault. cbv zeta in Hdefault.
  destruct (nth_error parts 1) as [[|p ps]|] eqn:Hp.
  - rewrite Hdefault. reflexivity.
  - reflexivity.
  - rewrite Hdefault. reflexivity.
Qed.

(** X1. The parser of the parent dashboard and the parser of the child
    portal return the same number on every input, valid or not: the only
    difference between the two copies, the period the dashboard assumes when
    the text has none after the blank, never changes the result. *)
Theorem parsers_agree (timeStr : option string) :
  ParentDashboard.parseTimeToMinutes timeStr = ChildPortal.parseTimeToMinutes timeStr.
Proof.
  destruct timeStr as [[|c s]|]; try reflexivity.
  unfold ParentDashboard.parseTimeToMinutes, ChildPortal.parseTimeToMinutes.
  symmetry. apply parseClean_same.
Qed.

(** A string the validator accepts denotes a minute of the day. *)
Lemma valid_time_minute (timeStr : string) :
  ParentDashboard.isValidTime timeStr = true ->
  exists m, 0 <= m <= 1439
    /\ ParentDashboard.parseTimeToMinutes (Some timeStr) = Int m
    /\ ChildPortal.parseTimeToMinutes (Some timeStr) = Int m.
Proof.
  intros Hvalid.
  assert (Hne : timeStr <> EmptyString).
  { intros ->. vm_compute in Hvalid. discriminate. }
  pose proof valid_times_checked as H.
  rewrite forallb_forall in H.
  specialize (H _ (isValidTime_lang _ Hvalid)).
  apply andb_prop in H as [Hpd _].
  apply minuteOfDay_Int in Hpd as (m & Hpd & Hm).
  rewrite <- pd_parse_clean in Hpd by exact Hne.
  exists m. split; [exact Hm|]. split; [exact Hpd|].
  rewrite <- Hpd, cp_parse_clean, pd_parse_clean by exact Hne.
  apply parseClean_same.
Qed.

Lemma minute_facts (m : Z) (mode : TimeFormat) :
  0 <= m <= 1439 ->
  let shown := ParentDashboard.minutesToInternalString (Int m) mode in
  ChildPortal.displayMinutes (Int m) mode = shown
  /\ ParentDashboard.isValidTime shown = true
  /\ ParentDashboard.parseTimeToMinutes (Some shown) = Int m.
Proof.
  intros Hm shown.
  assert (Hmode : In mode [H12; H24]) by (destruct mode; simpl; auto).
  pose proof display_checked as H.
  rewrite forallb_forall in H.
  specialize (H m (in_minutes_of_day m Hm)).
  rewrite forallb_forall in H. specialize (H mode Hmode).
  apply andb_prop in H as [He Hv]. apply String.eqb_eq in He.
  pose proof roundtrip_checked as R.
  rewrite forallb_forall in R.
  specialize (R m (in_minutes_of_day m Hm)).
  rewrite forallb_forall in R. specialize (R mode Hmode).
  apply andb_prop in R as [Rpd _]. apply same_eq in Rpd.
  repeat split; assumption.
Qed.

(** X2. For every time string the validator accepts and either display
    mode, the child portal and the parent dashboard show the same text; the
    text is itself accepted by the validator and parses to the same minute,
    so that showing it again, in any mode, shows what the original string
    would. *)
Theorem displayTime_normalises (timeStr : string) (format : TimeFormat) :
  ParentDashboard.isValidTime timeStr = true ->
  let shown := ParentDashboard.displayTime (Some timeStr) format in
  ChildPortal.displayTime (Some timeStr) format = shown
  /\ ParentDashboard.isValidTime shown = true
  /\ ParentDashboard.parseTimeToMinutes (Some shown)
     = ParentDashboard.parseTimeToMinutes (Some timeStr)
  /\ forall format',
       ParentDashboard.displayTime (Some shown) format'
       = ParentDashboard.displayTime (Some timeStr) format'.
Proof.
  intros Hvalid shown.
  destruct (valid_time_minute _ Hvalid) as (m & Hm & Hpd & Hcp).
  destruct (minute_facts m format Hm) as (Hsame & Hv & Hback).
  assert (Hshown : shown = ParentDashboard.minutesToInternalString (Int m) format).
  { subst shown. unfold ParentDashboard.displayTime. now rewrite Hpd. }
  rewrite Hshown.
  split; [unfold ChildPortal.displayTime; now rewrite Hcp|].
  split; [exact Hv|].
  split; [now rewrite Hpd|].
  intros format'. unfold ParentDashboard.displayTime. now rewrite Hback, Hpd.
Qed.

Lemma displayTime_normalises_witness :
  ChildPortal.displayTime (Some "9:05 pm") H24
  = ParentDashboard.displayTime (Some "9:05 pm") H24
  /\ ParentDashboard.isValidTime (ParentDashboard.displayTime (Some "9:05 pm") H24)
     = true.
Proof.
  pose proof (displayTime_normalises "9:05 pm" H24) as H.
  assert (Hv : ParentDashboard.isValidTime "9:05 pm" = true)
    by (vm_compute; reflexivity).
  destruct (H Hv) as (H1 & H2 & _).
  split; [exact H1 | exact H2].
Defined.

(** ** The recurrence days of the task form *)

Lemma In_insert_sorted (d x : Z) (l : list Z) :
  In x (ParentDashboard.insert_sorted d l) <-> x = d \/ In x l.
Proof.
  induction l as [|a l IH]; simpl; [intuition|].
  destruct (d <=? a); simpl; [intuition|].
  rewrite IH. intuition.
Qed.

Lemma In_sorted_all (x : Z) (l : list Z) :
  In x (fold_right ParentDashboard.insert_sorted [] l) <-> In x l.
Proof.
  induction l as [|a l IH]; simpl; [reflexivity|].
  rewrite In_insert_sorted, IH. intuition.
Qed.

Lemma insert_sorted_le (d : Z) (l : list Z) :
  StronglySorted Z.le l -> StronglySorted Z.le (ParentDashboard.insert_sorted d l).
Proof.
  induction l as [|a l IH]; intros Hs; simpl.
  - repeat constructor.
  - apply StronglySorted_inv in Hs as [Hs Ha].
    destruct (Z.leb_spec d a).
    + constructor; [now constructor|].
      constructor; [assumption|].
      rewrite List.Forall_forall in *. intros y Hy. specialize (Ha y Hy). lia.
    + constructor; [now apply IH|].
      rewrite List.Forall_forall in *. intros y Hy.
      apply In_insert_sorted in Hy as [->|Hy]; [lia | now apply Ha].
Qed.

Lemma insert_sorted_lt (d : Z) (l : list Z) :
  StronglySorted Z.lt l -> ~ In d l ->
  StronglySorted Z.lt (ParentDashboard.insert_sorted d l).
Proof.
  induction l as [|a l IH]; intros Hs Hd; simpl.
  - repeat constructor.
  - apply StronglySorted_inv in Hs as [Hs Ha].
    assert (d <> a) by (intros ->; apply Hd; now left).
    destruct (Z.leb_spec d a).
    + constructor; [now constructor|].
      constructor; [lia|].
      rewrite List.Forall_forall in *. intros y Hy. specialize (Ha y Hy). lia.
    + constructor; [apply IH; [assumption | intros Hin; apply Hd; now right]|].
      rewrite List.Forall_forall in *. intros y Hy.
      apply In_insert_sorted in Hy as [->|Hy]; [lia | now apply Ha].
Qed.

Lemma sorted_all_le (l : list Z) :
  StronglySorted Z.le (fold_right ParentDashboard.insert_sorted [] l).
Proof.
  induction l as [|a l IH]; simpl; [constructor | now apply insert_sorted_le].
Qed.

Lemma sorted_all_lt (l : list Z) :
  List.NoDup l -> StronglySorted Z.lt (fold_right ParentDashboard.insert_sorted [] l).
Proof.
  induction l as [|a l IH]; simpl; intros Hnd; [constructor|].
  apply List.NoDup_cons_iff in Hnd as [Ha Hnd].
  apply insert_sorted_lt; [now apply IH|].
  now rewrite In_sorted_all.
Qed.

Lemma strictly_sorted_NoDup (l : list Z) : StronglySorted Z.lt l -> List.NoDup l.
Proof.
  induction l as [|a l IH]; intros Hs; [constructor|].
  apply StronglySorted_inv in Hs as [Hs Ha].
  constructor; [|now apply IH].
  intros Hin. rewrite List.Forall_forall in Ha. specialize (Ha a Hin). lia.
Qed.

(** A strictly increasing list is determined by its elements. *)
Lemma strictly_sorted_ext (l1 l2 : list Z) :
  StronglySorted Z.lt l1 -> StronglySorted Z.lt l2 ->
  (forall x, In x l1 <-> In x l2) -> l1 = l2.
Proof.
  revert l2. induction l1 as [|a l1 IH]; intros [|b l2] H1 H2 Hx.
  - reflexivity.
  - exfalso. apply (proj2 (Hx b)). now left.
  - exfalso. apply (proj1 (Hx a)). now left.
  - apply StronglySorted_inv in H1 as [H1 Ha].
    apply StronglySorted_inv in H2 as [H2 Hb].
    rewrite List.Forall_forall in Ha, Hb.
    assert (a = b).
    { destruct (proj1 (Hx a) (or_introl eq_refl)) as [->|Hin]; [reflexivity|].
      destruct (proj2 (Hx b) (or_introl eq_refl)) as [->|Hin']; [reflexivity|].
      specialize (Ha b Hin'). specialize (Hb a Hin). lia. }
    subst b. f_equal. apply IH; try assumption.
    intros x. split; intros Hin.
    + destruct (proj1 (Hx x) (or_intror Hin)) as [->|]; [|assumption].
      specialize (Ha x Hin). lia.
    + destruct (proj2 (Hx x) (or_intror Hin)) as [->|]; [|assumption].
      specialize (Hb x Hin). lia.
Qed.

Lemma filter_strictly_sorted (p : Z -> bool) (l : list Z) :
  StronglySorted Z.lt l -> StronglySorted Z.lt (List.filter p l).
Proof.
  induction l as [|a l IH]; intros Hs; simpl; [constructor|].
  apply StronglySorted_inv in Hs as [Hs Ha].
  destruct (p a); [|now apply IH].
  constructor; [now apply IH|].
  rewrite List.Forall_forall in *. intros y Hy.
  apply List.filter_In in Hy as [Hy _]. now apply Ha.
Qed.

Lemma toggle_In (day d : Z) (prev : list Z) :
  In d (ParentDashboard.toggleRecurrenceDay day prev)
  <-> (d <> day /\ In d prev) \/ (d = day /\ ~ In day prev).
Proof.
  unfold ParentDashboard.toggleRecurrenceDay.
  destruct (existsb (Z.eqb day) prev) eqn:Hex.
  - apply List.existsb_exists in Hex as (x & Hx & Heq).
    apply Z.eqb_eq in Heq. subst x.
    rewrite List.filter_In, negb_true_iff, Z.eqb_neq. intuition.
  - assert (Hnot : ~ In day prev).
    { intros Hin.
      assert (existsb (Z.eqb day) prev = true)
        by (apply List.existsb_exists; exists day; split;
            [assumption | apply Z.eqb_refl]).
      congruence. }
    rewrite In_sorted_all, List.in_app_iff. simpl.
    split.
    + intros [Hin|[<-|[]]].
      * left. split; [intros ->; contradiction | assumption].
      * right. split; [reflexivity | assumption].
    + intros [[_ Hin]|[-> _]]; [now left | right; now left].
Qed.

Lemma toggle_sorted (day : Z) (prev : list Z) :
  StronglySorted Z.lt prev ->
  StronglySorted Z.lt (ParentDashboard.toggleRecurrenceDay day prev).
Proof.
  intros Hs. unfold ParentDashboard.toggleRecurrenceDay.
  destruct (existsb (Z.eqb day) prev) eqn:Hex.
  - now apply filter_strictly_sorted.
  - apply sorted_all_lt.
    assert (Hnot : ~ In day prev).
    { intros Hin.
      assert (existsb (Z.eqb day) prev = true)
        by (apply List.existsb_exists; exists day; split;
            [assumption | apply Z.eqb_refl]).
      congruence. }
    apply strictly_sorted_NoDup in Hs.
    clear Hex. induction prev as [|a l IH]; simpl.
    + constructor; [intros [] | constructor].
    + apply List.NoDup_cons_iff in Hs as [Ha Hl].
      constructor.
      * rewrite List.in_app_iff. simpl. intros [Hin|[->|[]]]; [contradiction|].
        apply Hnot. now left.
      * apply IH; [assumption | intros Hin; apply Hnot; now right].
Qed.

(** X3. [toggleRecurrenceDay] on week days 0..6: a day other than the one
    toggled is selected afterwards exactly if it was before, the toggled day
    exactly if it was not; all days stay within 0..6; after adding a day the
    list is in ascending order, whatever the order before; and on a strictly
    ascending list, toggling the same day twice gives the list back. *)
Theorem toggleRecurrenceDay_spec (day : Z) (prev : list Z) :
  (forall d, In d (day :: prev) -> 0 <= d <= 6) ->
  let next := ParentDashboard.toggleRecurrenceDay day prev in
  (forall d, In d next <-> (d <> day /\ In d prev) \/ (d = day /\ ~ In day prev))
  /\ (forall d, In d next -> 0 <= d <= 6)
  /\ (~ In day prev -> StronglySorted Z.le next)
  /\ (StronglySorted Z.lt prev ->
      StronglySorted Z.lt next
      /\ ParentDashboard.toggleRecurrenceDay day next = prev).
Proof.
  intros Hrange next.
  split; [intros d; apply toggle_In|].
  split.
  { intros d Hd. apply toggle_In in Hd as [[_ Hd]|[-> _]];
      apply Hrange; [now right | now left]. }
  split.
  { intros Hnot. subst next. unfold ParentDashboard.toggleRecurrenceDay.
    destruct (existsb (Z.eqb day) prev) eqn:Hex; [|apply sorted_all_le].
    apply List.existsb_exists in Hex as (x & Hx & Heq).
    apply Z.eqb_eq in Heq. subst x. contradiction. }
  intros Hs. split; [now apply toggle_sorted|].
  apply strictly_sorted_ext; [now apply toggle_sorted, toggle_sorted | assumption |].
  intros x. rewrite toggle_In. subst next. rewrite !toggle_In.
  destruct (Z.eq_dec x day) as [->|Hne]; intuition.
  destruct (List.in_dec Z.eq_dec day prev); intuition.
Qed.

Lemma toggleRecurrenceDay_spec_witness :
  ParentDashboard.toggleRecurrenceDay 3 [1; 5] = [1; 3; 5]
  /\ ParentDashboard.toggleRecurrenceDay 3 (ParentDashboard.toggleRecurrenceDay 3 [1; 5])
     = [1; 5].
Proof.
  assert (Hrange : forall d, In d [3; 1; 5] -> 0 <= d <= 6).
  { intros d [<-|[<-|[<-|[]]]]; lia. }
  destruct (toggleRecurrenceDay_spec 3 [1; 5] Hrange) as (_ & _ & _ & H).
  split; [reflexivity|].
  apply H. repeat constructor; lia.
Defined.

(** ** Saving a task from the form *)

Lemma isValidDuration_range (dur : string) :
  ParentDashboard.isValidDuration dur = true ->
  exists q, Number dur = Fin q /\ (0 < q)%Q /\ (q < 1440)%Q.
Proof.
  unfold ParentDashboard.isValidDuration.
  destruct (Number dur) as [|neg|q]; simpl; try discriminate.
  - destruct neg; simpl; discriminate.
  - intros H. apply andb_prop in H as [H0 H1].
    apply negb_true_iff in H0, H1.
    exists q. split; [reflexivity|]. split.
    + apply Qnot_le_lt. intros Hle. apply Qle_bool_iff in Hle.
      unfold Int in H0. congruence.
    + apply Qnot_le_lt. intros Hle. apply Qle_bool_iff in Hle.
      unfold Int in H1. congruence.
Qed.

(** What [handleSaveTask] does when all three checks pass. *)
Lemma handleSaveTask_accepts (now : Z) (child : Child) (f : ParentDashboard.TaskForm) :
  let t := ParentDashboard.newTask f in
  is_empty (trim (task_title t)) = false ->
  ParentDashboard.isValidTime (task_time t) = true ->
  ParentDashboard.isValidDuration (or_str (task_duration t) "0") = true ->
  ParentDashboard.handleSaveTask now (Some child) f
  = (closedForm,
     Some (let recurrence :=
             match ParentDashboard.recurrenceFreq f with
             | NoRecurrence => None
             | freq =>
                 Some {| frequency := freq;
                         days := match freq with
                                 | Weekly => ParentDashboard.recurrenceDays f
                                 | _ => []
                                 end;
                         dayOfMonth := match freq with
                                       | Monthly =>
                                           Some (ParentDashboard.recurrenceDayOfMonth f)
                                       | _ => None
                                       end;
                         endDate := match ParentDashboard.recurrenceEndDate f with
                                    | EmptyString => None
                                    | e => Some e
                                    end |}
             end in
           match ParentDashboard.editingTaskId f with
           | None | Some EmptyString =>
               ParentDashboard.OnAddTask (child_id child)
                 (task_with_id_recurrence t (String.append "task_" (dec now)) recurrence)
           | Some i =>
               ParentDashboard.OnUpdateTask (child_id child)
                 (task_with_id_recurrence t i recurrence)
           end)).
Proof.
  intros t H1 H2 H3. unfold ParentDashboard.handleSaveTask.
  fold t. rewrite H1, H2, H3. reflexivity.
Qed.

Lemma handleSaveTask_checks (now : Z) (child : Child) (f f' : ParentDashboard.TaskForm)
  (call : ParentDashboard.TaskCall) :
  ParentDashboard.handleSaveTask now (Some child) f = (f', Some call) ->
  let t := ParentDashboard.newTask f in
  is_empty (trim (task_title t)) = false
  /\ ParentDashboard.isValidTime (task_time t) = true
  /\ ParentDashboard.isValidDuration (or_str (task_duration t) "0") = true.
Proof.
  intros H t. unfold ParentDashboard.handleSaveTask in H. fold t in H.
  destruct (is_empty _); [discriminate|].
  destruct (ParentDashboard.isValidTime _); [|discriminate].
  destruct (ParentDashboard.isValidDuration _); [|discriminate].
  repeat split.
Qed.

(** X4. Whenever [handleSaveTask] hands a task to the application
    ([onAddTask] or [onUpdateTask], for the selected child), the task has
    passed the three checks of the form: its id is not empty, its title is
    not blank, its time denotes a minute of the day in [0,1439] for both
    parsers, and its duration is a number strictly between 0 and 1440.  It
    is the task of the form with only [id] and [recurrence] set; the
    recurrence is absent for the frequency [none], carries week days only
    for [weekly] and a day of the month only for [monthly], and never an
    empty end date.  The form is closed and reset. *)
Theorem handleSaveTask_validates (now : Z) (child : Child)
  (f f' : ParentDashboard.TaskForm) (call : ParentDashboard.TaskCall) :
  ParentDashboard.handleSaveTask now (Some child) f = (f', Some call) ->
  exists t,
    (call = ParentDashboard.OnAddTask (child_id child) t
     \/ call = ParentDashboard.OnUpdateTask (child_id child) t)
    /\ task_id t <> EmptyString
    /\ task_with_id_recurrence (ParentDashboard.newTask f) (task_id t)
         (task_recurrence t) = t
    /\ trim (task_title t) <> EmptyString
    /\ (exists m, 0 <= m <= 1439
          /\ ParentDashboard.parseTimeToMinutes (Some (task_time t)) = Int m
          /\ ChildPortal.parseTimeToMinutes (Some (task_time t)) = Int m)
    /\ (exists q, Number (or_str (task_duration t) "0") = Fin q
          /\ (0 < q)%Q /\ (q < 1440)%Q)
    /\ match task_recurrence t with
       | None => ParentDashboard.recurrenceFreq f = NoRecurrence
       | Some r =>
           frequency r = ParentDashboard.recurrenceFreq f
           /\ frequency r <> NoRecurrence
           /\ days r = match frequency r with
                       | Weekly => ParentDashboard.recurrenceDays f
                       | _ => []
                       end
           /\ dayOfMonth r = match frequency r with
                             | Monthly =>
                                 Some (ParentDashboard.recurrenceDayOfMonth f)
                             | _ => None
                             end
           /\ endDate r <> Some EmptyString
       end
    /\ f' = closedForm.
Proof.
  intros Hsave.
  destruct (handleSaveTask_checks _ _ _ _ _ Hsave) as (H1 & H2 & H3).
  rewrite (handleSaveTask_accepts now child f H1 H2 H3) in Hsave.
  injection Hsave as <- <-.
  set (t0 := ParentDashboard.newTask f) in *.
  set (rec := match ParentDashboard.recurrenceFreq f with
              | NoRecurrence => None
              | _ => _
              end).
  assert (Hrec : match rec with
       | None => ParentDashboard.recurrenceFreq f = NoRecurrence
       | Some r =>
           frequency r = ParentDashboard.recurrenceFreq f
           /\ frequency r <> NoRecurrence
           /\ days r = match frequency r with
                       | Weekly => ParentDashboard.recurrenceDays f
                       | _ => []
                       end
           /\ dayOfMonth r = match frequency r with
                             | Monthly =>
                                 Some (ParentDashboard.recurrenceDayOfMonth f)
                             | _ => None
                             end
           /\ endDate r <> Some EmptyString
       end).
  { subst rec.
    destruct (ParentDashboard.recurrenceFreq f);
      cbn [frequency days dayOfMonth endDate]; try reflexivity;
      (repeat split; try discriminate;
       destruct (ParentDashboard.recurrenceEndDate f); discriminate). }
  assert (Hcommon : forall i, i <> EmptyString ->
    let t := task_with_id_recurrence t0 i rec in
    task_id t <> EmptyString
    /\ task_with_id_recurrence t0 (task_id t) (task_recurrence t) = t
    /\ trim (task_title t) <> EmptyString
    /\ (exists m, 0 <= m <= 1439
          /\ ParentDashboard.parseTimeToMinutes (Some (task_time t)) = Int m
          /\ ChildPortal.parseTimeToMinutes (Some (task_time t)) = Int m)
    /\ (exists q, Number (or_str (task_duration t) "0") = Fin q
          /\ (0 < q)%Q /\ (q < 1440)%Q)).
  { intros i Hi t.
    cbn [task_id task_title task_time task_duration task_recurrence
         task_with_id_recurrence t].
    split; [exact Hi|]. split; [reflexivity|].
    split; [intros He; rewrite He in H1; discriminate|].
    split; [apply valid_time_minute; exact H2 | apply isValidDuration_range; exact H3]. }
  assert (Hnew : String.append "task_" (dec now) <> EmptyString) by discriminate.
  destruct (ParentDashboard.editingTaskId f) as [[|c i]|].
  - eexists. split; [left; reflexivity|].
    destruct (Hcommon _ Hnew) as (A & B & C & D & E).
    repeat (split; [assumption|]). reflexivity.
  - assert (Hi : String c i <> EmptyString) by discriminate.
    eexists. split; [right; reflexivity|].
    destruct (Hcommon _ Hi) as (A & B & C & D & E).
    repeat (split; [assumption|]). reflexivity.
  - eexists. split; [left; reflexivity|].
    destruct (Hcommon _ Hnew) as (A & B & C & D & E).
    repeat (split; [assumption|]). reflexivity.
Qed.

Lemma handleSaveTask_validates_witness :
  exists t,
    snd (ParentDashboard.handleSaveTask 5 (Some sampleChild) sampleForm)
    = Some (ParentDashboard.OnUpdateTask "c_1" t)
    /\ ParentDashboard.parseTimeToMinutes (Some (task_time t)) = Int 480.
Proof.
  destruct (ParentDashboard.handleSaveTask 5 (Some sampleChild) sampleForm)
    as [f' [call|]] eqn:Hsave; [|vm_compute in Hsave; discriminate].
  destruct (handleSaveTask_validates 5 sampleChild sampleForm f' call Hsave)
    as (t & Hcall & _ & Ht & _).
  assert (Hupd : call = ParentDashboard.OnUpdateTask "c_1" t).
  { destruct Hcall as [->| ->]; [|reflexivity].
    vm_compute in Hsave. discriminate. }
  exists t. split; [now rewrite Hupd|].
  rewrite <- Ht. vm_compute. reflexivity.
Defined.

Lemma task_with_own_id_recurrence (t : Task) :
  task_with_id_recurrence t (task_id t) (task_recurrence t) = t.
Proof. destruct t; reflexivity. Qed.

(** X5. A task the form has saved can be opened again and saved unchanged:
    [handleEditTaskRequest] on the saved task followed by [handleSaveTask]
    passes the checks and sends [onUpdateTask] with exactly that task,
    recurrence included.  The condition is that a monthly rule was saved
    with a day of the month that is neither 0 nor NaN; such a day is
    replaced by 1 when the task is opened. *)
Theorem saved_task_reopens (now now' : Z) (child : Child)
  (f f' g : ParentDashboard.TaskForm) (call : ParentDashboard.TaskCall) (t : Task) :
  ParentDashboard.handleSaveTask now (Some child) f = (f', Some call) ->
  call = ParentDashboard.OnAddTask (child_id child) t
  \/ call = ParentDashboard.OnUpdateTask (child_id child) t ->
  (ParentDashboard.recurrenceFreq f = Monthly ->
   truthy (ParentDashboard.recurrenceDayOfMonth f) = true) ->
  ParentDashboard.handleSaveTask now' (Some child)
    (ParentDashboard.handleEditTaskRequest t g)
  = (closedForm, Some (ParentDashboard.OnUpdateTask (child_id child) t)).
Proof.
  intros Hsave Hcall Hday.
  destruct (handleSaveTask_validates _ _ _ _ _ Hsave)
    as (t' & Hcall' & Hid & Hshape & Htitle & _ & _ & Hrec & _).
  assert (t' = t) by (destruct Hcall as [->| ->], Hcall' as [E|E]; congruence).
  subst t'.
  destruct (handleSaveTask_checks _ _ _ _ _ Hsave) as (H1 & H2 & H3).
  assert (Hfields : task_title t = task_title (ParentDashboard.newTask f)
                    /\ task_time t = task_time (ParentDashboard.newTask f)
                    /\ task_duration t = task_duration (ParentDashboard.newTask f)).
  { rewrite <- Hshape. repeat split. }
  destruct Hfields as (F1 & F2 & F3).
  rewrite handleSaveTask_accepts by
    (cbn [ParentDashboard.handleEditTaskRequest ParentDashboard.newTask];
     congruence).
  unfold ParentDashboard.handleEditTaskRequest.
  cbn [ParentDashboard.editingTaskId ParentDashboard.recurrenceFreq
       ParentDashboard.recurrenceDays ParentDashboard.recurrenceEndDate
       ParentDashboard.recurrenceDayOfMonth ParentDashboard.newTask].
  cbv zeta.
  destruct (task_id t) as [|c i] eqn:Ei; [congruence|].
  match goal with
  | |- (_, Some (_ _ (task_with_id_recurrence _ _ ?R))) = _ =>
      assert (HR : R = task_recurrence t)
  end.
  { destruct (task_recurrence t) as [r|]; [|reflexivity].
    destruct Hrec as (R1 & R2 & R3 & R4 & R5).
    cbn [from_option mbind option_bind default].
    destruct r as [fr ds dm ed]. cbn [frequency days dayOfMonth endDate] in *.
    destruct fr; try congruence; subst ds dm.
    - cbn [from_option or_str]. f_equal. f_equal.
      destruct ed as [[|e es]|]; try reflexivity. congruence.
    - cbn [from_option or_str]. f_equal. f_equal.
      destruct ed as [[|e es]|]; try reflexivity. congruence.
    - unfold default. cbn [from_option or_str id]. symmetry in R1.
      specialize (Hday R1). unfold or_num. rewrite Hday. f_equal. f_equal.
      destruct ed as [[|e es]|]; try reflexivity. congruence. }
  rewrite HR, <- Ei, task_with_own_id_recurrence. reflexivity.
Qed.

Lemma saved_task_reopens_witness :
  exists t,
    snd (ParentDashboard.handleSaveTask 5 (Some sampleChild) sampleForm)
    = Some (ParentDashboard.OnUpdateTask "c_1" t)
    /\ ParentDashboard.handleSaveTask 9 (Some sampleChild)
         (ParentDashboard.handleEditTaskRequest t closedForm)
       = (closedForm, Some (ParentDashboard.OnUpdateTask "c_1" t)).
Proof.
  destruct (ParentDashboard.handleSaveTask 5 (Some sampleChild) sampleForm)
    as [f' [[cid t|cid t]|]] eqn:Hsave; try (vm_compute in Hsave; discriminate).
  assert (Hcid : cid = "c_1") by (vm_compute in Hsave; congruence).
  subst cid. exists t. split; [reflexivity|].
  apply (saved_task_reopens 5 9 sampleChild sampleForm f' closedForm _ t Hsave).
  - right. reflexivity.
  - intros H. vm_compute in H. discriminate.
Defined.

(** ** The list handlers of App.tsx *)

Lemma child_with_own_tasks (c : Child) : child_with_tasks c (child_tasks c) = c.
Proof. destruct c; reflexivity. Qed.

Lemma child_with_own_rewards (c : Child) : child_with_rewards c (child_rewards c) = c.
Proof. destruct c; reflexivity. Qed.

(** Removing by key one element appended to a list without that key. *)
Lemma filter_out_appended {A : Type} (key : A -> string) (k : string)
  (l : list A) (x : A) :
  (forall y, In y l -> key y <> k) -> key x = k ->
  List.filter (fun y => negb (String.eqb (key y) k)) (l ++ [x])%list = l.
Proof.
  intros Hl Hx. rewrite List.filter_app. simpl.
  rewrite Hx, String.eqb_refl. simpl. rewrite List.app_nil_r.
  induction l as [|a l IH]; simpl; [reflexivity|].
  assert (Ha : String.eqb (key a) k = false)
    by (apply String.eqb_neq, Hl; now left).
  rewrite Ha. simpl. f_equal. apply IH. intros y Hy. apply Hl. now right.
Qed.

Lemma map_id_on {A : Type} (g : A -> A) (l : list A) :
  (forall x, In x l -> g x = x) -> map g l = l.
Proof.
  intros H. induction l as [|a l IH]; simpl; [reflexivity|].
  rewrite H by now left. f_equal. apply IH. intros x Hx. apply H. now right.
Qed.

(** X6. Adding a task to a child and then deleting the task by its id gives
    the children back, provided no task of that child had the id before;
    the audio generated on the way does not matter, since it keeps the id.
    The same holds for adding and deleting a reward.  Without the proviso
    the older task or reward of that id would be deleted as well. *)
Theorem add_then_delete
  (getTaskSpeechText : Task -> string -> Language -> string)
  (cleanForSpeech : string -> string)
  (getSpeechBase64 : string -> Language -> option string)
  (children prev : list Child) (childId : string) (task : Task) (reward : Reward) :
  ((forall c t, In c prev -> child_id c = childId -> In t (child_tasks c) ->
      task_id t <> task_id task) ->
   App.onDeleteTask
     (App.onAddTask getTaskSpeechText cleanForSpeech getSpeechBase64
        children prev childId task)
     childId (task_id task) = prev)
  /\ ((forall c r, In c prev -> child_id c = childId -> In r (child_rewards c) ->
         reward_id r <> reward_id reward) ->
      App.onDeleteReward (App.onAddReward prev childId reward) childId
        (reward_id reward) = prev).
Proof.
  split; intros Hfresh.
  - unfold App.onDeleteTask, App.onAddTask.
    set (added := match App.findChild children childId with
                  | Some c => _
                  | None => task
                  end).
    assert (Hid : task_id added = task_id task).
    { subst added. destruct (App.findChild children childId); [|reflexivity].
      apply (preGenerateTaskAudio_kept getTaskSpeechText cleanForSpeech
               getSpeechBase64 task). }
    rewrite List.map_map. apply map_id_on. intros c Hc.
    destruct (String.eqb (child_id c) childId) eqn:Hcid.
    + cbn [child_id child_with_tasks child_tasks]. rewrite Hcid.
      apply String.eqb_eq in Hcid.
      rewrite (filter_out_appended task_id (task_id task)).
      * destruct c; reflexivity.
      * intros t Ht. now apply (Hfresh c).
      * exact Hid.
    + rewrite Hcid. reflexivity.
  - unfold App.onDeleteReward, App.onAddReward.
    rewrite List.map_map. apply map_id_on. intros c Hc.
    destruct (String.eqb (child_id c) childId) eqn:Hcid.
    + cbn [child_id child_with_rewards child_rewards]. rewrite Hcid.
      apply String.eqb_eq in Hcid.
      rewrite (filter_out_appended reward_id (reward_id reward)).
      * destruct c; reflexivity.
      * intros r Hr. now apply (Hfresh c).
      * reflexivity.
    + rewrite Hcid. reflexivity.
Qed.

Lemma add_then_delete_witness :
  let task := task_with_id_recurrence ParentDashboard.defaultTask "t_9" None in
  App.onDeleteTask
    (App.onAddTask (fun _ _ _ => "") (fun s => s) (fun _ _ => None)
       [sampleChild] [sampleChild] "c_1" task)
    "c_1" "t_9" = [sampleChild].
Proof.
  intros task.
  destruct (add_then_delete (fun _ _ _ => "") (fun s => s) (fun _ _ => None)
              [sampleChild] [sampleChild] "c_1" task
              {| reward_id := "r_1"; reward_title := ""; reward_category := "";
                 reward_cost := 1; reward_image := ""; reward_type := Toy |})
    as [H _].
  apply H. intros c t [<-|[]] _ [<-|[]]. discriminate.
Defined.

(** X7. The child the portal and the rewards catalogue show after
    [switchActiveChild children id] is the first child with that id, now
    active.  If no child has the id, every child is inactive and the first
    child of the list is shown; no child is shown only if there is none. *)
Theorem portal_child_after_switch (children : list Child) (id : string) :
  App.activeChild (App.switchActiveChild children id)
  = match find (fun c => String.eqb (child_id c) id) children with
    | Some c => Some (child_with_active c true)
    | None => option_map (fun c => child_with_active c false) (head children)
    end.
Proof.
  unfold App.activeChild, App.switchActiveChild.
  assert (Hfind : find child_active
            (map (fun c => child_with_active c (String.eqb (child_id c) id)) children)
          = option_map (fun c => child_with_active c true)
              (find (fun c => String.eqb (child_id c) id) children)).
  { induction children as [|a l IH]; simpl; [reflexivity|].
    destruct (String.eqb (child_id a) id); simpl; [reflexivity | exact IH]. }
  rewrite Hfind.
  destruct (find (fun c => String.eqb (child_id c) id) children) as [c|] eqn:Hf;
    simpl; [reflexivity|].
  destruct children as [|a l]; simpl; [reflexivity|].
  simpl in Hf. destruct (String.eqb (child_id a) id); [discriminate | reflexivity].
Qed.

Lemma redeem_nonneg_total (now : Z) (childId : string) (reward : Reward)
  (note : option string) (ac : Child) (l : list Child) :
  List.NoDup (map child_id l) ->
  find (fun c => String.eqb (child_id c) childId) l = Some ac ->
  reward_cost reward <= child_stars ac ->
  (forall c, In c l -> 0 <= child_stars c) ->
  let result :=
    map (fun child => if String.eqb (child_id child) childId
                      then App.redeemedChild now child reward note else child) l in
  (forall c, In c result -> 0 <= child_stars c)
  /\ fold_right Z.add 0 (map child_stars result)
     = fold_right Z.add 0 (map child_stars l) - reward_cost reward.
Proof.
  induction l as [|a l IH]; intros Hnd Hf Hcost Hpos; [discriminate|].
  simpl in Hf. apply List.NoDup_cons_iff in Hnd as [Ha Hnd].
  destruct (String.eqb (child_id a) childId) eqn:Hid.
  - injection Hf as ->. pose proof Hid as Hb. apply String.eqb_eq in Hid.
    assert (Hrest : map (fun child => if String.eqb (child_id child) childId
                      then App.redeemedChild now child reward note else child) l = l).
    { apply map_id_on. intros c Hc.
      destruct (String.eqb (child_id c) childId) eqn:Hc'; [|reflexivity].
      apply String.eqb_eq in Hc'. exfalso. apply Ha. rewrite Hid, <- Hc'.
      now apply List.in_map. }
    cbn zeta. cbn [map]. rewrite Hrest, Hb.
    split.
    + intros c [<-|Hc]; [|apply Hpos; now right].
      unfold App.redeemedChild. cbn [child_stars child_with_stars_history]. lia.
    + unfold App.redeemedChild.
      cbn [map fold_right child_stars child_with_stars_history]. lia.
  - assert (Hpos' : forall c, In c l -> 0 <= child_stars c)
      by (intros c Hc; apply Hpos; now right).
    destruct (IH Hnd Hf Hcost Hpos') as [P T].
    cbn zeta. cbn [map]. rewrite Hid. split.
    + intros c [<-|Hc]; [apply Hpos; now left | now apply P].
    + cbn [fold_right]. rewrite T. lia.
Qed.

(** X8. With pairwise distinct child ids, [redeemReward] keeps every star
    balance non-negative if all were so before, whatever the cost of the
    reward, and the sum of all balances goes down by exactly the cost when
    it returns [true] and stays the same when it returns [false]. *)
Theorem redeemReward_balances (now : Z) (children : list Child) (childId : string)
  (reward : Reward) (note : option string) :
  List.NoDup (map child_id children) ->
  (forall c, In c children -> 0 <= child_stars c) ->
  let ok := fst (App.redeemReward now children childId reward note) in
  let result := snd (App.redeemReward now children childId reward note) in
  (forall c, In c result -> 0 <= child_stars c)
  /\ fold_right Z.add 0 (map child_stars result)
     = fold_right Z.add 0 (map child_stars children)
       - (if ok then reward_cost reward else 0).
Proof.
  intros Hnd Hpos. unfold App.redeemReward.
  destruct (find _ children) as [ac|] eqn:Hf; cbn [fst snd].
  - destruct (Z.ltb_spec (child_stars ac) (reward_cost reward)); cbn [fst snd].
    + split; [exact Hpos | lia].
    + now apply (redeem_nonneg_total now childId reward note ac).
  - split; [exact Hpos | lia].
Qed.

Lemma redeemReward_balances_witness :
  let reward := {| reward_id := "r_1"; reward_title := "Ice cream";
                   reward_category := "Treats"; reward_cost := 30;
                   reward_image := ""; reward_type := Treat |} in
  let kids := [child_with_stars_history (sampleKid "c_1" [] []) 40 [];
               sampleKid "c_2" [] []] in
  fold_right Z.add 0
    (map child_stars (snd (App.redeemReward 7 kids "c_1" reward None))) = 10.
Proof.
  intros reward kids.
  destruct (redeemReward_balances 7 kids "c_1" reward None) as [_ H].
  - vm_compute. repeat (apply List.NoDup_cons; [simpl; intuition discriminate|]).
    apply List.NoDup_nil.
  - intros c [<-|[<-|[]]]; simpl; lia.
  - rewrite H. vm_compute. reflexivity.
Defined.

(** ** More on the migration *)

(** An iteration whose two requests fail. *)
Lemma migrateChild_offline (familyId : string) (child : Child) (w : World)
  (rest : list bool) :
  net w = false :: false :: rest ->
  migrateChild familyId child w
  = (tt, {| remote := remote w; storage := storage w; net := rest;
            journal := (journal w ++ [SelectChild (child_id child) false;
                                      InsertChild (child_id child) false])%list |}).
Proof.
  intros Hn.
  unfold migrateChild, select_child, insert_child, reach, getRemote, setRemote,
    log, ret, bind.
  rewrite Hn. cbn [fst snd remote journal storage net negb childRow row_id].
  rewrite <- List.app_assoc. reflexivity.
Qed.

Lemma forEach_offline (familyId : string) (cs : list Child) :
  forall (w : World) (rest : list bool),
    net w = (repeat false (2 * length cs) ++ rest)%list ->
    forEach cs (migrateChild familyId) w
    = (tt, {| remote := remote w; storage := storage w; net := rest;
              journal := (journal w
                          ++ flat_map (fun c => [SelectChild (child_id c) false;
                                                 InsertChild (child_id c) false])
                               cs)%list |}).
Proof.
  induction cs as [|c cs IH]; intros w rest Hn; cbn [forEach flat_map].
  - cbn in Hn. unfold ret. rewrite List.app_nil_r. destruct w. cbn in *. now subst.
  - replace (2 * length (c :: cs))%nat with (S (S (2 * length cs))) in Hn
      by (cbn [length]; lia).
    cbn [repeat app] in Hn.
    rewrite bind_run, (migrateChild_offline _ _ _ _ Hn). cbn [fst snd].
    rewrite (IH _ rest) by reflexivity.
    cbn [remote storage journal]. now rewrite <- List.app_assoc.
Qed.

(** X9. A run that finds a parsable snapshot returns [true] and sets the
    migration flag even if no request reaches the store.  When the two
    requests made for each child (the existence check and the insert of the
    child) all fail, the tables are unchanged, no task or reward is sent,
    and the result and the flag are those of a run that uploaded
    everything. *)
Theorem migration_offline (userId familyId : string) (w : World)
  (data : LocalStorageData) (rest : list bool) :
  let children := default [] (ls_children data) in
  storage w !! STORAGE_KEY = Some (Snapshot data) ->
  net w = (repeat false (2 * length children) ++ rest)%list ->
  migrateLocalStorageToSupabase userId familyId w
  = (true,
     {| remote := remote w;
        storage := <[MIGRATION_FLAG := Raw "true"]> (storage w);
        net := rest;
        journal := (journal w
                    ++ flat_map (fun c => [SelectChild (child_id c) false;
                                           InsertChild (child_id c) false])
                         children)%list |}).
Proof.
  intros children Hsnap Hn.
  rewrite (migrate_snapshot_run _ _ _ _ Hsnap). f_equal.
  unfold migrateChildren. subst children.
  destruct (ls_children data) as [[|c cs]|]; cbn [default from_option id] in *.
  - cbn in Hn. unfold ret, with_storage. cbn [snd flat_map].
    rewrite List.app_nil_r. now rewrite Hn.
  - rewrite (forEach_offline _ _ _ rest Hn). reflexivity.
  - cbn in Hn. unfold ret, with_storage. cbn [snd flat_map].
    rewrite List.app_nil_r. now rewrite Hn.
Qed.

Lemma migration_offline_witness :
  let w0 :=
    {| remote := emptyRemote;
       storage := <[STORAGE_KEY := sampleSnapshot [sampleKid "c_1" [] []]]> ∅;
       net := [false; false]; journal := [] |} in
  fst (migrateLocalStorageToSupabase "u_1" "fam_1" w0) = true
  /\ remote (snd (migrateLocalStorageToSupabase "u_1" "fam_1" w0)) = emptyRemote.
Proof.
  intros w0.
  rewrite (migration_offline "u_1" "fam_1" w0
             {| ls_children := Some [sampleKid "c_1" [] []]; ls_guardians := None;
                ls_lastUpdated := "" |} []).
  - split; reflexivity.
  - reflexivity.
  - reflexivity.
Defined.

(** An insert of rows with new, pairwise distinct keys succeeds: it adds
    the rows and changes nothing else. *)
Lemma insert_rows_fresh {R : Type} (rows : list (string * R)) :
  forall tbl : gmap string R,
    List.NoDup (map fst rows) ->
    (forall k, In k (map fst rows) -> tbl !! k = None) ->
    exists tbl',
      insert_rows rows tbl = Some tbl'
      /\ (forall k r, In (k, r) rows -> tbl' !! k = Some r)
      /\ (forall k, ~ In k (map fst rows) -> tbl' !! k = tbl !! k).
Proof.
  induction rows as [|[k r] rows IH]; intros tbl Hnd Hnew; cbn [insert_rows].
  - exists tbl. split; [reflexivity|]. split; [intros k r []|reflexivity].
  - cbn [map fst] in Hnd, Hnew. apply List.NoDup_cons_iff in Hnd as [Hk Hnd].
    rewrite (Hnew k) by now left.
    destruct (IH (<[k := r]> tbl) Hnd) as (tbl' & Hins & Hrows & Hframe).
    { intros k' Hk'. rewrite lookup_insert_ne; [apply Hnew; now right|].
      intros ->. contradiction. }
    exists tbl'. split; [exact Hins|]. split.
    + intros k' r' [[= <- <-]|Hin]; [|now apply Hrows].
      rewrite (Hframe k Hk). apply lookup_insert_eq.
    + intros k' Hk'. cbn [map fst] in Hk'.
      rewrite Hframe by (intros Hin; apply Hk'; now right).
      apply lookup_insert_ne. intros ->. apply Hk'. now left.
Qed.

Lemma insert_tasks_answered (child_id : string) (rows : list TaskRow) (w : World) :
  net w = [] ->
  List.NoDup (map (fun row => task_id (trow_task row)) rows) ->
  (forall row, In row rows -> tasks_tbl (remote w) !! task_id (trow_task row) = None) ->
  let w' := snd (insert_tasks child_id rows w) in
  net w' = [] /\ storage w' = storage w
  /\ children_tbl (remote w') = children_tbl (remote w)
  /\ rewards_tbl (remote w') = rewards_tbl (remote w)
  /\ (forall row, In row rows ->
        tasks_tbl (remote w') !! task_id (trow_task row) = Some row)
  /\ (forall k, ~ In k (map (fun row => task_id (trow_task row)) rows) ->
        tasks_tbl (remote w') !! k = tasks_tbl (remote w) !! k).
Proof.
  intros Hn Hnd Hnew.
  destruct (insert_rows_fresh
              (map (fun row => (task_id (trow_task row), row)) rows)
              (tasks_tbl (remote w))) as (tbl' & Hins & Hrows & Hframe).
  { now rewrite List.map_map. }
  { rewrite List.map_map. cbn [fst]. intros k Hk.
    apply List.in_map_iff in Hk as (row & <- & Hrow). now apply Hnew. }
  unfold insert_tasks, reach, getRemote, setRemote, log, ret, bind.
  rewrite Hn. cbn [fst snd remote journal storage net]. rewrite Hins.
  cbn [fst snd remote journal storage net children_tbl tasks_tbl rewards_tbl].
  repeat split; try assumption.
  - intros row Hrow. apply Hrows.
    apply (List.in_map (fun row => (task_id (trow_task row), row))), Hrow.
  - intros k Hk. apply Hframe. now rewrite List.map_map.
Qed.

Lemma insert_rewards_answered (child_id : string) (rows : list RewardRow) (w : World) :
  net w = [] ->
  List.NoDup (map (fun row => reward_id (rrow_reward row)) rows) ->
  (forall row, In row rows ->
     rewards_tbl (remote w) !! reward_id (rrow_reward row) = None) ->
  let w' := snd (insert_rewards child_id rows w) in
  net w' = [] /\ storage w' = storage w
  /\ children_tbl (remote w') = children_tbl (remote w)
  /\ tasks_tbl (remote w') = tasks_tbl (remote w)
  /\ (forall row, In row rows ->
        rewards_tbl (remote w') !! reward_id (rrow_reward row) = Some row)
  /\ (forall k, ~ In k (map (fun row => reward_id (rrow_reward row)) rows) ->
        rewards_tbl (remote w') !! k = rewards_tbl (remote w) !! k).
Proof.
  intros Hn Hnd Hnew.
  destruct (insert_rows_fresh
              (map (fun row => (reward_id (rrow_reward row), row)) rows)
              (rewards_tbl (remote w))) as (tbl' & Hins & Hrows & Hframe).
  { now rewrite List.map_map. }
  { rewrite List.map_map. cbn [fst]. intros k Hk.
    apply List.in_map_iff in Hk as (row & <- & Hrow). now apply Hnew. }
  unfold insert_rewards, reach, getRemote, setRemote, log, ret, bind.
  rewrite Hn. cbn [fst snd remote journal storage net]. rewrite Hins.
  cbn [fst snd remote journal storage net children_tbl tasks_tbl rewards_tbl].
  repeat split; try assumption.
  - intros row Hrow. apply Hrows.
    apply (List.in_map (fun row => (reward_id (rrow_reward row), row))), Hrow.
  - intros k Hk. apply Hframe. now rewrite List.map_map.
Qed.



Lemma migrateChild_fresh (familyId : string) (child : Child) (w : World) :
  net w = [] ->
  children_tbl (remote w) !! child_id child = None ->
  List.NoDup (map task_id (child_tasks child)) ->
  (forall t, In t (child_tasks child) -> tasks_tbl (remote w) !! task_id t = None) ->
  List.NoDup (map reward_id (child_rewards child)) ->
  (forall r, In r (child_rewards child) ->
     rewards_tbl (remote w) !! reward_id r = None) ->
  let w' := snd (migrateChild familyId child w) in
  net w' = [] /\ storage w' = storage w
  /\ uploaded familyId (remote w') child
  /\ same_outside [child] (remote w) (remote w').
Proof.
  intros Hn Hrow Hndt Hnewt Hndr Hnewr.
  unfold migrateChild.
  rewrite bind_run, select_child_answered by exact Hn.
  cbn [fst snd]. rewrite Hrow.
  rewrite bind_run, insert_child_answered
    by (cbn [net remote row_id childRow]; first [reflexivity | exact Hrow]).
  cbn [fst snd negb remote journal storage net childRow row_id].
  rewrite bind_run.
  set (w1 := {| remote := _; storage := storage w; net := []; journal := _ |}).
  assert (H1 : net w1 = [] /\ storage w1 = storage w
               /\ children_tbl (remote w1)
                  = <[child_id child := childRow familyId child]>
                      (children_tbl (remote w))
               /\ tasks_tbl (remote w1) = tasks_tbl (remote w)
               /\ rewards_tbl (remote w1) = rewards_tbl (remote w))
    by (repeat split).
  clearbody w1. destruct H1 as (N1 & S1 & C1 & T1 & R1).
  set (tasksStep := match child_tasks child with [] => ret tt | _ => _ end).
  assert (H2 : let w2 := snd (tasksStep w1) in
               net w2 = [] /\ storage w2 = storage w
               /\ children_tbl (remote w2) = children_tbl (remote w1)
               /\ rewards_tbl (remote w2) = rewards_tbl (remote w)
               /\ (forall t, In t (child_tasks child) ->
                     tasks_tbl (remote w2) !! task_id t
                     = Some {| trow_child_id := child_id child; trow_task := t |})
               /\ (forall k, ~ In k (map task_id (child_tasks child)) ->
                     tasks_tbl (remote w2) !! k = tasks_tbl (remote w) !! k)).
  { subst tasksStep. destruct (child_tasks child) as [|t ts] eqn:Et.
    - cbn [ret snd]. repeat split; try assumption; try congruence.
      intros t [].
    - rewrite bind_run. cbn [ret snd].
      set (rows := map (fun task => {| trow_child_id := child_id child;
                                       trow_task := task |}) (t :: ts)).
      assert (Hkeys : map (fun row => task_id (trow_task row)) rows
                      = map task_id (t :: ts))
        by (subst rows; now rewrite List.map_map).
      destruct (insert_tasks_answered (child_id child) rows w1 N1)
        as (N & S & C & R & Hin & Hout).
      { now rewrite Hkeys. }
      { intros row Hr. subst rows. apply List.in_map_iff in Hr as (t' & <- & Ht').
        cbn [trow_task]. rewrite T1. now apply Hnewt. }
      repeat split; try assumption; try congruence.
      + intros t' Ht'.
        apply (Hin {| trow_child_id := child_id child; trow_task := t' |}).
        subst rows. now apply (List.in_map (fun task => {| trow_child_id := child_id child; trow_task := task |})).
      + intros k Hk. rewrite Hout by now rewrite Hkeys. now rewrite T1. }
  cbv zeta in H2. set (w2 := snd (tasksStep w1)) in *. clearbody w2.
  destruct H2 as (N2 & S2 & C2 & R2 & Tin & Tout).
  assert (H3 : let w3 := snd (match child_rewards child with
                              | [] => ret tt
                              | rewards =>
                                  let rewardsToInsert :=
                                    map (fun reward =>
                                           {| rrow_child_id := child_id child;
                                              rrow_reward := reward |}) rewards in
                                  let! _ := insert_rewards (child_id child)
                                              rewardsToInsert in
                                  ret tt
                              end w2) in
               net w3 = [] /\ storage w3 = storage w
               /\ children_tbl (remote w3) = children_tbl (remote w1)
               /\ tasks_tbl (remote w3) = tasks_tbl (remote w2)
               /\ (forall r, In r (child_rewards child) ->
                     rewards_tbl (remote w3) !! reward_id r
                     = Some {| rrow_child_id := child_id child; rrow_reward := r |})
               /\ (forall k, ~ In k (map reward_id (child_rewards child)) ->
                     rewards_tbl (remote w3) !! k = rewards_tbl (remote w) !! k)).
  { destruct (child_rewards child) as [|r rs] eqn:Er.
    - cbn [ret snd]. repeat split; try assumption; try congruence.
      intros r [].
    - cbv zeta. rewrite bind_run. cbn [ret snd].
      set (rows := map (fun reward => {| rrow_child_id := child_id child;
                                         rrow_reward := reward |}) (r :: rs)).
      assert (Hkeys : map (fun row => reward_id (rrow_reward row)) rows
                      = map reward_id (r :: rs))
        by (subst rows; now rewrite List.map_map).
      destruct (insert_rewards_answered (child_id child) rows w2 N2)
        as (N & S & C & T & Hin & Hout).
      { now rewrite Hkeys. }
      { intros row Hr. subst rows. apply List.in_map_iff in Hr as (r' & <- & Hr').
        cbn [rrow_reward]. rewrite R2. now apply Hnewr. }
      repeat split; try assumption; try congruence.
      + intros r' Hr'.
        apply (Hin {| rrow_child_id := child_id child; rrow_reward := r' |}).
        subst rows. now apply (List.in_map (fun reward => {| rrow_child_id := child_id child; rrow_reward := reward |})).
      + intros k Hk. rewrite Hout by now rewrite Hkeys. now rewrite R2. }
  cbv zeta in H3.
  match goal with
  | H : net (snd ?m) = [] /\ _ |- _ => set (w3 := snd m) in *
  end.
  clearbody w3. destruct H3 as (N3 & S3 & C3 & T3 & Rin & Rout).
  split; [exact N3|]. split; [exact S3|]. split.
  - split; [rewrite C3, C1; apply lookup_insert_eq|].
    split; [intros t Ht; rewrite T3; now apply Tin | exact Rin].
  - split; [|split].
    + intros k Hk. rewrite C3, C1. apply lookup_insert_ne.
      intros <-. apply Hk. now left.
    + intros k Hk. cbn [flat_map] in Hk. rewrite List.app_nil_r in Hk.
      rewrite T3. now apply Tout.
    + intros k Hk. cbn [flat_map] in Hk. rewrite List.app_nil_r in Hk.
      now apply Rout.
Qed.

Lemma NoDup_app_inv {A : Type} (l k : list A) :
  List.NoDup (l ++ k) ->
  List.NoDup l /\ List.NoDup k /\ forall x, In x l -> ~ In x k.
Proof.
  intros H. split; [now apply List.NoDup_app_remove_r in H|].
  split; [now apply List.NoDup_app_remove_l in H|].
  induction l as [|a l IH]; intros x Hx; [destruct Hx|].
  cbn [app] in H. apply List.NoDup_cons_iff in H as [Ha H].
  destruct Hx as [<-|Hx]; [|now apply IH].
  intros Hk. apply Ha, List.in_or_app. now right.
Qed.


Lemma forEach_complete (familyId : string) (cs : list Child) :
  forall w, net w = [] -> all_new (remote w) cs ->
    let w' := snd (forEach cs (migrateChild familyId) w) in
    net w' = [] /\ storage w' = storage w
    /\ (forall c, In c cs -> uploaded familyId (remote w') c)
    /\ same_outside cs (remote w) (remote w').
Proof.
  induction cs as [|a cs IH]; intros w Hn Hnew; cbn [forEach].
  - cbn [ret snd]. split; [exact Hn|]. split; [reflexivity|].
    split; [intros c []|]. repeat split.
  - destruct Hnew as (Hcs & Hca & Ht & Hta & Hr & Hra).
    cbn [map flat_map] in *.
    apply List.NoDup_cons_iff in Hcs as [Hc1 Hc2].
    apply NoDup_app_inv in Ht as (Ht1 & Ht2 & Ht3).
    apply NoDup_app_inv in Hr as (Hr1 & Hr2 & Hr3).
    rewrite bind_run.
    destruct (migrateChild_fresh familyId a w Hn) as (N1 & S1 & U1 & O1).
    { apply Hca. now left. }
    { exact Ht1. }
    { intros t Ht. apply Hta, List.in_or_app. left. now apply List.in_map. }
    { exact Hr1. }
    { intros r Hr. apply Hra, List.in_or_app. left. now apply List.in_map. }
    set (w1 := snd (migrateChild familyId a w)) in *. clearbody w1.
    destruct O1 as (Oc & Ot & Or). cbn [map flat_map] in Oc, Ot, Or.
    rewrite List.app_nil_r in Ot, Or.
    destruct (IH w1 N1) as (N2 & S2 & U2 & Oc2 & Ot2 & Or2).
    { split; [exact Hc2|]. split.
      { intros k Hk. rewrite Oc; [apply Hca; now right|].
        intros [<-|[]]. contradiction. }
      split; [exact Ht2|]. split.
      { intros k Hk. rewrite Ot; [apply Hta, List.in_or_app; now right|].
        intros Hk'. now apply (Ht3 k). }
      split; [exact Hr2|].
      intros k Hk. rewrite Or; [apply Hra, List.in_or_app; now right|].
      intros Hk'. now apply (Hr3 k). }
    set (w2 := snd (forEach cs (migrateChild familyId) w1)) in *. clearbody w2.
    split; [exact N2|]. split; [congruence|]. split.
    + intros c' [<-|Hc']; [|now apply U2].
      destruct U1 as (Uc & Ut & Ur). split; [|split].
      * rewrite Oc2 by exact Hc1. exact Uc.
      * intros t Hin. rewrite Ot2; [now apply Ut|].
        apply Ht3. now apply List.in_map.
      * intros r Hin. rewrite Or2; [now apply Ur|].
        apply Hr3. now apply List.in_map.
    + split; [|split].
      * intros k Hk. rewrite Oc2 by (intros Hin; apply Hk; now right).
        apply Oc. intros [<-|[]]. apply Hk. now left.
      * intros k Hk. rewrite Ot2 by (intros Hin; apply Hk, List.in_or_app; now right).
        apply Ot. intros Hin. apply Hk, List.in_or_app. now left.
      * intros k Hk. rewrite Or2 by (intros Hin; apply Hk, List.in_or_app; now right).
        apply Or. intros Hin. apply Hk, List.in_or_app. now left.
Qed.

(** X10. When every request is answered and the children, tasks and
    rewards of the snapshot have pairwise distinct ids that are not yet keys
    of the tables, one run uploads the whole snapshot: afterwards every
    child has its row with the family id of the caller, every task and
    reward has its row under its owner, all other rows of the three tables
    are as before, and the flag is set. *)
Theorem migration_complete (userId familyId : string) (w : World)
  (data : LocalStorageData) :
  let children := default [] (ls_children data) in
  let w' := snd (migrateLocalStorageToSupabase userId familyId w) in
  storage w !! STORAGE_KEY = Some (Snapshot data) ->
  net w = [] ->
  all_new (remote w) children ->
  (forall c, In c children -> uploaded familyId (remote w') c)
  /\ same_outside children (remote w) (remote w')
  /\ storage w' = <[MIGRATION_FLAG := Raw "true"]> (storage w).
Proof.
  intros children w' Hsnap Hn Hnew. subst w'.
  rewrite (migrate_snapshot_run _ _ _ _ Hsnap). cbn [snd].
  unfold migrateChildren. subst children.
  destruct (ls_children data) as [[|c cs]|]; cbn [default from_option id] in *.
  - cbn [ret snd with_storage remote storage].
    split; [intros c' []|]. split; [repeat split|reflexivity].
  - destruct (forEach_complete familyId (c :: cs) w Hn Hnew) as (N & S & U & O).
    cbn [with_storage remote storage]. rewrite S.
    split; [exact U|]. split; [exact O | reflexivity].
  - cbn [ret snd with_storage remote storage].
    split; [intros c' []|]. split; [repeat split|reflexivity].
Qed.

Lemma migration_complete_witness :
  let task := task_with_id_recurrence ParentDashboard.defaultTask "t_1" None in
  let kid := sampleKid "c_1" [task] [] in
  let w0 :=
    {| remote := emptyRemote;
       storage := <[STORAGE_KEY := sampleSnapshot [kid]]> ∅;
       net := []; journal := [] |} in
  uploaded "fam_1" (remote (snd (migrateLocalStorageToSupabase "u_1" "fam_1" w0))) kid.
Proof.
  intros task kid w0.
  destruct (migration_complete "u_1" "fam_1" w0
              {| ls_children := Some [kid]; ls_guardians := None;
                 ls_lastUpdated := "" |}) as [H _].
  - reflexivity.
  - reflexivity.
  - unfold all_new. cbn [default from_option id map flat_map app child_id
                         child_tasks child_rewards kid sampleKid remote w0
                         emptyRemote children_tbl tasks_tbl rewards_tbl].
    repeat split; try (intros k _; apply lookup_empty);
      repeat constructor; intros [].
  - apply H. left. reflexivity.
Defined.

(** ** Numbers written in decimal digits *)


Lemma digit_cases (c : ascii) :
  is_digit c = true ->
  In c ["0"; "1"; "2"; "3"; "4"; "5"; "6"; "7"; "8"; "9"]%char.
Proof.
  destruct c as [[] [] [] [] [] [] [] []]; intros H;
    first [discriminate H | cbn; tauto].
Qed.

Ltac digit_case c H :=
  apply digit_cases in H;
  repeat (destruct H as [<-|H]; [|]); [..|destruct H].

Lemma digit_not_space (c : ascii) : is_digit c = true -> is_space c = false.
Proof. intros H. digit_case c H; reflexivity. Qed.

Lemma digit_radix10 (c : ascii) : is_digit c = true -> is_radix_digit 10 c = true.
Proof. intros H. digit_case c H; reflexivity. Qed.

Lemma span_digits (s : string) :
  digits_only s = true ->
  span is_digit s = (s, EmptyString)
  /\ span (is_radix_digit 10) s = (s, EmptyString).
Proof.
  induction s as [|c s IH]; cbn [digits_only span]; [split; reflexivity|].
  intros H. apply andb_prop in H as [Hc Hs].
  destruct (IH Hs) as [I1 I2].
  rewrite Hc, (digit_radix10 c Hc), I1, I2. split; reflexivity.
Qed.

Lemma trimEnd_digits (s : string) : digits_only s = true -> trimEnd s = s.
Proof.
  induction s as [|c s IH]; cbn [digits_only trimEnd]; [reflexivity|].
  intros H. apply andb_prop in H as [Hc Hs].
  rewrite (IH Hs), (digit_not_space c Hc). destruct s; reflexivity.
Qed.

Lemma trim_digits (s : string) : digits_only s = true -> trim s = s.
Proof.
  intros H. unfold trim.
  assert (Hstart : trimStart s = s).
  { destruct s as [|c s]; [reflexivity|].
    cbn [digits_only] in H. apply andb_prop in H as [Hc _].
    cbn [trimStart]. now rewrite (digit_not_space c Hc). }
  rewrite Hstart. now apply trimEnd_digits.
Qed.

(** [parseInt] reads a string of digits as its decimal value. *)
Lemma parseInt_digits (s : string) :
  digits_only s = true -> s <> EmptyString ->
  parseInt s = round64 (radix_value 10 0 s # 1).
Proof.
  intros H Hne. destruct s as [|c s]; [congruence|].
  pose proof (proj2 (span_digits _ H)) as Hspan.
  pose proof H as H'. cbn [digits_only] in H'. apply andb_prop in H' as [Hc Hs].
  unfold parseInt. cbn [trimStart]. rewrite (digit_not_space c Hc).
  assert (Hhex : forall x r, s = String x r ->
                 Ascii.eqb x "x" || Ascii.eqb x "X" = false).
  { intros x r ->. cbn [digits_only] in Hs. apply andb_prop in Hs as [Hx _].
    digit_case x Hx; reflexivity. }
  digit_case c Hc;
    try (cbv iota beta; rewrite Hspan; reflexivity).
  destruct s as [|x r]; [reflexivity|].
  rewrite (Hhex x r eq_refl). cbv iota beta. rewrite Hspan. reflexivity.
Qed.

(** [Number] reads a string of digits as its decimal value. *)
Lemma Number_digits (s : string) :
  digits_only s = true -> s <> EmptyString ->
  Number s = round64 (radix_value 10 0 s # 1).
Proof.
  intros H Hne. unfold Number. rewrite (trim_digits s H).
  destruct s as [|c s]; [congruence|].
  pose proof (proj1 (span_digits _ H)) as Hspan.
  pose proof H as H'. cbn [digits_only] in H'. apply andb_prop in H' as [Hc Hs].
  assert (Hdec : unsigned_decimal false (String c s)
                 = round64 (radix_value 10 0 (String c s) # 1)).
  { unfold unsigned_decimal.
    assert (Hinf : String.eqb (String c s) "Infinity" = false).
    { clear Hspan. digit_case c Hc; reflexivity. }
    rewrite Hinf, Hspan. cbn [exponent_part String.length].
    rewrite append_empty_r. cbn [Z.of_nat Z.sub].
    change (pow10 (0 - 0)) with (1 # 1)%Q || change (pow10 0) with (1 # 1)%Q.
    unfold Qmult. cbn [Qnum Qden]. rewrite Z.mul_1_r. reflexivity. }
  assert (Hpre : forall x r, s = String x r ->
                 (Ascii.eqb x "x" || Ascii.eqb x "X" = false)
                 /\ (Ascii.eqb x "o" || Ascii.eqb x "O" = false)
                 /\ (Ascii.eqb x "b" || Ascii.eqb x "B" = false)).
  { intros x r ->. cbn [digits_only] in Hs. apply andb_prop in Hs as [Hx _].
    digit_case x Hx; repeat split. }
  clear Hspan.
  digit_case c Hc; try exact Hdec.
  destruct s as [|x r]; [exact Hdec|].
  destruct (Hpre x r eq_refl) as (P1 & P2 & P3).
  rewrite P1, P2, P3. exact Hdec.
Qed.

Lemma uint_digits (d : Decimal.uint) :
  digits_only (NilEmpty.string_of_uint d) = true.
Proof. induction d; cbn [NilEmpty.string_of_uint digits_only]; auto. Qed.

Lemma uint_value_acc (d : Decimal.uint) :
  forall acc : positive,
    radix_value 10 (Zpos acc) (NilEmpty.string_of_uint d)
    = Zpos (Pos.of_uint_acc d acc).
Proof.
  induction d; intros acc;
    cbn [NilEmpty.string_of_uint radix_value Pos.of_uint_acc]; [reflexivity|..];
    rewrite <- IHd; f_equal;
    match goal with
    | |- context [digit_of ?c] =>
        let v := eval vm_compute in (digit_of c) in change (digit_of c) with v
    end;
    unfold default; cbn [from_option id]; lia.
Qed.

Lemma uint_value (d : Decimal.uint) :
  radix_value 10 0 (NilEmpty.string_of_uint d) = Z.of_uint d.
Proof.
  unfold Z.of_uint.
  induction d; cbn [NilEmpty.string_of_uint radix_value Pos.of_uint];
    [reflexivity | ..];
    match goal with
    | |- context [digit_of ?c] =>
        let v := eval vm_compute in (digit_of c) in change (digit_of c) with v
    end;
    unfold default; cbn [from_option id Z.mul Z.add Z.of_N];
    [exact IHd | ..]; apply uint_value_acc.
Qed.

(** The decimal form of a natural number: digits, whose value it is. *)
Lemma dec_digits (n : Z) :
  0 <= n ->
  digits_only (dec n) = true /\ dec n <> EmptyString
  /\ radix_value 10 0 (dec n) = n.
Proof.
  intros Hn. unfold dec.
  pose proof (DecimalZ.of_to n) as Hback.
  destruct n as [|p|p]; [repeat split; discriminate| |lia].
  cbn [Z.to_int NilZero.string_of_int] in *.
  unfold Z.of_int in Hback.
  destruct (Pos.to_uint p) as [|d|d|d|d|d|d|d|d|d|d] eqn:Hd;
    [cbn in Hback; discriminate|..];
    cbn [NilZero.string_of_uint]; rewrite uint_digits, uint_value;
    (split; [reflexivity|]; split; [discriminate | exact Hback]).
Qed.

Lemma Number_dec (n : Z) : 0 <= n < 2 ^ 52 -> Number (dec n) = Int n.
Proof.
  intros Hn. destruct (dec_digits n (proj1 Hn)) as (Hd & Hne & Hv).
  rewrite (Number_digits _ Hd Hne), Hv. apply round64_int. lia.
Qed.

Lemma parseInt_dec (n : Z) : 0 <= n < 2 ^ 52 -> parseInt (dec n) = Int n.
Proof.
  intros Hn. destruct (dec_digits n (proj1 Hn)) as (Hd & Hne & Hv).
  rewrite (parseInt_digits _ Hd Hne), Hv. apply round64_int. lia.
Qed.

Lemma digit_of_nonneg (c : ascii) : 0 <= default 0 (digit_of c).
Proof.
  unfold digit_of.
  destruct ((48 <=? code c) && (code c <=? 57)) eqn:E1;
    [apply andb_prop in E1 as [E1 _]; apply Z.leb_le in E1;
     unfold default; cbn [from_option id]; lia|].
  destruct ((97 <=? code c) && (code c <=? 122)) eqn:E2;
    [apply andb_prop in E2 as [E2 _]; apply Z.leb_le in E2;
     unfold default; cbn [from_option id]; lia|].
  destruct ((65 <=? code c) && (code c <=? 90)) eqn:E3;
    [apply andb_prop in E3 as [E3 _]; apply Z.leb_le in E3;
     unfold default; cbn [from_option id]; lia|].
  unfold default; cbn [from_option id]; lia.
Qed.

Lemma radix_value_nonneg (s : string) :
  forall acc, 0 <= acc -> 0 <= radix_value 10 acc s.
Proof.
  induction s as [|c s IH]; intros acc Ha; cbn [radix_value]; [exact Ha|].
  apply IH. pose proof (digit_of_nonneg c). lia.
Qed.

Lemma isValidDuration_Int (s : string) (n : Z) :
  Number s = Int n ->
  (ParentDashboard.isValidDuration s = true <-> 1 <= n <= 1439).
Proof.
  intros Hs. unfold ParentDashboard.isValidDuration.
  rewrite Hs. cbn [isNaN Int negb andb]. fold (Int 0) (Int n) (Int 1440).
  rewrite !lt_Int, andb_true_iff, !Z.ltb_lt. lia.
Qed.

(** X11. A duration written in decimal digits (leading zeros allowed) is
    read alike by the validator of the form, which uses [Number], and by
    the "currently due" test, which uses [parseInt].  If its value [v] is
    below 2^52, both read [v], and the validator accepts the duration
    exactly when [1 <= v <= 1439].  In particular this holds for the
    decimal form of every natural number below 2^52. *)
Theorem duration_in_digits (s : string) :
  digits_only s = true -> s <> EmptyString ->
  let v := radix_value 10 0 s in
  Number s = parseInt s
  /\ (v < 2 ^ 52 ->
      parseInt s = Int v
      /\ (ParentDashboard.isValidDuration s = true <-> 1 <= v <= 1439))
  /\ (forall n, 0 <= n < 2 ^ 52 ->
        parseInt (dec n) = Int n
        /\ (ParentDashboard.isValidDuration (dec n) = true <-> 1 <= n <= 1439)).
Proof.
  intros Hd Hne v.
  split; [now rewrite Number_digits, parseInt_digits|]. split.
  - intros Hv.
    assert (Hnonneg : 0 <= v) by (apply radix_value_nonneg; lia).
    assert (Hp : parseInt s = Int v).
    { rewrite parseInt_digits by assumption. apply round64_int. lia. }
    split; [exact Hp|]. apply isValidDuration_Int.
    rewrite Number_digits by assumption. apply round64_int. lia.
  - intros n Hn. split; [now apply parseInt_dec|].
    apply isValidDuration_Int. now apply Number_dec.
Qed.

Lemma duration_in_digits_witness :
  Number "030" = parseInt "030"
  /\ (ParentDashboard.isValidDuration "030" = true <-> 1 <= 30 <= 1439).
Proof.
  assert (Hd : digits_only "030" = true) by reflexivity.
  assert (Hne : "030" <> EmptyString) by discriminate.
  destruct (duration_in_digits "030" Hd Hne) as (H1 & H2 & _).
  split; [exact H1|].
  apply H2. vm_compute. reflexivity.
Defined.

(** ** Imported titles *)

Lemma length_trimStart (s : Utf16.t) :
  (length (Utf16.trimStart s) <= length s)%nat.
Proof.
  induction s as [|u s IH]; cbn [Utf16.trimStart length]; [lia|].
  destruct (Utf16.is_white u); cbn [length]; lia.
Qed.

Lemma length_trim (s : Utf16.t) : (length (Utf16.trim s) <= length s)%nat.
Proof.
  unfold Utf16.trim, Utf16.trimEnd. rewrite length_rev.
  pose proof (length_trimStart (rev (Utf16.trimStart s))) as H.
  rewrite length_rev in H. pose proof (length_trimStart s). lia.
Qed.

(** What [trim] leaves neither starts nor ends with white space. *)
Lemma trimStart_head (s : Utf16.t) :
  match Utf16.trimStart s with
  | u :: _ => Utf16.is_white u = false
  | [] => True
  end.
Proof.
  induction s as [|u s IH]; cbn [Utf16.trimStart]; [exact I|].
  destruct (Utf16.is_white u) eqn:Hu; [exact IH | exact Hu].
Qed.

Lemma trim_last (s : Utf16.t) :
  match rev (Utf16.trim s) with
  | u :: _ => Utf16.is_white u = false
  | [] => True
  end.
Proof.
  unfold Utf16.trim, Utf16.trimEnd. rewrite rev_involutive. apply trimStart_head.
Qed.

(** X12. [formatTitleAndDescription] counts in code units.  A title of at
    most [MAX_TITLE_LENGTH] = 35 units and its description are returned as
    they are.  Of a longer title the first 35 units, trimmed, are shown
    followed by three dots, so the title shown has at most 38 units and no
    white space before the dots; the description shown starts with the
    whole title, followed by more text exactly if there was a
    description. *)
Theorem formatTitleAndDescription_spec (title description : Utf16.t) :
  let r := ParentDashboard.formatTitleAndDescription title description in
  (length (fst r) <= ParentDashboard.MAX_TITLE_LENGTH + 3)%nat
  /\ (length (fst r) <= length title + 3)%nat
  /\ ((length title <= ParentDashboard.MAX_TITLE_LENGTH)%nat ->
      r = (title, description))
  /\ ((ParentDashboard.MAX_TITLE_LENGTH < length title)%nat ->
      exists shown,
        fst r = (shown ++ Utf16.ofAscii "...")%list
        /\ shown = Utf16.trim (firstn ParentDashboard.MAX_TITLE_LENGTH title)
        /\ match rev shown with
           | u :: _ => Utf16.is_white u = false
           | [] => True
           end
        /\ exists rest, snd r = (title ++ rest)%list
                        /\ (rest = [] <-> description = [])).
Proof.
  intros r. subst r. unfold ParentDashboard.formatTitleAndDescription.
  destruct (Nat.ltb_spec ParentDashboard.MAX_TITLE_LENGTH (length title))
    as [Hlong|Hshort]; cbn [fst snd].
  - pose proof (length_trim (firstn ParentDashboard.MAX_TITLE_LENGTH title)) as Ht.
    rewrite length_firstn in Ht.
    rewrite length_app. change (length (Utf16.ofAscii "...")) with 3%nat.
    split; [lia|]. split; [lia|]. split; [lia|].
    intros _. eexists. split; [reflexivity|]. split; [reflexivity|].
    split; [apply trim_last|].
    eexists. split; [reflexivity|].
    destruct description; split; intros E; congruence.
  - split; [lia|]. split; [lia|]. split; [reflexivity | lia].
Qed.

Lemma formatTitleAndDescription_spec_witness :
  let accented :=
    (Utf16.ofAscii "Pr" ++ [225] ++ Utf16.ofAscii "ctica de canci" ++ [243]
     ++ Utf16.ofAscii "n y funci" ++ [243] ++ Utf16.ofAscii "n hoy")%list in
  let long := Utf16.ofAscii "Practise the piano piece for the school concert" in
  length accented = 33%nat
  /\ ParentDashboard.formatTitleAndDescription accented [] = (accented, [])
  /\ fst (ParentDashboard.formatTitleAndDescription long [])
     = Utf16.ofAscii "Practise the piano piece for the sc...".
Proof.
  intros accented long. split; [reflexivity|]. split.
  - destruct (formatTitleAndDescription_spec accented []) as (_ & _ & H & _).
    apply H. vm_compute. lia.
  - destruct (formatTitleAndDescription_spec long []) as (_ & _ & _ & H).
    destruct H as (shown & H & -> & _); [vm_compute; lia|].
    rewrite H. vm_compute. reflexivity.
Defined.

(** ** The table import *)


Lemma rowErrors_nil (idx : nat) (row : ParentDashboard.TableRow) :
  ParentDashboard.rowErrors idx row = [] <-> rowOk row = true.
Proof.
  unfold ParentDashboard.rowErrors, rowOk.
  destruct (is_empty _), (ParentDashboard.isValidTime _),
    (ParentDashboard.isValidDuration _); cbn; split; intros H;
    first [reflexivity | discriminate].
Qed.

Lemma rowErrors_index (idx : nat) (row : ParentDashboard.TableRow)
  (e : ParentDashboard.ValidationError) :
  In e (ParentDashboard.rowErrors idx row) ->
  ParentDashboard.err_index e = Z.of_nat idx + 1.
Proof.
  unfold ParentDashboard.rowErrors.
  destruct (is_empty _), (ParentDashboard.isValidTime _),
    (ParentDashboard.isValidDuration _); cbn; intros H;
    repeat (destruct H as [<-|H]; [reflexivity|]); destruct H.
Qed.

Lemma errors_nil (rows : list ParentDashboard.TableRow) :
  forall from,
    concat (ParentDashboard.mapi_from from ParentDashboard.rowErrors rows) = []
    <-> forallb rowOk rows = true.
Proof.
  induction rows as [|row rows IH]; intros from;
    cbn [ParentDashboard.mapi_from concat forallb]; [tauto|].
  rewrite andb_true_iff, <- (IH (S from)), <- (rowErrors_nil from row).
  split.
  - intros H. now apply List.app_eq_nil in H.
  - intros [-> ->]. reflexivity.
Qed.

Lemma errors_index (rows : list ParentDashboard.TableRow) :
  forall from e,
    In e (concat (ParentDashboard.mapi_from from ParentDashboard.rowErrors rows)) ->
    Z.of_nat from + 1 <= ParentDashboard.err_index e
                      <= Z.of_nat from + Z.of_nat (length rows).
Proof.
  induction rows as [|row rows IH]; intros from e;
    cbn [ParentDashboard.mapi_from concat length]; [intros []|].
  intros H. apply List.in_app_or in H as [H|H].
  - apply rowErrors_index in H. lia.
  - apply IH in H. lia.
Qed.

Lemma mapi_from_length {A B : Type} (f : nat -> A -> B) (xs : list A) :
  forall from, length (ParentDashboard.mapi_from from f xs) = length xs.
Proof.
  induction xs as [|x xs IH]; intros from; cbn [ParentDashboard.mapi_from length];
    [reflexivity | now rewrite IH].
Qed.

Lemma mapi_from_In {A B : Type} (f : nat -> A -> B) (xs : list A) (y : B) :
  forall from,
    In y (ParentDashboard.mapi_from from f xs) ->
    exists i x, In x xs /\ y = f i x.
Proof.
  induction xs as [|x xs IH]; intros from; cbn [ParentDashboard.mapi_from];
    [intros []|].
  intros [<-|H].
  - exists from, x. split; [now left | reflexivity].
  - apply IH in H as (i & x' & Hx' & ->). exists i, x'. split; [now right | reflexivity].
Qed.

(** X13. The table import is all or nothing, whatever
    [formatTitleAndDescription] makes of titles and descriptions.  The
    rows are taken to have time, title and duration cells of ASCII text.
    Rows whose title and time are both blank are left out; if no row
    remains, nothing happens.  If every remaining row has a title that is
    not blank, a time the validator accepts and a duration it accepts, one
    task per row is handed to [onAddTasks] for the selected child, in the
    order of the rows, and the dialog is closed and reset; each such task
    is pending with no start time, earns 5 stars, has the formatted title
    and description of its row, the row's time, which denotes a minute of
    the day, and the row's duration, which is valid.  Otherwise no task is
    added, the rows stay, and the errors reported are not empty and carry
    row numbers between 1 and the number of remaining rows. *)
Theorem table_import_all_or_nothing
  (formatTitleAndDescription : string -> string -> string * string)
  (now : nat -> Z) (random : nat -> JsNum)
  (child : Child) (st : ParentDashboard.TableImport) :
  forallb asciiRow (ParentDashboard.tableRows st) = true ->
  let rows := List.filter ParentDashboard.keptRow (ParentDashboard.tableRows st) in
  let result :=
    ParentDashboard.handleSaveTableImport formatTitleAndDescription now random
      (Some child) st in
  (rows = [] -> result = (st, None))
  /\ (rows <> [] -> forallb rowOk rows = true ->
      result
      = ({| ParentDashboard.tableRows := ParentDashboard.initialRows;
            ParentDashboard.isTableImporting := false;
            ParentDashboard.validationErrors := ParentDashboard.validationErrors st |},
         Some (child_id child,
               ParentDashboard.mapi_from 0
                 (fun index row =>
                    ParentDashboard.rowTask formatTitleAndDescription
                      (now index) (random index) index row)
                 rows))
      /\ forall tasks, snd result = Some (child_id child, tasks) ->
           length tasks = length rows
           /\ forall t, In t tasks ->
                task_status t = Pending /\ task_startTime t = None
                /\ task_reward t = 5
                /\ (exists row, In row rows
                      /\ (task_title t, task_description t)
                         = formatTitleAndDescription
                             (ParentDashboard.tr_title row)
                             (ParentDashboard.tr_description row)
                      /\ task_time t = ParentDashboard.tr_time row
                      /\ task_duration t = Some (ParentDashboard.tr_duration row))
                /\ (exists m, 0 <= m <= 1439
                      /\ ParentDashboard.parseTimeToMinutes (Some (task_time t))
                         = Int m)
                /\ ParentDashboard.isValidDuration (or_str (task_duration t) "0")
                   = true)
  /\ (forallb rowOk rows = false ->
      snd result = None
      /\ ParentDashboard.tableRows (fst result) = ParentDashboard.tableRows st
      /\ ParentDashboard.validationErrors (fst result) <> []
      /\ forall e, In e (ParentDashboard.validationErrors (fst result)) ->
           1 <= ParentDashboard.err_index e <= Z.of_nat (length rows)).
Proof.
  intros _ rows result. subst result. unfold ParentDashboard.handleSaveTableImport.
  fold rows.
  destruct (concat (ParentDashboard.mapi_from 0 ParentDashboard.rowErrors rows))
    as [|e es] eqn:Herr.
  - apply errors_nil in Herr.
    split; [intros ->; reflexivity|]. split; [|congruence].
    intros Hne _. destruct rows as [|row rows'] eqn:Hrows; [congruence|].
    rewrite <- Hrows in *. split; [reflexivity|].
    cbn [snd]. intros tasks [= <-].
    split; [apply mapi_from_length|].
    intros t Ht. apply mapi_from_In in Ht as (i & row0 & Hrow0 & ->).
    rewrite forallb_forall in Herr. specialize (Herr row0 Hrow0).
    unfold rowOk in Herr.
    apply andb_prop in Herr as [Herr Hdur]. apply andb_prop in Herr as [Htitle Htime].
    assert (Hd : or_str (Some (ParentDashboard.tr_duration row0)) "30"
                 = ParentDashboard.tr_duration row0).
    { destruct (ParentDashboard.tr_duration row0) as [|c d] eqn:Hd;
        [vm_compute in Hdur; discriminate | reflexivity]. }
    unfold ParentDashboard.rowTask.
    destruct (formatTitleAndDescription _ _) as [dt dd] eqn:Hf.
    cbn [task_status task_startTime task_reward task_title task_description
         task_time task_duration].
    rewrite Hd.
    split; [reflexivity|]. split; [reflexivity|]. split; [reflexivity|].
    split; [|split].
    + exists row0. split; [exact Hrow0|]. rewrite Hf. repeat split.
    + destruct (valid_time_minute _ Htime) as (m & Hm & Hpd & _). eauto.
    + destruct (ParentDashboard.tr_duration row0) as [|c d] eqn:Hd';
        [vm_compute in Hdur; discriminate | exact Hdur].
  - assert (Hbad : forallb rowOk rows = false).
    { destruct (forallb rowOk rows) eqn:Hall; [|reflexivity].
      apply errors_nil with (from := 0%nat) in Hall. congruence. }
    split; [intros Hnil; rewrite Hnil in Herr; discriminate|].
    split; [congruence|]. intros _.
    destruct rows as [|row rows'] eqn:Hrows; [discriminate|].
    rewrite <- Hrows in *. cbn [fst snd ParentDashboard.tableRows
                               ParentDashboard.validationErrors].
    split; [reflexivity|]. split; [reflexivity|]. split; [discriminate|].
    intros e' He'. rewrite <- Herr in He'. apply errors_index in He'. lia.
Qed.

Lemma table_import_all_or_nothing_witness :
  let st := {| ParentDashboard.tableRows :=
                 [{| ParentDashboard.tr_time := "08:00 AM";
                     ParentDashboard.tr_title := "Breakfast";
                     ParentDashboard.tr_description := "";
                     ParentDashboard.tr_duration := "20" |};
                  {| ParentDashboard.tr_time := "25:00";
                     ParentDashboard.tr_title := "Homework";
                     ParentDashboard.tr_description := "";
                     ParentDashboard.tr_duration := "45" |}];
               ParentDashboard.isTableImporting := true;
               ParentDashboard.validationErrors := [] |} in
  snd (ParentDashboard.handleSaveTableImport (fun title description => (title, description))
         (fun _ => 5) (fun _ => Int 0) (Some sampleChild) st) = None.
Proof.
  intros st.
  destruct (table_import_all_or_nothing (fun title description => (title, description))
              (fun _ => 5) (fun _ => Int 0) sampleChild st)
    as (_ & _ & H); [reflexivity|].
  apply H. vm_compute. reflexivity.
Defined.

(** One hour later, for every minute of the day, checked by evaluation. *)
Lemma next_hour_checked :
  forallb (fun m =>
    forallb (fun mode =>
      String.eqb
        (ParentDashboard.minutesToInternalString (add (Int m) (Int 60)) mode)
        (ParentDashboard.minutesToInternalString (Int ((m + 60) mod 1440)) mode))
      [H12; H24])
    minutes_of_day = true.
Proof. vm_cast_no_check (@eq_refl bool true). Qed.

Lemma last_app_one {A : Type} (l : list A) (x d : A) : List.last (l ++ [x]) d = x.
Proof. apply List.last_last. Qed.

(** X14. [addTableRow] keeps the rows and appends one with empty title and
    description and duration 30.  Its time is 09:00 when the table was
    empty; otherwise, if the time of the last row is valid and denotes the
    minute [m], the new time is valid and denotes [(m + 60) mod 1440], one
    hour later, past midnight if need be. *)
Theorem addTableRow_next_hour (timeFormat : TimeFormat)
  (rows : list ParentDashboard.TableRow) :
  exists r,
    ParentDashboard.addTableRow timeFormat rows = (rows ++ [r])%list
    /\ ParentDashboard.tr_title r = EmptyString
    /\ ParentDashboard.tr_description r = EmptyString
    /\ ParentDashboard.tr_duration r = "30"
    /\ (rows = [] ->
        ParentDashboard.parseTimeToMinutes (Some (ParentDashboard.tr_time r))
        = Int 540)
    /\ (forall before lastRow m,
          rows = (before ++ [lastRow])%list ->
          ParentDashboard.isValidTime (ParentDashboard.tr_time lastRow) = true ->
          ParentDashboard.parseTimeToMinutes (Some (ParentDashboard.tr_time lastRow))
          = Int m ->
          ParentDashboard.isValidTime (ParentDashboard.tr_time r) = true
          /\ ParentDashboard.parseTimeToMinutes (Some (ParentDashboard.tr_time r))
             = Int ((m + 60) mod 1440)).
Proof.
  unfold ParentDashboard.addTableRow.
  eexists. split; [reflexivity|].
  cbn [ParentDashboard.blankRow ParentDashboard.tr_title
       ParentDashboard.tr_description ParentDashboard.tr_duration
       ParentDashboard.tr_time].
  repeat (split; [reflexivity|]).
  split.
  - intros ->. destruct timeFormat; vm_compute; reflexivity.
  - intros before lastRow m -> Hvalid Hm.
    assert (Hlast : match (before ++ [lastRow])%list with
                    | [] => "08:00 AM"
                    | _ => ParentDashboard.tr_time
                             (List.last (before ++ [lastRow])
                                (ParentDashboard.blankRow ""))
                    end = ParentDashboard.tr_time lastRow).
    { rewrite last_app_one. destruct before; reflexivity. }
    rewrite Hlast, Hm.
    destruct (valid_time_minute _ Hvalid) as (m' & Hrange & Hm' & _).
    assert (m' = m) by (rewrite Hm in Hm'; now injection Hm').
    subst m'.
    assert (Hmode : In timeFormat [H12; H24]) by (destruct timeFormat; simpl; auto).
    pose proof next_hour_checked as H.
    rewrite forallb_forall in H. specialize (H m (in_minutes_of_day m Hrange)).
    rewrite forallb_forall in H. specialize (H timeFormat Hmode).
    apply String.eqb_eq in H. rewrite H.
    assert (Hnext : 0 <= (m + 60) mod 1440 <= 1439)
      by (pose proof (Z.mod_pos_bound (m + 60) 1440); lia).
    destruct (minute_facts _ timeFormat Hnext) as (_ & Hv & Hback).
    split; assumption.
Qed.

Lemma addTableRow_next_hour_witness :
  exists r,
    ParentDashboard.addTableRow H12 [ParentDashboard.blankRow "11:30 PM"]
    = [ParentDashboard.blankRow "11:30 PM"; r]
    /\ ParentDashboard.parseTimeToMinutes (Some (ParentDashboard.tr_time r))
       = Int 30.
Proof.
  destruct (addTableRow_next_hour H12 [ParentDashboard.blankRow "11:30 PM"])
    as (r & Hr & _ & _ & _ & _ & H).
  exists r. split; [exact Hr|].
  apply (H [] (ParentDashboard.blankRow "11:30 PM") 1410).
  - reflexivity.
  - vm_compute. reflexivity.
  - vm_compute. reflexivity.
Defined.

(** ** Moving a task, editing a reward *)

Lemma find_key_unique {A : Type} (key : A -> string) (k : string) (l : list A)
  (x y : A) :
  List.NoDup (map key l) ->
  find (fun a => String.eqb (key a) k) l = Some x ->
  In y l -> key y = k -> y = x.
Proof.
  induction l as [|a l IH]; intros Hnd Hf Hy Hk; [destruct Hy|].
  cbn [map] in Hnd. apply List.NoDup_cons_iff in Hnd as [Ha Hnd].
  cbn [find] in Hf. destruct (String.eqb (key a) k) eqn:Hak.
  - injection Hf as <-. destruct Hy as [->|Hy]; [reflexivity|].
    apply String.eqb_eq in Hak. exfalso. apply Ha.
    rewrite Hak, <- Hk. now apply List.in_map.
  - destruct Hy as [<-|Hy]; [|now apply IH].
    apply String.eqb_neq in Hak. contradiction.
Qed.

Lemma find_key_In {A : Type} (key : A -> string) (l : list A) (x : A) :
  List.NoDup (map key l) -> In x l ->
  find (fun a => String.eqb (key a) (key x)) l = Some x.
Proof.
  induction l as [|a l IH]; intros Hnd Hx; [destruct Hx|].
  cbn [map] in Hnd. apply List.NoDup_cons_iff in Hnd as [Ha Hnd].
  cbn [find]. destruct Hx as [->|Hx]; [now rewrite String.eqb_refl|].
  destruct (String.eqb (key a) (key x)) eqn:Hak; [|now apply IH].
  apply String.eqb_eq in Hak. exfalso. apply Ha. rewrite Hak.
  now apply List.in_map.
Qed.


(** X15. Dragging a task onto another task of the same child and
    confirming moves it: with distinct child ids and distinct task ids in
    the child, the drop asks for confirmation with the dragged task and the
    time of the target, the confirmation calls [onUpdateTask] with the
    dragged task at that time, and the new state is the old one in which
    only that task of that child has changed, and only in its [time].  No
    audio is generated, since title and description are unchanged. *)
Theorem drag_move_changes_time
  (getTaskSpeechText : Task -> string -> Language -> string)
  (cleanForSpeech : string -> string)
  (getSpeechBase64 : string -> Language -> option string)
  (children : list Child) (child : Child) (moving target : Task)
  (st0 : ParentDashboard.DragState) :
  List.NoDup (map child_id children) -> In child children ->
  List.NoDup (map task_id (child_tasks child)) -> In moving (child_tasks child) ->
  task_id moving <> EmptyString -> task_id moving <> task_id target ->
  let st1 := ParentDashboard.onDropOnTask (Some child) target
               (ParentDashboard.onDragStart (task_id moving) st0) in
  let moved := retimed moving (task_time target) in
  st1 = {| ParentDashboard.draggedTaskId := None;
           ParentDashboard.confirmMove := Some (moving, task_time target) |}
  /\ ParentDashboard.confirmTimeMove (Some child) st1
     = ({| ParentDashboard.draggedTaskId := None;
           ParentDashboard.confirmMove := None |},
        Some (ParentDashboard.OnUpdateTask (child_id child) moved))
  /\ App.onUpdateTask getTaskSpeechText cleanForSpeech getSpeechBase64
       children children (child_id child) moved
     = map (fun c =>
              if String.eqb (child_id c) (child_id child)
              then child_with_tasks c
                     (map (fun t => if String.eqb (task_id t) (task_id moving)
                                    then retimed t (task_time target) else t)
                        (child_tasks c))
              else c)
         children.
Proof.
  intros Hndc Hchild Hndt Hmoving Hne Hdiff st1 moved.
  assert (Hfind : find (fun t => String.eqb (task_id t) (task_id moving))
                    (child_tasks child) = Some moving)
    by now apply (find_key_In task_id).
  assert (Hst1 : st1 = {| ParentDashboard.draggedTaskId := None;
                          ParentDashboard.confirmMove :=
                            Some (moving, task_time target) |}).
  { subst st1. unfold ParentDashboard.onDropOnTask, ParentDashboard.onDragStart.
    cbn [ParentDashboard.draggedTaskId ParentDashboard.confirmMove].
    destruct (task_id moving) as [|a d] eqn:Hid; [congruence|].
    apply String.eqb_neq in Hdiff. rewrite Hdiff, Hfind. reflexivity. }
  split; [exact Hst1|]. split; [rewrite Hst1; reflexivity|].
  assert (Hsaved : App.taskToSave getTaskSpeechText cleanForSpeech getSpeechBase64
                     children (child_id child) moved = moved).
  { unfold App.taskToSave, App.findChild.
    rewrite (find_key_In child_id children child Hndc Hchild).
    cbn [mbind option_bind].
    change (task_id moved) with (task_id moving). rewrite Hfind.
    change (task_title moved) with (task_title moving).
    change (task_description moved) with (task_description moving).
    now rewrite !String.eqb_refl. }
  unfold App.onUpdateTask. rewrite Hsaved.
  change (task_id moved) with (task_id moving).
  apply List.map_ext_in. intros c Hc.
  destruct (String.eqb (child_id c) (child_id child)) eqn:Hcid; [|reflexivity].
  apply String.eqb_eq in Hcid.
  assert (c = child).
  { apply (find_key_unique child_id (child_id child) children child c Hndc);
      [now apply (find_key_In child_id) | assumption | assumption]. }
  subst c. f_equal. apply List.map_ext_in. intros t Ht.
  destruct (String.eqb (task_id t) (task_id moving)) eqn:Htid; [|reflexivity].
  apply String.eqb_eq in Htid.
  now rewrite (find_key_unique task_id (task_id moving) (child_tasks child)
                 moving t Hndt Hfind Ht Htid).
Qed.

Lemma drag_move_changes_time_witness :
  let a := overlapTask "a" "09:00 AM" in
  let b := overlapTask "b" "10:30 AM" in
  let kid := sampleKid "c_1" [a; b] [] in
  map (fun c => map (fun t => (task_id t, task_time t)) (child_tasks c))
    (App.onUpdateTask (fun _ _ _ => "") (fun s => s) (fun _ _ => None)
       [kid] [kid] "c_1" (retimed a "10:30 AM"))
  = [[("a", "10:30 AM"); ("b", "10:30 AM")]].
Proof.
  intros a b kid.
  assert (Hid : child_id kid = "c_1") by reflexivity.
  destruct (drag_move_changes_time (fun _ _ _ => "") (fun s => s) (fun _ _ => None)
              [kid] kid a b
              {| ParentDashboard.draggedTaskId := None;
                 ParentDashboard.confirmMove := None |})
    as (_ & _ & H).
  - repeat constructor. intros [].
  - now left.
  - vm_compute. repeat (apply List.NoDup_cons; [simpl; intuition discriminate|]).
    apply List.NoDup_nil.
  - now left.
  - discriminate.
  - discriminate.
  - rewrite Hid in H. change (task_time b) with "10:30 AM" in H.
    rewrite H. vm_compute. reflexivity.
Defined.

(** X16. Opening a reward of the selected child in the reward form and
    saving it unchanged calls [onUpdateReward] with exactly that reward,
    which leaves the children as they are, given a title that is not blank,
    distinct child ids and distinct reward ids in the child. *)
Theorem reward_edit_round_trip (now : Z) (children : list Child) (child : Child)
  (reward : Reward) (m : ParentDashboard.RewardModal) :
  trim (reward_title reward) <> EmptyString ->
  List.NoDup (map child_id children) -> In child children ->
  List.NoDup (map reward_id (child_rewards child)) ->
  In reward (child_rewards child) ->
  ParentDashboard.saveReward now (Some child)
    (ParentDashboard.openEditReward reward (Some child) m)
  = ({| ParentDashboard.isRewardModalOpen := false;
        ParentDashboard.editingReward := Some reward;
        ParentDashboard.rewardForm :=
          ParentDashboard.rewardForm
            (ParentDashboard.openEditReward reward (Some child) m) |},
     Some (ParentDashboard.OnUpdateReward (child_id child) reward))
  /\ App.onUpdateReward children (child_id child) reward = children.
Proof.
  intros Htitle Hndc Hchild Hndr Hreward. split.
  - unfold ParentDashboard.saveReward, ParentDashboard.openEditReward.
    cbn [ParentDashboard.rewardForm ParentDashboard.rf_title
         ParentDashboard.editingReward].
    destruct (trim (reward_title reward)) eqn:Ht; [congruence|].
    cbn [is_empty]. unfold ParentDashboard.rewardOfForm.
    cbn [ParentDashboard.rf_title ParentDashboard.rf_category
         ParentDashboard.rf_cost ParentDashboard.rf_image ParentDashboard.rf_type].
    destruct reward; reflexivity.
  - unfold App.onUpdateReward. apply map_id_on. intros c Hc.
    destruct (String.eqb (child_id c) (child_id child)) eqn:Hcid; [|reflexivity].
    apply String.eqb_eq in Hcid.
    assert (c = child).
    { apply (find_key_unique child_id (child_id child) children child c Hndc);
        [now apply (find_key_In child_id) | assumption | assumption]. }
    subst c. rewrite <- (child_with_own_rewards child) at 3. f_equal.
    apply map_id_on. intros r Hr.
    destruct (String.eqb (reward_id r) (reward_id reward)) eqn:Hrid; [|reflexivity].
    apply String.eqb_eq in Hrid. symmetry.
    apply (find_key_unique reward_id (reward_id reward) (child_rewards child)
             reward r Hndr); [now apply (find_key_In reward_id) | assumption..].
Qed.

Lemma reward_edit_round_trip_witness :
  let reward := {| reward_id := "r_1"; reward_title := "Ice cream";
                   reward_category := "Treats"; reward_cost := 30;
                   reward_image := ""; reward_type := Treat |} in
  let kid := sampleKid "c_1" [] [reward] in
  App.onUpdateReward [kid] "c_1" reward = [kid].
Proof.
  intros reward kid.
  destruct (reward_edit_round_trip 5 [kid] kid reward
              {| ParentDashboard.isRewardModalOpen := false;
                 ParentDashboard.editingReward := None;
                 ParentDashboard.rewardForm :=
                   {| ParentDashboard.rf_title := "";
                      ParentDashboard.rf_category := "";
                      ParentDashboard.rf_cost := 0;
                      ParentDashboard.rf_image := "";
                      ParentDashboard.rf_type := Toy |} |})
    as [_ H].
  - vm_compute. discriminate.
  - repeat constructor. intros [].
  - now left.
  - repeat constructor. intros [].
  - now left.
  - exact H.
Defined.

(** ** uploadFamilyData *)

Lemma sub_Int (a b : Z) :
  Z.abs (a - b) < 2 ^ 52 -> sub (Int a) (Int b) = Int (a - b).
Proof.
  intros H. unfold sub, Int, Qminus, Qplus, Qopp. cbn [Qnum Qden Pos.mul].
  rewrite !Z.mul_1_r. replace (a + - b) with (a - b) by lia.
  now apply round64_int.
Qed.

Lemma split_char_digits (s : string) :
  digits_only s = true -> split_char "_" s = [s].
Proof.
  induction s as [|c s IH]; cbn [digits_only split_char]; [reflexivity|].
  intros H. apply andb_prop in H as [Hc Hs]. rewrite (IH Hs).
  assert (Hne : Ascii.eqb c "_" = false) by (digit_case c Hc; reflexivity).
  now rewrite Hne.
Qed.

(** A child whose id is [c_] followed by a clock reading less than five
    seconds old counts as brand new. *)
Lemma brandNew_recent (now now' : Z) (c : Child) :
  0 <= now -> now <= now' < now + 5000 -> now' < 2 ^ 52 ->
  child_id c = String.append "c_" (dec now) ->
  Sync.brandNew now' c = true.
Proof.
  intros Hnow Hlater Hbound Hid.
  destruct (dec_digits now Hnow) as (Hd & Hne & _).
  unfold Sync.brandNew. rewrite Hid.
  change (String.append "c_" (dec now)) with (String "c" (String "_" (dec now))).
  cbn [startsWith Ascii.eqb Bool.eqb andb split_char].
  rewrite (split_char_digits _ Hd). cbn [nth_error].
  destruct (dec now) as [|d ds] eqn:Hdec; [congruence|].
  cbn [or_str]. rewrite <- Hdec, parseInt_dec by lia.
  rewrite sub_Int by lia. rewrite lt_Int. apply Z.ltb_lt. lia.
Qed.

(** X17. A child created in the settings ([saveChild] without a child
    being edited) is not uploaded by [addChild]: its id is [c_] followed by
    the clock reading of its creation, so [uploadFamilyData], called less
    than five seconds later, takes it for a brand-new child and returns
    before any request.  The clock readings are assumed below 2^52. *)
Theorem new_child_is_not_uploaded (now now' : Z)
  (currentUser : option App.UserAccount) (childForm : ParentSettings.ChildForm)
  (child : Child) :
  0 <= now -> now <= now' < now + 5000 -> now' < 2 ^ 52 ->
  ParentSettings.saveChild now None childForm
  = Some (ParentSettings.OnAddChild child) ->
  Sync.addChild_sync now' currentUser child = ret false
  /\ forall w, snd (Sync.addChild_sync now' currentUser child w) = w.
Proof.
  intros Hnow Hlater Hbound Hsave.
  assert (Hid : child_id child = String.append "c_" (dec now)).
  { unfold ParentSettings.saveChild in Hsave.
    destruct (is_empty _); [discriminate|]. now injection Hsave as <-. }
  assert (Hnew : Sync.brandNew now' child = true)
    by now apply (brandNew_recent now).
  assert (Hret : Sync.addChild_sync now' currentUser child = ret false).
  { unfold Sync.addChild_sync, Sync.uploadFamilyData.
    cbn [forallb]. rewrite Hnew. cbn [andb].
    destruct (App.hasFamily currentUser); [|reflexivity].
    destruct (currentUser ≫= App.user_familyId) as [[|a f]|]; reflexivity. }
  split; [exact Hret|]. intros w. now rewrite Hret.
Qed.

Lemma new_child_is_not_uploaded_witness :
  let form := {| ParentSettings.form_name := "Ana"; ParentSettings.form_age := "7";
                 ParentSettings.form_avatar := "";
                 ParentSettings.form_loveLanguages := [] |} in
  exists child,
    ParentSettings.saveChild 1700000000000 None form
    = Some (ParentSettings.OnAddChild child)
    /\ Sync.addChild_sync 1700000000002 (loggedIn "u_1" "fam_1") child = ret false.
Proof.
  intros form.
  destruct (ParentSettings.saveChild 1700000000000 None form)
    as [[c|child]|] eqn:Hsave; try (vm_compute in Hsave; discriminate).
  exists child. split; [reflexivity|].
  apply (new_child_is_not_uploaded 1700000000000 1700000000002
           (loggedIn "u_1" "fam_1") form child); [lia | lia | | exact Hsave].
  vm_compute. reflexivity.
Defined.








(** ** withRetry *)

Lemma attempts_spec {T : Type} (fn : nat -> Gemini.Attempt T) (retries : Z) :
  forall (remaining i : nat) (lastError : option Gemini.ApiError),
    (1 <= remaining)%nat ->
    Z.of_nat i + Z.of_nat remaining = retries + 1 ->
    let r := Gemini.attempts fn retries remaining i lastError in
    let k := length (snd r) in
    Z.of_nat (i + k) <= retries
    /\ snd r = map (fun j => Gemini.INITIAL_BACKOFF * 2 ^ Z.of_nat j) (seq i k)
    /\ (forall j, (i <= j < i + k)%nat ->
          exists e, fn j = Gemini.Rejects e /\ Gemini.isRateLimit e = true)
    /\ match fst r with
       | Gemini.Returns v => fn (i + k)%nat = Gemini.Resolves v
       | Gemini.Throws e =>
           exists err, e = Some err /\ fn (i + k)%nat = Gemini.Rejects err
                       /\ (Gemini.isRateLimit err = false
                           \/ Z.of_nat (i + k) = retries)
       end.
Proof.
  induction remaining as [|n IH]; intros i lastError Hpos Hsum; [lia|].
  cbn [Gemini.attempts].
  destruct (fn i) as [v|err] eqn:Hfn.
  - cbn [fst snd length seq map]. rewrite Nat.add_0_r.
    split; [lia|]. split; [reflexivity|]. split; [intros j Hj; lia | exact Hfn].
  - destruct (Gemini.isRateLimit err) eqn:Hrate; cbn [andb].
    + destruct (Z.ltb_spec (Z.of_nat i) retries) as [Hlt|Hge].
      * destruct (IH (S i) (Some err)) as (Hk & Hs & Hr & Ho); [lia | lia |].
        destruct (Gemini.attempts fn retries n (S i) (Some err)) as [o sl].
        cbn [fst snd length] in *.
        replace (i + S (length sl))%nat with (S i + length sl)%nat by lia.
        split; [exact Hk|]. split; [|split; [|exact Ho]].
        -- cbn [seq map]. f_equal. exact Hs.
        -- intros j Hj. destruct (Nat.eq_dec j i) as [->|Hne];
             [exists err; split; assumption|].
           apply Hr. lia.
      * cbn [fst snd length seq map]. rewrite Nat.add_0_r.
        split; [lia|]. split; [reflexivity|]. split; [intros j Hj; lia|].
        exists err. repeat split; auto. right. lia.
    + cbn [fst snd length seq map]. rewrite Nat.add_0_r.
      split; [lia|]. split; [reflexivity|]. split; [intros j Hj; lia|].
      exists err. repeat split; auto.
Qed.

Lemma backoff_sum (k : nat) :
  fold_right Z.add 0
    (map (fun j => Gemini.INITIAL_BACKOFF * 2 ^ Z.of_nat j) (seq 0 k))
  = Gemini.INITIAL_BACKOFF * (2 ^ Z.of_nat k - 1).
Proof.
  induction k as [|k IH]; [reflexivity|].
  rewrite List.seq_S, List.map_app, List.fold_right_app.
  cbn [map fold_right Nat.add].
  assert (H : forall (l : list Z) (a : Z),
            fold_right Z.add a l = fold_right Z.add 0 l + a).
  { induction l as [|x l IHl]; intros a; cbn [fold_right]; [lia|].
    rewrite IHl. lia. }
  rewrite H, IH. rewrite Nat2Z.inj_succ, Z.pow_succ_r by lia.
  unfold Gemini.INITIAL_BACKOFF. lia.
Qed.

(** X19. [withRetry] with a budget of [retries >= 0] waits at most
    [retries] times; its waits are 1000, 2000, 4000, ... milliseconds in
    this order, so with k waits it has slept 1000 * (2^k - 1) ms, at most
    1000 * (2^retries - 1).  Every call before the last was refused for a
    rate limit, and the result is that of call k: its value, or its error
    rethrown, which happens when the error is no rate limit or the budget
    is used up.  It never throws [undefined]. *)
Theorem withRetry_bounds {T : Type} (fn : nat -> Gemini.Attempt T) (retries : Z) :
  0 <= retries ->
  let r := Gemini.withRetry fn retries in
  let k := length (snd r) in
  Z.of_nat k <= retries
  /\ snd r = map (fun j => 1000 * 2 ^ Z.of_nat j) (seq 0 k)
  /\ fold_right Z.add 0 (snd r) = 1000 * (2 ^ Z.of_nat k - 1)
  /\ fold_right Z.add 0 (snd r) <= 1000 * (2 ^ retries - 1)
  /\ (forall j, (j < k)%nat ->
        exists e, fn j = Gemini.Rejects e /\ Gemini.isRateLimit e = true)
  /\ match fst r with
     | Gemini.Returns v => fn k = Gemini.Resolves v
     | Gemini.Throws e =>
         exists err, e = Some err /\ fn k = Gemini.Rejects err
                     /\ (Gemini.isRateLimit err = false \/ Z.of_nat k = retries)
     end.
Proof.
  intros Hr. unfold Gemini.withRetry.
  destruct (attempts_spec fn retries (Z.to_nat (retries + 1)) 0 None)
    as (Hk & Hs & Hrej & Ho); [lia | lia |].
  cbv zeta. cbn [Nat.add] in *.
  set (r := Gemini.attempts fn retries (Z.to_nat (retries + 1)) 0 None) in *.
  split; [exact Hk|]. split; [exact Hs|].
  assert (Hsum : fold_right Z.add 0 (snd r)
                 = 1000 * (2 ^ Z.of_nat (length (snd r)) - 1)).
  { rewrite Hs at 1. apply backoff_sum. }
  split; [exact Hsum|]. split.
  - rewrite Hsum.
    assert (2 ^ Z.of_nat (length (snd r)) <= 2 ^ retries)
      by (apply Z.pow_le_mono_r; lia).
    lia.
  - split; [|exact Ho]. intros j Hj. apply Hrej. lia.
Qed.

Lemma withRetry_bounds_witness :
  let busy := {| Gemini.message := Some "429 Too Many Requests";
                 Gemini.status := None |} in
  let fn := fun i : nat =>
              match i with
              | O | S O => Gemini.Rejects busy
              | _ => Gemini.Resolves "audio"
              end in
  Gemini.withRetry fn Gemini.MAX_RETRIES = (Gemini.Returns "audio", [1000; 2000])
  /\ fold_right Z.add 0 (snd (Gemini.withRetry fn Gemini.MAX_RETRIES)) <= 7000.
Proof.
  intros busy fn. split; [vm_compute; reflexivity|].
  destruct (withRetry_bounds fn Gemini.MAX_RETRIES) as (_ & _ & _ & H & _).
  - unfold Gemini.MAX_RETRIES. lia.
  - exact H.
Defined.

(** ** The child portal *)

Lemma remainingCount_perm (l l' : list Task) :
  Permutation l l' -> ChildPortal.remainingCount l = ChildPortal.remainingCount l'.
Proof.
  unfold ChildPortal.remainingCount.
  induction 1 as [|x l l' _ IH|x y l|l l' l'' _ IH1 _ IH2]; cbn [List.filter].
  - reflexivity.
  - destruct (task_status x); cbn [length]; lia.
  - destruct (task_status x), (task_status y); reflexivity.
  - congruence.
Qed.

Lemma activeChild_map (f : Child -> Child) (children : list Child) :
  (forall c, child_active (f c) = child_active c) ->
  App.activeChild (map f children) = option_map f (App.activeChild children).
Proof.
  intros Hf. unfold App.activeChild.
  rewrite (find_map child_active f children Hf).
  destruct (find child_active children); [reflexivity|].
  destruct children; reflexivity.
Qed.

Lemma activeChild_In (children : list Child) (ac : Child) :
  App.activeChild children = Some ac -> In ac children.
Proof.
  unfold App.activeChild.
  destruct (find child_active children) as [c|] eqn:Hf.
  - intros [= <-]. now apply find_some in Hf.
  - destruct children as [|c cs]; [discriminate|]. intros [= <-]. now left.
Qed.

(** Marking the one task of a given id as done takes it out of the count
    of tasks that are not done, unless it was done already. *)
Lemma remainingCount_done (now : Z) (task : Task) (tasks : list Task) :
  List.NoDup (map task_id tasks) -> In task tasks ->
  ChildPortal.remainingCount
    (map (fun t => if String.eqb (task_id t) (task_id task)
                   then App.updatedTask now t Done else t) tasks)
  = (ChildPortal.remainingCount tasks
     - match task_status task with Done => 0 | _ => 1 end)%nat.
Proof.
  unfold ChildPortal.remainingCount.
  induction tasks as [|a l IH]; intros Hnd Hin; [destruct Hin|].
  cbn [map] in Hnd. apply List.NoDup_cons_iff in Hnd as [Ha Hnd].
  cbn [map List.filter]. destruct Hin as [->|Hin].
  - rewrite String.eqb_refl.
    assert (Hrest : map (fun t => if String.eqb (task_id t) (task_id task)
                                  then App.updatedTask now t Done else t) l = l).
    { apply map_id_on. intros t Ht.
      destruct (String.eqb (task_id t) (task_id task)) eqn:He; [|reflexivity].
      apply String.eqb_eq in He. exfalso. apply Ha. rewrite <- He.
      now apply List.in_map. }
    rewrite Hrest. unfold App.updatedTask. cbn [task_status task_with_status].
    destruct (task_status task); cbn [length]; lia.
  - assert (Hne : String.eqb (task_id a) (task_id task) = false).
    { apply String.eqb_neq. intros He. apply Ha. rewrite He.
      now apply List.in_map. }
    rewrite Hne. specialize (IH Hnd Hin).
    assert (Hpos : match task_status task with Done => True | _ =>
              (1 <= length (List.filter
                 (fun t => match task_status t with Done => false | _ => true end)
                 l))%nat end).
    { destruct (task_status task) eqn:Hs; [| |exact I].
      - clear -Hin Hs. induction l as [|b l IHl]; [destruct Hin|].
        cbn [List.filter]. destruct Hin as [->|Hin].
        + rewrite Hs. cbn [length]. lia.
        + specialize (IHl Hin). destruct (task_status b); cbn [length]; lia.
      - clear -Hin Hs. induction l as [|b l IHl]; [destruct Hin|].
        cbn [List.filter]. destruct Hin as [->|Hin].
        + rewrite Hs. cbn [length]. lia.
        + specialize (IHl Hin). destruct (task_status b); cbn [length]; lia. }
    destruct (task_status a); cbn [length]; rewrite IH;
      destruct (task_status task); lia.
Qed.

(** X20. Completing a task in the portal lowers the number of remaining
    tasks shown by one, or leaves it if the task was done already: the
    child shown is the same child, with the same stars, and the count over
    its tasks in any order is the count before minus one.  The ids of the
    child's tasks are assumed pairwise distinct. *)
Theorem completing_reduces_remaining (now : Z) (children : list Child)
  (ac : Child) (task : Task) :
  App.activeChild children = Some ac ->
  List.NoDup (map task_id (child_tasks ac)) -> In task (child_tasks ac) ->
  let children' :=
    ChildPortal.handleComplete (App.portal_onUpdateTask now children) task in
  exists ac',
    App.activeChild children' = Some ac'
    /\ child_id ac' = child_id ac /\ child_stars ac' = child_stars ac
    /\ forall sortedTasks sortedTasks',
         Permutation sortedTasks (child_tasks ac) ->
         Permutation sortedTasks' (child_tasks ac') ->
         ChildPortal.remainingCount sortedTasks'
         = (ChildPortal.remainingCount sortedTasks
            - match task_status task with Done => 0 | _ => 1 end)%nat.
Proof.
  intros Hac Hnd Hin children'. subst children'.
  unfold ChildPortal.handleComplete, App.portal_onUpdateTask. rewrite Hac.
  unfold App.updateTaskStatus.
  rewrite activeChild_map, Hac
    by (intros c; destruct (String.eqb (child_id c) (child_id ac)); reflexivity).
  cbn [option_map]. rewrite String.eqb_refl.
  eexists. split; [reflexivity|].
  cbn [child_id child_stars child_tasks child_with_tasks].
  split; [reflexivity|]. split; [reflexivity|].
  intros sortedTasks sortedTasks' Hp Hp'.
  rewrite (remainingCount_perm _ _ Hp), (remainingCount_perm _ _ Hp').
  now apply remainingCount_done.
Qed.

Lemma completing_reduces_remaining_witness :
  let a := overlapTask "a" "09:00 AM" in
  let b := overlapTask "b" "10:30 AM" in
  let kid := sampleKid "c_1" [a; b] [] in
  exists ac',
    App.activeChild (ChildPortal.handleComplete (App.portal_onUpdateTask 5 [kid]) a)
    = Some ac'
    /\ ChildPortal.remainingCount (child_tasks ac') = 1%nat.
Proof.
  intros a b kid.
  destruct (completing_reduces_remaining 5 [kid] kid a)
    as (ac' & Hac' & _ & _ & H).
  - reflexivity.
  - vm_compute. repeat (apply List.NoDup_cons; [simpl; intuition discriminate|]).
    apply List.NoDup_nil.
  - now left.
  - exists ac'. split; [exact Hac'|].
    rewrite (H (child_tasks kid) (child_tasks ac')); [reflexivity | reflexivity..].
Defined.


Section SpeakFacts.
Variable getTaskSpeechText : Task -> string -> Language -> string.
Variable cleanForSpeech : string -> string.
Variable getSpeechBase64 : string -> Language -> option string.

Local Abbreviation generated :=
  (generatedAudio getTaskSpeechText cleanForSpeech getSpeechBase64).

Lemma generateOne_audio (task : Task) (childName : string) (updated : Task)
  (status status' : TaskStatus) (lang lang' : Language) :
  ChildPortal.task_audio
    (App.generateOne getTaskSpeechText cleanForSpeech getSpeechBase64
       task childName updated (status', lang'))
    status lang
  = match status, status', lang, lang' with
    | Pending, Pending, Es, Es | Pending, Pending, En, En
    | Active, Active, Es, Es | Active, Active, En, En
    | Done, Done, Es, Es | Done, Done, En, En =>
        match generated task childName status lang with
        | Some (String c a) => Some (String c a)
        | _ => ChildPortal.task_audio updated status lang
        end
    | _, _, _, _ => ChildPortal.task_audio updated status lang
    end.
Proof.
  unfold App.generateOne, generatedAudio.
  destruct status, status', lang, lang';
    destruct (getSpeechBase64 _ _) as [[|c a]|]; reflexivity.
Qed.

(** Each audio field of the task returned by [preGenerateTaskAudio] holds
    the recording generated for its status and language, or what it held
    before if none was returned. *)
Lemma preGenerateTaskAudio_audio (task : Task) (childName : string)
  (status : TaskStatus) (lang : Language) :
  ChildPortal.task_audio
    (App.preGenerateTaskAudio getTaskSpeechText cleanForSpeech getSpeechBase64
       task childName)
    status lang
  = match generated task childName status lang with
    | Some (String c a) => Some (String c a)
    | _ => ChildPortal.task_audio task status lang
    end.
Proof.
  unfold App.preGenerateTaskAudio.
  cbn [App.statuses App.languages flat_map map app fold_left].
  rewrite !generateOne_audio.
  destruct status, lang; reflexivity.
Qed.

Lemma task_audio_status (t : Task) (st : TaskStatus) (start : option Z)
  (status : TaskStatus) (lang : Language) :
  ChildPortal.task_audio (task_with_status t st start) status lang
  = ChildPortal.task_audio t status lang.
Proof. destruct status, lang; reflexivity. Qed.

(** X21. When the speech service has returned a recording for every
    request of [preGenerateTaskAudio], reading the stored task aloud in the
    portal needs no service: in whatever status the task is by then, in
    either language and with or without learning mode, everything
    [handleSpeak] says is a stored recording, namely the one generated for
    that status and language. *)
Theorem generated_audio_is_played (task : Task) (childName : string) :
  (forall text lang, exists c a, getSpeechBase64 text lang = Some (String c a)) ->
  let stored :=
    App.preGenerateTaskAudio getTaskSpeechText cleanForSpeech getSpeechBase64
      task childName in
  forall (status : TaskStatus) (start : option Z) (learningMode : bool)
         (language : Language) (activeChild : option Child) (u : ChildPortal.Utterance),
    In u (ChildPortal.handleSpeak getTaskSpeechText cleanForSpeech false
            learningMode language activeChild
            (task_with_status stored status start)) ->
    exists lang audio,
      u = ChildPortal.PlayStored
            (getTaskSpeechText (task_with_status stored status start)
               (or_str (option_map child_name activeChild) "Amigo") lang)
            audio
      /\ generated task childName status lang = Some audio.
Proof.
  intros Hgen stored status start learningMode language activeChild u Hu.
  assert (Hspeak : forall name nativeLang lang,
    exists audio,
      ChildPortal.speakIn getTaskSpeechText cleanForSpeech
        (task_with_status stored status start) name nativeLang lang
      = ChildPortal.PlayStored
          (getTaskSpeechText (task_with_status stored status start) name lang) audio
      /\ generated task childName status lang = Some audio).
  { intros name nativeLang lang. unfold ChildPortal.speakIn.
    change (task_status (task_with_status stored status start)) with status.
    rewrite task_audio_status. subst stored.
    rewrite preGenerateTaskAudio_audio.
    destruct (Hgen (cleanForSpeech
                      (getTaskSpeechText
                         (task_with_status task status (task_startTime task))
                         childName lang)) lang) as (c & a & Ha).
    unfold generatedAudio. rewrite Ha. eauto. }
  unfold ChildPortal.handleSpeak in Hu.
  destruct learningMode; cbn [In] in Hu.
  - destruct Hu as [<-|[<-|[]]].
    + destruct (Hspeak (or_str (option_map child_name activeChild) "Amigo")
                  language (match language with En => Es | Es => En end))
        as (audio & -> & Ha). eauto.
    + destruct (Hspeak (or_str (option_map child_name activeChild) "Amigo")
                  language language) as (audio & -> & Ha). eauto.
  - destruct Hu as [<-|[]].
    destruct (Hspeak (or_str (option_map child_name activeChild) "Amigo")
                language language) as (audio & -> & Ha). eauto.
Qed.

End SpeakFacts.

Lemma generated_audio_is_played_witness :
  let text := fun (t : Task) (_ : string) (_ : Language) => task_title t in
  let tts := fun (s : string) (_ : Language) => Some (String "#" s) in
  let stored := App.preGenerateTaskAudio text (fun s => s) tts sampleTask "Ana" in
  exists lang audio,
    ChildPortal.PlayStored "Brush teeth" "#Brush teeth"
    = ChildPortal.PlayStored
        (text (task_with_status stored Pending None)
           (or_str (option_map child_name None) "Amigo") lang)
        audio
    /\ generatedAudio text (fun s => s) tts sampleTask "Ana" Pending lang
       = Some audio.
Proof.
  intros text tts stored.
  apply (generated_audio_is_played text (fun s => s) tts sampleTask "Ana"
           (fun s _ => ex_intro _ "#"%char (ex_intro _ s eq_refl))
           Pending None false En None).
  left. reflexivity.
Defined.

(** ** The rewards catalog *)

(** X22. Redeeming a selected reward in the catalog acts on the child the
    catalog shows.  With pairwise distinct child ids the handler is called,
    it succeeds exactly when that child has at least the reward's cost in
    stars, a refusal changes nothing, and after a success the catalog shows
    the same child with the cost taken off and the redemption, carrying the
    note as typed, first in its history; the other children are the same. *)
Theorem catalog_redeems_for_shown_child (now : Z) (children : list Child)
  (ac : Child) (reward : Reward) (redemptionNote : string) :
  List.NoDup (map child_id children) ->
  App.activeChild children = Some ac ->
  exists result,
    RewardsCatalog.handleRedeem now children (Some reward) redemptionNote
    = Some (reward_cost reward <=? child_stars ac, result)
    /\ (child_stars ac < reward_cost reward -> result = children)
    /\ (reward_cost reward <= child_stars ac ->
        exists ac',
          App.activeChild result = Some ac'
          /\ child_id ac' = child_id ac
          /\ child_stars ac' = child_stars ac - reward_cost reward
          /\ head (default [] (child_redemptionHistory ac'))
             = Some (App.redemptionRecord now reward (Some redemptionNote))
          /\ map child_id result = map child_id children
          /\ forall c, In c children -> child_id c <> child_id ac -> In c result).
Proof.
  intros Hnd Hac. unfold RewardsCatalog.handleRedeem. rewrite Hac.
  unfold App.redeemReward.
  rewrite (find_key_In child_id children ac Hnd (activeChild_In _ _ Hac)).
  destruct (Z.ltb_spec (child_stars ac) (reward_cost reward)) as [Hlt|Hge].
  - exists children. split.
    + f_equal. f_equal. symmetry. apply Z.leb_gt. exact Hlt.
    + split; [reflexivity | lia].
  - eexists. split.
    + f_equal. f_equal. symmetry. apply Z.leb_le. exact Hge.
    + split; [lia|]. intros _.
      exists (App.redeemedChild now ac reward (Some redemptionNote)).
      rewrite activeChild_map, Hac
        by (intros c; destruct (String.eqb (child_id c) (child_id ac)); reflexivity).
      cbn [option_map]. rewrite String.eqb_refl.
      split; [reflexivity|]. split; [reflexivity|]. split; [reflexivity|].
      split; [reflexivity|]. split.
      * rewrite List.map_map. apply List.map_ext. intros c.
        destruct (String.eqb (child_id c) (child_id ac)); reflexivity.
      * intros c Hc Hne. apply List.in_map_iff. exists c.
        apply String.eqb_neq in Hne. rewrite Hne. now split.
Qed.

Lemma catalog_redeems_for_shown_child_witness :
  let reward := {| reward_id := "r_1"; reward_title := "Ice cream";
                   reward_category := "Treats"; reward_cost := 30;
                   reward_image := ""; reward_type := Treat |} in
  let shown := child_with_stars_history (sampleKid "c_1" [] []) 40 [] in
  let kids := [shown; sampleKid "c_2" [] []] in
  exists result ac',
    RewardsCatalog.handleRedeem 7 kids (Some reward) "for Friday"
    = Some (true, result)
    /\ App.activeChild result = Some ac' /\ child_stars ac' = 10.
Proof.
  intros reward shown kids.
  destruct (catalog_redeems_for_shown_child 7 kids shown reward "for Friday")
    as (result & H & _ & Hok).
  - vm_compute. repeat (apply List.NoDup_cons; [simpl; intuition discriminate|]).
    apply List.NoDup_nil.
  - reflexivity.
  - destruct Hok as (ac' & Hac' & _ & Hstars & _); [vm_compute; discriminate|].
    exists result, ac'. split; [exact H|]. split; [exact Hac' | exact Hstars].
Defined.

(** ** Pasting from a spreadsheet *)


Lemma cell_setCell (row : ParentDashboard.TableRow) (k c : nat) (v : string) :
  (c <= 3)%nat ->
  cell c (ParentDashboard.setCell row k v) = if (c =? k)%nat then v else cell c row.
Proof.
  intros Hc.
  destruct c as [|[|[|[|c]]]]; [| | | |lia];
    destruct k as [|[|[|[|k]]]]; reflexivity.
Qed.

Lemma pasteCols_cell (cols : list string) (colIndex : nat)
  (row : ParentDashboard.TableRow) (c : nat) :
  (c <= 3)%nat ->
  cell c (ParentDashboard.pasteCols colIndex cols row)
  = if (colIndex <=? c)%nat
    then match cols !! (c - colIndex)%nat with
         | Some value => trim value
         | None => cell c row
         end
    else cell c row.
Proof.
  intros Hc. revert colIndex row.
  induction cols as [|v rest IH]; intros colIndex row.
  - cbn [ParentDashboard.pasteCols]. destruct (colIndex <=? c)%nat; reflexivity.
  - cbn [ParentDashboard.pasteCols]. rewrite IH, cell_setCell by exact Hc.
    destruct (Nat.leb_spec (S colIndex) c) as [H1|H1].
    + destruct (Nat.leb_spec colIndex c) as [_|]; [|lia].
      replace (c - colIndex)%nat with (S (c - S colIndex)) by lia.
      cbn [lookup list_lookup].
      destruct (rest !! (c - S colIndex)%nat); [reflexivity|].
      destruct (Nat.eqb_spec c colIndex); [lia | reflexivity].
    + destruct (Nat.eqb_spec c colIndex) as [->|Hne].
      * rewrite Nat.leb_refl, Nat.sub_diag. reflexivity.
      * destruct (Nat.leb_spec colIndex c); [lia | reflexivity].
Qed.

Lemma pasteRows_spec (colIndex : nat) (lines : list string) :
  forall (rowIndex : nat) (tableRows : list ParentDashboard.TableRow),
    (rowIndex <= length tableRows)%nat ->
    exists rows',
      ParentDashboard.pasteRows rowIndex colIndex lines tableRows = Some rows'
      /\ length rows' = Nat.max (length tableRows) (rowIndex + length lines)
      /\ forall i,
           nth i rows' (ParentDashboard.blankRow "")
           = let before := nth i tableRows (ParentDashboard.blankRow "") in
             if (rowIndex <=? i)%nat
             then match lines !! (i - rowIndex)%nat with
                  | Some line =>
                      ParentDashboard.pasteCols colIndex (split_char "009" line) before
                  | None => before
                  end
             else before.
Proof.
  induction lines as [|line rest IH]; intros rowIndex tableRows Hle.
  - exists tableRows. split; [reflexivity|]. split; [cbn [length]; lia|].
    intros i. cbv zeta. destruct (rowIndex <=? i)%nat; reflexivity.
  - cbn [ParentDashboard.pasteRows].
    set (extended := if (length tableRows <=? rowIndex)%nat
                     then (tableRows ++ [ParentDashboard.blankRow ""])%list
                     else tableRows).
    assert (Hlen : length extended = Nat.max (length tableRows) (S rowIndex)).
    { subst extended. destruct (Nat.leb_spec (length tableRows) rowIndex).
      - rewrite length_app. cbn [length]. lia.
      - lia. }
    assert (Hnth : forall i, nth i extended (ParentDashboard.blankRow "")
                             = nth i tableRows (ParentDashboard.blankRow "")).
    { intros i. subst extended.
      destruct (Nat.leb_spec (length tableRows) rowIndex); [|reflexivity].
      destruct (Nat.lt_ge_cases i (length tableRows)).
      - now rewrite List.app_nth1.
      - rewrite List.app_nth2 by lia.
        rewrite (List.nth_overflow tableRows) by lia.
        destruct (i - length tableRows)%nat as [|[|k]]; reflexivity. }
    destruct (extended !! rowIndex) as [currentRow|] eqn:Hcur.
    2:{ apply lookup_ge_None in Hcur. lia. }
    assert (Hcur' : currentRow = nth rowIndex tableRows (ParentDashboard.blankRow "")).
    { rewrite <- Hnth. rewrite nth_lookup, Hcur. reflexivity. }
    set (written := <[rowIndex := ParentDashboard.pasteCols colIndex
                                    (split_char "009" line) currentRow]> extended).
    destruct (IH (S rowIndex) written) as (rows' & Hrun & Hlen' & Hrows).
    { subst written. rewrite length_insert. lia. }
    exists rows'. split; [exact Hrun|]. split.
    { rewrite Hlen'. subst written. rewrite length_insert, Hlen.
      cbn [length]. lia. }
    intros i. rewrite Hrows. cbv zeta.
    assert (Hw : forall j, j <> rowIndex ->
              nth j written (ParentDashboard.blankRow "")
              = nth j tableRows (ParentDashboard.blankRow "")).
    { intros j Hj. subst written. rewrite nth_lookup.
      rewrite list_lookup_insert_ne by congruence.
      rewrite <- nth_lookup. apply Hnth. }
    destruct (Nat.leb_spec (S rowIndex) i) as [H1|H1].
    + destruct (Nat.leb_spec rowIndex i); [|lia].
      replace (i - rowIndex)%nat with (S (i - S rowIndex)) by lia.
      cbn [lookup list_lookup]. rewrite Hw by lia. reflexivity.
    + destruct (Nat.leb_spec rowIndex i) as [H2|H2].
      * assert (i = rowIndex) as -> by lia. rewrite Nat.sub_diag.
        cbn [lookup list_lookup]. subst written. rewrite nth_lookup.
        rewrite list_lookup_insert_eq by lia.
        unfold default; cbn [from_option id]. now rewrite Hcur'.
      * apply Hw. lia.
Qed.

(** X23. Pasting clipboard text into the cell of an existing row writes the
    grid of its non-blank lines and tab-separated values, each trimmed, into
    the table from that cell on: row by row downwards and column by column
    to the right.  Values that would fall right of the duration column are
    dropped, rows missing at the bottom are added as blank rows of
    duration 30, and every other cell keeps what it had. *)
Theorem paste_fills_rectangle (pasteData : string) (rowIndex colIndex : nat)
  (tableRows : list ParentDashboard.TableRow) :
  (rowIndex <= length tableRows)%nat ->
  exists rows',
    ParentDashboard.handleSpreadsheetPaste pasteData rowIndex colIndex tableRows
    = Some rows'
    /\ length rows'
       = Nat.max (length tableRows) (rowIndex + length (pastedLines pasteData))
    /\ forall i c, (c <= 3)%nat ->
         cell c (nth i rows' (ParentDashboard.blankRow ""))
         = let before := cell c (nth i tableRows (ParentDashboard.blankRow "")) in
           if (rowIndex <=? i)%nat && (colIndex <=? c)%nat
           then match pastedLines pasteData !! (i - rowIndex)%nat with
                | Some line =>
                    match split_char "009" line !! (c - colIndex)%nat with
                    | Some value => trim value
                    | None => before
                    end
                | None => before
                end
           else before.
Proof.
  intros Hle. unfold ParentDashboard.handleSpreadsheetPaste.
  destruct (is_empty pasteData) eqn:He.
  - assert (pasteData = "") as -> by (destruct pasteData; [reflexivity | discriminate]).
    exists tableRows. split; [reflexivity|]. split.
    + cbn. lia.
    + intros i c _. cbv zeta.
      replace (pastedLines "") with (@nil string) by reflexivity.
      rewrite lookup_nil. now destruct (_ && _).
  - fold (pastedLines pasteData).
    destruct (pasteRows_spec colIndex (pastedLines pasteData) rowIndex tableRows Hle)
      as (rows' & Hrun & Hlen & Hrows).
    exists rows'. split; [exact Hrun|]. split; [exact Hlen|].
    intros i c Hc. rewrite Hrows. cbv zeta.
    destruct (rowIndex <=? i)%nat; [|reflexivity]. cbn [andb].
    destruct (pastedLines pasteData !! (i - rowIndex)%nat) as [line|].
    + now rewrite pasteCols_cell.
    + now destruct (colIndex <=? c)%nat.
Qed.

Lemma paste_fills_rectangle_witness :
  let tab := String "009" "" in
  let pasteData :=
    ("Brush teeth" ++ tab ++ " two minutes " ++ tab ++ "5" ++ tab ++ "extra"
     ++ String "013" (String "010" "")
     ++ String "010" ""
     ++ "Breakfast")%string in
  exists rows',
    ParentDashboard.handleSpreadsheetPaste pasteData 4 1 ParentDashboard.initialRows
    = Some rows'
    /\ length rows' = 6%nat
    /\ map (fun c => cell c (nth 4 rows' (ParentDashboard.blankRow ""))) [0; 1; 2; 3]%nat
       = ["12:00 PM"; "Brush teeth"; "two minutes"; "5"]
    /\ map (fun c => cell c (nth 5 rows' (ParentDashboard.blankRow ""))) [0; 1; 2; 3]%nat
       = [""; "Breakfast"; ""; "30"].
Proof.
  intros tab pasteData.
  destruct (paste_fills_rectangle pasteData 4 1 ParentDashboard.initialRows)
    as (rows' & Hrun & Hlen & Hcells).
  - vm_compute. lia.
  - exists rows'. split; [exact Hrun|]. split; [rewrite Hlen; reflexivity|].
    cbn [map]. rewrite !Hcells by lia. split; reflexivity.
Defined.

(** ** Quotients and remainders of whole numbers *)

(** [Math.floor(a / b)] is the integer quotient: the rounding of the
    division never reaches the next whole number. *)
Lemma floor_div_Int (a b : Z) :
  0 <= a < 2 ^ 51 -> 0 < b < 2 ^ 51 ->
  floor (div (Int a) (Int b)) = Int (a / b).
Proof.
  intros Ha Hb. destruct b as [|p|p]; [lia| |lia].
  unfold div, Int, is_zero. cbn [Qnum].
  change (Qdiv (a # 1) (Z.pos p # 1)) with ((a * 1) # p).
  rewrite Z.mul_1_r. unfold round64. cbn [Qnum Qden].
  destruct (Z.eqb_spec a 0) as [->|Hnz]; [reflexivity|].
  set (b := Z.pos p) in *.
  rewrite (Z.abs_eq a) by lia.
  set (e0 := Z.log2 a - Z.log2 b).
  set (e := if ge_pow2 a b e0 then e0 else e0 - 1).
  assert (Hla : 0 <= Z.log2 a <= 50).
  { split; [apply Z.log2_nonneg|].
    assert (Z.log2 a < 51) by (apply Z.log2_lt_pow2; lia). lia. }
  assert (Hlb : 0 <= Z.log2 b <= 50).
  { split; [apply Z.log2_nonneg|].
    assert (Z.log2 b < 51) by (apply Z.log2_lt_pow2; lia). lia. }
  assert (He : e0 - 1 <= e <= e0) by (subst e; destruct (ge_pow2 a b e0); lia).
  replace (Z.max (e - 52) (-1074)) with (e - 52) by (subst e0; lia).
  destruct (Z.leb_spec 0 (e - 52)) as [Hu|Hu]; [subst e0; lia|].
  set (N := - (e - 52)).
  assert (HN : Z.log2 b + 2 <= N) by (subst N e0; lia).
  set (P := 2 ^ N).
  assert (HP : 2 * b < P).
  { assert (2 ^ (Z.log2 b + 2) <= P) by (apply Z.pow_le_mono_r; lia).
    pose proof (Z.log2_spec b (proj1 Hb)) as [_ Hlt].
    rewrite Z.pow_add_r in H by lia. rewrite Z.pow_succ_r in Hlt by lia.
    change (2 ^ 2) with 4 in H. lia. }
  set (fl := a * P / b). set (r := (a * P) mod b).
  set (m := if 2 * r <? b then fl
            else if b <? 2 * r then fl + 1
            else if Z.even fl then fl else fl + 1).
  destruct (Z.ltb_spec a 0) as [|_]; [lia|].
  assert (Hm : fl <= m <= fl + 1).
  { subst m. destruct (2 * r <? b); [lia|]. destruct (b <? 2 * r); [lia|].
    destruct (Z.even fl); lia. }
  assert (Hfl : (a / b) * P <= fl <= (a / b) * P + P - 2).
  { subst fl. pose proof (Z.div_mod a b ltac:(lia)) as Hdm.
    pose proof (Z.mod_pos_bound a b ltac:(lia)) as Hr.
    replace (a * P) with ((a / b) * P * b + (a mod b) * P) by nia.
    rewrite Z.div_add_l by lia.
    assert (0 <= (a mod b) * P / b) by (apply Z.div_pos; nia).
    assert ((a mod b) * P / b <= P - 2) by (apply Z.div_le_upper_bound; nia).
    lia. }
  unfold floor. f_equal. f_equal.
  rewrite (Qfloor_comp _ _ (Qred_correct _)). unfold Qfloor.
  rewrite Z2Pos.id by lia. fold P.
  symmetry. apply (Z.div_unique m P (a / b) (m - (a / b) * P)); lia.
Qed.

(** [a % b] on whole numbers. *)
Lemma rem_Int (a b : Z) :
  0 <= a -> 0 < b -> rem (Int a) (Int b) = Int (a mod b).
Proof.
  intros Ha Hb. destruct b as [|p|p]; [lia| |lia].
  unfold rem, Int, is_zero, is_neg. cbn [Qnum].
  change (Qdiv (a # 1) (Z.pos p # 1)) with ((a * 1) # p).
  cbn [Qnum]. rewrite Z.mul_1_r.
  destruct (Z.ltb_spec a 0) as [|_]; [lia|].
  unfold Qfloor. f_equal.
  rewrite <- (Qred_int (a mod Z.pos p)). apply Qred_complete.
  unfold Qeq, Qminus, Qplus, Qopp, Qmult. cbn [Qnum Qden Pos.mul].
  rewrite Z.mod_eq by lia. change (Z.pos (1 * 1)) with 1; change (Z.pos (1 * (1 * 1))) with 1; lia.
Qed.

Lemma le_Int (a b : Z) : le (Int a) (Int b) = (a <=? b).
Proof. unfold le, Int, Qle_bool. cbn [Qnum Qden]. now rewrite !Z.mul_1_r. Qed.

Lemma toString_checked :
  forallb (fun n => String.eqb (toString (Int (Z.of_nat n))) (dec (Z.of_nat n)))
    (seq 0 1441) = true.
Proof. vm_cast_no_check (@eq_refl bool true). Qed.

Lemma toString_small (z : Z) : 0 <= z <= 1440 -> toString (Int z) = dec z.
Proof.
  intros Hz. pose proof toString_checked as H.
  rewrite forallb_forall in H. specialize (H (Z.to_nat z)).
  rewrite Z2Nat.id in H by lia. apply String.eqb_eq, H, in_seq. lia.
Qed.

(** ** The countdown of the active task *)


(** X24. While a task is active, the countdown shows the whole seconds left
    until its start time plus its duration, as minutes and seconds in at
    least two digits each, the seconds below 60; nothing is rounded up, so
    it reads 00:00 during the last second and from the end on.  The start
    is a clock reading that is not ahead of the current one, and the
    duration reads as 1 to 1440 minutes. *)
Theorem timer_counts_whole_seconds (task : Task) (startTime now d : Z)
  (duration : string) :
  task_status task = Active ->
  task_startTime task = Some startTime ->
  task_duration task = Some duration ->
  parseInt duration = Int d -> 1 <= d <= 1440 ->
  0 < startTime <= now -> now < 2 ^ 50 ->
  let left := Z.max 0 (startTime + d * 60000 - now) / 1000 in
  exists view,
    ChildPortal.timerTick task now = Some view
    /\ ChildPortal.timeLeft view
       = String.append (twoDigits (left / 60)) (String ":" (twoDigits (left mod 60)))
    /\ 0 <= left / 60 <= d /\ 0 <= left mod 60 < 60.
Proof.
  intros Hst Hs Hd Hp Hdr Hnow Hmax left.
  assert (H50 : 2 ^ 50 = 1125899906842624) by reflexivity.
  assert (H52 : 2 ^ 52 = 4503599627370496) by reflexivity.
  assert (H51 : 2 ^ 51 = 2251799813685248) by reflexivity.
  unfold ChildPortal.timerTick. rewrite Hst, Hs, Hd.
  destruct duration as [|c duration']; [discriminate Hp|].
  destruct (Z.eqb_spec startTime 0); [lia|].
  rewrite Hp. rewrite (mul_Int d 60), (mul_Int (d * 60) 1000) by lia.
  rewrite add_Int by lia. eexists. split; [reflexivity|].
  unfold ChildPortal.tick. rewrite sub_Int by lia. rewrite le_Int.
  set (diff := startTime + d * 60 * 1000 - now).
  assert (Hleft : left = Z.max 0 diff / 1000) by (subst left diff; f_equal; lia).
  assert (Hrange : 0 <= left / 60 <= d /\ 0 <= left mod 60 < 60).
  { split; [|apply Z.mod_pos_bound; lia].
    assert (0 <= left <= d * 60).
    { rewrite Hleft. split; [apply Z.div_pos; lia|].
      apply Z.div_le_upper_bound; subst diff; lia. }
    split; [apply Z.div_pos; lia | apply Z.div_le_upper_bound; lia]. }
  split; [|exact Hrange].
  destruct (Z.leb_spec diff 0) as [Hle|Hgt]; cbn [ChildPortal.timeLeft].
  - rewrite Hleft, Z.max_l by lia. reflexivity.
  - assert (Hdiff : 0 < diff <= d * 60000) by (subst diff; lia).
    rewrite floor_div_Int by lia. rewrite rem_Int by lia.
    rewrite floor_div_Int
      by (pose proof (Z.mod_pos_bound diff 60000 ltac:(lia)); lia).
    rewrite Z.max_r in Hleft by lia.
    assert (Hmins : diff / 60000 = left / 60).
    { rewrite Hleft, Z.div_div by lia. reflexivity. }
    assert (Hsecs : diff mod 60000 / 1000 = left mod 60).
    { pose proof (Z.div_mod diff 60000 ltac:(lia)) as E1.
      pose proof (Z.mod_pos_bound diff 60000 ltac:(lia)) as B1.
      set (r := diff mod 60000) in *.
      pose proof (Z.div_mod r 1000 ltac:(lia)) as E2.
      pose proof (Z.mod_pos_bound r 1000 ltac:(lia)) as B2.
      assert (0 <= r / 1000 < 60).
      { split; [apply Z.div_pos; lia | apply Z.div_lt_upper_bound; lia]. }
      apply (Z.mod_unique left 60 (diff / 60000)); [left; lia|].
      rewrite Hleft. symmetry.
      apply (Z.div_unique diff 1000 _ (r mod 1000)); [left; lia | lia]. }
    rewrite Hmins, Hsecs, !toString_small by lia. reflexivity.
Qed.

Lemma timer_counts_whole_seconds_witness :
  let task := task_with_status (overlapTask "a" "09:00 AM") Active (Some 1000000) in
  exists view,
    ChildPortal.timerTick task 1090500 = Some view
    /\ ChildPortal.timeLeft view = "58:29".
Proof.
  intros task.
  destruct (timer_counts_whole_seconds task 1000000 1090500 60 "60"
              eq_refl eq_refl eq_refl eq_refl ltac:(lia) ltac:(lia) eq_refl)
    as (view & Hrun & Hleft & _).
  exists view. split; [exact Hrun|]. rewrite Hleft. reflexivity.
Defined.

(** ** The child editor *)

(** X25. Opening the editor on a child of the family and saving at once
    hands [onUpdateChild] the very same child, and the family stays as it
    is: the age survives its way through the text field, an age of 0
    included, for whole ages up to 150 or no age.  It needs a name that is
    not blank, love languages that are set, and distinct child ids. *)
Theorem child_edit_round_trip (now : Z) (children : list Child) (child : Child) :
  trim (child_name child) <> EmptyString ->
  match child_age child with
  | None => True
  | Some age => exists a, age = Int a /\ 0 <= a <= 150
  end ->
  child_loveLanguages child <> None ->
  List.NoDup (map child_id children) -> In child children ->
  ParentSettings.saveChild now (Some child) (ParentSettings.openEditChild child)
  = Some (ParentSettings.OnUpdateChild child)
  /\ App.updateChild children child = children.
Proof.
  intros Hname Hage Hlove Hnd Hin. split.
  - unfold ParentSettings.saveChild, ParentSettings.openEditChild.
    cbn [ParentSettings.form_name ParentSettings.form_avatar
         ParentSettings.form_loveLanguages].
    destruct (trim (child_name child)) eqn:Ht; [congruence|]. cbn [is_empty].
    assert (Hback : ParentSettings.formAge
                      {| ParentSettings.form_name := child_name child;
                         ParentSettings.form_age :=
                           or_str (option_map toString (child_age child)) "";
                         ParentSettings.form_avatar := child_avatar child;
                         ParentSettings.form_loveLanguages :=
                           default [] (child_loveLanguages child) |}
                    = child_age child).
    { unfold ParentSettings.formAge. cbn [ParentSettings.form_age].
      destruct (child_age child) as [age|]; [|reflexivity].
      destruct Hage as (n & -> & Hn). cbn [option_map].
      rewrite toString_small by lia.
      destruct (dec_digits n (proj1 Hn)) as (_ & Hne & _).
      assert (H52 : 2 ^ 52 = 4503599627370496) by reflexivity.
      destruct (dec n) as [|c0 rest] eqn:Hd; [congruence|].
      cbn [or_str]. rewrite <- Hd, parseInt_dec by lia. reflexivity. }
    rewrite Hback.
    destruct (child_loveLanguages child) as [l|] eqn:Hl; [|congruence].
    unfold default; cbn [from_option id].
    destruct child; cbn in *. subst. reflexivity.
  - unfold App.updateChild. apply map_id_on. intros c Hc.
    destruct (String.eqb (child_id c) (child_id child)) eqn:Hcid; [|reflexivity].
    apply String.eqb_eq in Hcid. symmetry.
    apply (find_key_unique child_id (child_id child) children child c Hnd);
      [now apply (find_key_In child_id) | assumption | assumption].
Qed.

Lemma child_edit_round_trip_witness :
  let kid := {| child_id := "c_1"; child_name := "Ana"; child_age := Some (Int 0);
                child_level := 1; child_stars := 0; child_avatar := "";
                child_active := true; child_rewards := []; child_tasks := [];
                child_loveLanguages := Some []; child_redemptionHistory := None |} in
  ParentSettings.saveChild 7 (Some kid) (ParentSettings.openEditChild kid)
  = Some (ParentSettings.OnUpdateChild kid).
Proof.
  intros kid.
  apply (child_edit_round_trip 7 [kid] kid).
  - discriminate.
  - exists 0. split; [reflexivity | lia].
  - discriminate.
  - apply List.NoDup_cons; [simpl; tauto | apply List.NoDup_nil].
  - now left.
Defined.
